(** * Helix Hub (tabapp): date ranges, leave routing, caching and rendering

    A shallow embedding of the business logic of the Azure Functions
    [getAttendance] and [getAnnualLeave]
    (src/api/src/functions/getAttendance.ts, getAnnualLeave.ts) and of the
    React component [OutstandingBalancesList], with the properties the
    specification states about them.

    Conventions of the embedding:
    - a JavaScript [Date] is its time value, an integer number of
      milliseconds since the epoch ([Z]); the Invalid Date and the clipping
      of time values beyond 8.64e15 ms are outside the model;
    - the local time zone is a constant offset [tza] from UTC (Azure
      Functions run in UTC unless configured otherwise), so that
      [LocalTime t = t + tza]; in a zone with daylight saving the offset
      changes with the date, and the time elapsed between two local times
      changes with it, so the properties of dates are stated in local
      calendar days and local clock fields;
    - JavaScript strings are [string]s, with the ASCII fragment of
      [toLowerCase] and [trim];
    - a plain object used as a map is the list of its own properties, in
      the order of their creation, and inherits the members of
      [Object.prototype];
    - the outside world (Key Vault, SQL Server, the clock) is an explicit
      argument of the handlers, and the module-level caches are an explicit
      state; an invocation of [getAnnualLeave] is a computation that is
      suspended where the code awaits, and the process runs the
      invocations in progress one piece at a time, in any order. *)

From Stdlib Require Import ZArith QArith Lia List Ascii String Sorted.
From stdpp Require Import base option list strings pretty gmap.

#[local] Set Warnings "-register-all".
Local Open Scope Z_scope.

(** ** ECMAScript time values (ECMA-262, "Time Values and Time Range") *)

Module JsDate.

Definition msPerSecond : Z := 1000.
Definition msPerMinute : Z := 60000.
Definition msPerHour : Z := 3600000.
Definition msPerDay : Z := 86400000.

Definition Day (t : Z) : Z := t / msPerDay.
Definition TimeWithinDay (t : Z) : Z := t mod msPerDay.

Definition DaysInYear (y : Z) : Z :=
  if negb (y mod 4 =? 0) then 365
  else if negb (y mod 100 =? 0) then 366
  else if negb (y mod 400 =? 0) then 365
  else 366.

Definition DayFromYear (y : Z) : Z :=
  365 * (y - 1970) + (y - 1969) / 4 - (y - 1901) / 100 + (y - 1601) / 400.

Definition TimeFromYear (y : Z) : Z := msPerDay * DayFromYear y.

(** [YearFromTime t] is specified as the largest [y] with
    [TimeFromYear y <= t].  It is computed from the mean length of a
    Gregorian year (146097 days in 400 years), which is off by one year at
    most, and then adjusted; [YearFromTime_spec] and
    [YearFromTime_largest] below show that this is the specified year. *)
Definition YearFromTime (t : Z) : Z :=
  let d := Day t in
  let y := 1970 + (400 * d) / 146097 in
  if DayFromYear (y + 1) <=? d then y + 1
  else if DayFromYear y <=? d then y
  else y - 1.

Definition InLeapYear (t : Z) : Z :=
  if DaysInYear (YearFromTime t) =? 366 then 1 else 0.

Definition DayWithinYear (t : Z) : Z := Day t - DayFromYear (YearFromTime t).

Definition MonthFromTime (t : Z) : Z :=
  let d := DayWithinYear t in
  let leap := InLeapYear t in
  if d <? 31 then 0
  else if d <? 59 + leap then 1
  else if d <? 90 + leap then 2
  else if d <? 120 + leap then 3
  else if d <? 151 + leap then 4
  else if d <? 181 + leap then 5
  else if d <? 212 + leap then 6
  else if d <? 243 + leap then 7
  else if d <? 273 + leap then 8
  else if d <? 304 + leap then 9
  else if d <? 334 + leap then 10
  else 11.

Definition DateFromTime (t : Z) : Z :=
  let d := DayWithinYear t in
  let leap := InLeapYear t in
  match MonthFromTime t with
  | 0 => d + 1
  | 1 => d - 30
  | 2 => d - 58 - leap
  | 3 => d - 89 - leap
  | 4 => d - 119 - leap
  | 5 => d - 150 - leap
  | 6 => d - 180 - leap
  | 7 => d - 211 - leap
  | 8 => d - 242 - leap
  | 9 => d - 272 - leap
  | 10 => d - 303 - leap
  | _ => d - 333 - leap
  end.

(** 0 = Sunday, 1 = Monday, ..., 6 = Saturday; 1 January 1970 was a Thursday. *)
Definition WeekDay (t : Z) : Z := (Day t + 4) mod 7.

Definition HourFromTime (t : Z) : Z := (t / msPerHour) mod 24.
Definition MinFromTime (t : Z) : Z := (t / msPerMinute) mod 60.
Definition SecFromTime (t : Z) : Z := (t / msPerSecond) mod 60.
Definition msFromTime (t : Z) : Z := t mod msPerSecond.

Definition MakeTime (hour min sec ms : Z) : Z :=
  hour * msPerHour + min * msPerMinute + sec * msPerSecond + ms.

(** Number of days from 1 January to the first day of month [mn] (0..11). *)
Definition MonthStartDay (mn leap : Z) : Z :=
  match mn with
  | 0 => 0
  | 1 => 31
  | 2 => 59 + leap
  | 3 => 90 + leap
  | 4 => 120 + leap
  | 5 => 151 + leap
  | 6 => 181 + leap
  | 7 => 212 + leap
  | 8 => 243 + leap
  | 9 => 273 + leap
  | 10 => 304 + leap
  | _ => 334 + leap
  end.

(** Number of days of month [mn] (0..11). *)
Definition DaysInMonth (mn leap : Z) : Z :=
  match mn with
  | 1 => 28 + leap
  | 3 | 5 | 8 | 10 => 30
  | _ => 31
  end.

(** [MakeDay year month date]: the day number of the first day of the
    month ([MakeDay_civil] shows it is the day the standard asks for),
    moved by [date - 1] days. *)
Definition MakeDay (year month date : Z) : Z :=
  let ym := year + month / 12 in
  let mn := month mod 12 in
  let leap := if DaysInYear ym =? 366 then 1 else 0 in
  DayFromYear ym + MonthStartDay mn leap + date - 1.

Definition MakeDate (day time : Z) : Z := day * msPerDay + time.

(** Two-digit years of the [Date] constructor mean 19xx. *)
Definition MakeFullYear (y : Z) : Z :=
  if (0 <=? y) && (y <=? 99) then 1900 + y else y.

Section LocalZone.
(** Offset of local time from UTC, in milliseconds. *)
Variable tza : Z.

Definition LocalTime (t : Z) : Z := t + tza.
Definition UTC (t : Z) : Z := t - tza.

Definition getDay (t : Z) : Z := WeekDay (LocalTime t).
Definition getDate (t : Z) : Z := DateFromTime (LocalTime t).
Definition getMonth (t : Z) : Z := MonthFromTime (LocalTime t).
Definition getFullYear (t : Z) : Z := YearFromTime (LocalTime t).
Definition getHours (t : Z) : Z := HourFromTime (LocalTime t).
Definition getMinutes (t : Z) : Z := MinFromTime (LocalTime t).
Definition getSeconds (t : Z) : Z := SecFromTime (LocalTime t).
Definition getMilliseconds (t : Z) : Z := msFromTime (LocalTime t).

(** The local calendar day (days since 1 January 1970, local time). *)
Definition localDay (t : Z) : Z := Day (LocalTime t).

(** [d.setDate(dt)] and [d.setHours(h, m, s, ms)], returning the new
    time value of [d]. *)
Definition setDate (t dt : Z) : Z :=
  let lt := LocalTime t in
  UTC (MakeDate (MakeDay (YearFromTime lt) (MonthFromTime lt) dt)
                (TimeWithinDay lt)).

Definition setHours (t hour min sec ms : Z) : Z :=
  let lt := LocalTime t in
  UTC (MakeDate (Day lt) (MakeTime hour min sec ms)).

(** [new Date(year, month, date)]. *)
Definition Date_ymd (year month date : Z) : Z :=
  UTC (MakeDate (MakeDay (MakeFullYear year) month date) (MakeTime 0 0 0 0)).
End LocalZone.

End JsDate.

(** ** JavaScript strings, objects and JSON values *)

Module Js.

(** [String.prototype.toLowerCase], on ASCII letters. *)
Definition lower_ascii (c : ascii) : ascii :=
  let n := N_of_ascii c in
  if ((65 <=? n) && (n <=? 90))%N then ascii_of_N (n + 32) else c.

Fixpoint toLowerCase (s : string) : string :=
  match s with
  | EmptyString => EmptyString
  | String c s' => String (lower_ascii c) (toLowerCase s')
  end.

(** White space and line terminators removed by [trim] (ASCII ones:
    TAB, LF, VT, FF, CR and SP). *)
Definition isWhiteSpace (c : ascii) : bool :=
  let n := N_of_ascii c in
  (((9 <=? n) && (n <=? 13)) || (n =? 32))%N.

Fixpoint trimStart (s : string) : string :=
  match s with
  | EmptyString => EmptyString
  | String c s' => if isWhiteSpace c then trimStart s' else s
  end.

Fixpoint trimEnd (s : string) : string :=
  match s with
  | EmptyString => EmptyString
  | String c s' =>
      match trimEnd s' with
      | EmptyString => if isWhiteSpace c then EmptyString else String c EmptyString
      | r => String c r
      end
  end.

Definition trim (s : string) : string := trimEnd (trimStart s).

(** [s.split(sep)] for a one-character separator: always at least one
    item, the empty string for the empty input. *)
Fixpoint split (sep : ascii) (s : string) : list string :=
  match s with
  | EmptyString => [EmptyString]
  | String c s' =>
      if Ascii.eqb c sep then EmptyString :: split sep s'
      else match split sep s' with
           | [] => [String c EmptyString]
           | item :: items => String c item :: items
           end
  end.

(** [Array.prototype.includes] on strings. *)
Definition includes (l : list string) (x : string) : bool :=
  existsb (String.eqb x) l.

(** [s.slice(-2)]: the last two characters. *)
Definition slice_last2 (s : string) : string :=
  let n := String.length s in
  String.substring (n - 2) 2 s.

(** [`0${n}`.slice(-2)] and [padStart(2, "0")] of a day or month number. *)
Definition pad2 (n : Z) : string := slice_last2 ("0" +:+ pretty n).

(** [x || ""] and [x || null] for a value that is a string or null. *)
Definition or_empty (x : option string) : string := default EmptyString x.

Definition or_null (x : option string) : option string :=
  match x with
  | Some s => if String.eqb s EmptyString then None else Some s
  | None => None
  end.

(** A plain object used as a dictionary with string keys: its own
    properties, in the order of their creation. *)
Definition Obj (V : Type) : Type := list (string * V).

(** The own property [k] of the object, if it has one. *)
Fixpoint obj_get {V} (k : string) (o : Obj V) : option V :=
  match o with
  | [] => None
  | (k', v) :: o' => if String.eqb k' k then Some v else obj_get k o'
  end.

(** The properties that every plain object inherits from
    [Object.prototype]: [o[k]] is one of its functions, or the prototype
    itself for [__proto__], when [o] has no own property [k]. *)
Definition Object_prototype_keys : list string :=
  [ "constructor"; "__defineGetter__"; "__defineSetter__"; "hasOwnProperty";
    "__lookupGetter__"; "__lookupSetter__"; "isPrototypeOf";
    "propertyIsEnumerable"; "toString"; "valueOf"; "__proto__";
    "toLocaleString" ]%string.

Definition inherited (k : string) : bool := includes Object_prototype_keys k.

(** [o[k] = v]: an existing property keeps its place, a new one is added last. *)
Fixpoint obj_set {V} (k : string) (v : V) (o : Obj V) : Obj V :=
  match o with
  | [] => [(k, v)]
  | (k', v') :: o' =>
      if String.eqb k' k then (k, v) :: o' else (k', v') :: obj_set k v o'
  end.

(** In-place mutation of the object stored under [k]. *)
Fixpoint obj_alter {V} (f : V -> V) (k : string) (o : Obj V) : Obj V :=
  match o with
  | [] => []
  | (k', v') :: o' =>
      if String.eqb k' k then (k', f v') :: o' else (k', v') :: obj_alter f k o'
  end.

(** The number that a string of decimal digits writes. *)
Fixpoint digits_value (acc : N) (s : string) : option N :=
  match s with
  | EmptyString => Some acc
  | String c s' =>
      let n := N_of_ascii c in
      if ((48 <=? n) && (n <=? 57))%N
      then digits_value (10 * acc + (n - 48))%N s'
      else None
  end.

(** An array index: the canonical decimal form of an integer from 0 to
    2^32 - 2. *)
Definition array_index (k : string) : option N :=
  match k with
  | EmptyString => None
  | _ =>
      match digits_value 0 k with
      | Some n =>
          if (n <? 4294967295)%N && String.eqb (pretty n) k then Some n else None
      | None => None
      end
  end.

(** The properties whose keys are array indices, in ascending order of
    the index. *)
Fixpoint index_insert {V} (i : N) (kv : string * V)
    (l : list (N * (string * V))) : list (N * (string * V)) :=
  match l with
  | [] => [(i, kv)]
  | (j, kv') :: l' =>
      if (i <? j)%N then (i, kv) :: l else (j, kv') :: index_insert i kv l'
  end.

Definition indexed {V} (o : Obj V) : list (string * V) :=
  map snd
    (foldr (fun kv acc => match array_index kv.1 with
                          | Some i => index_insert i kv acc
                          | None => acc
                          end) [] o).

Definition named {V} (o : Obj V) : list (string * V) :=
  List.filter (fun kv => bool_decide (array_index kv.1 = None)) o.

(** [Object.values(o)]: the values of the properties whose keys are array
    indices, in ascending order of the index, then those of the other
    properties in the order of their creation. *)
Definition Object_values {V} (o : Obj V) : list V := map snd (indexed o ++ named o).

(** [Array.prototype.sort(compareFn)]: a stable sort.  [compareFn a b]
    is negative, zero or positive; an element is placed before the first
    element it does not compare greater than, so equal elements keep
    their order. *)
Section Sort.
Context {A : Type} (compareFn : A -> A -> Z).

Fixpoint sort_insert (x : A) (l : list A) : list A :=
  match l with
  | [] => [x]
  | y :: l' => if compareFn x y <=? 0 then x :: l else y :: sort_insert x l'
  end.

Definition Array_sort (l : list A) : list A := foldr sort_insert [] l.
End Sort.

(** JSON values, as [JSON.parse] returns them. *)
Inductive JsVal : Type :=
  | JNull
  | JBool (b : bool)
  | JNum (q : Q)
  | JStr (s : string)
  | JArr (items : list JsVal)
  | JObj (props : list (string * JsVal)).

(** [v.k] for a value [v] that is not null; [None] is [undefined]. *)
Definition get_prop (v : JsVal) (k : string) : option JsVal :=
  match v with
  | JObj props => obj_get k props
  | _ => None
  end.

(** ToBoolean. *)
Definition truthy (v : option JsVal) : bool :=
  match v with
  | None | Some JNull => false
  | Some (JBool b) => b
  | Some (JNum q) => negb (Qeq_bool q 0)
  | Some (JStr s) => negb (String.eqb s EmptyString)
  | Some (JArr _) | Some (JObj _) => true
  end.

(** [a < b] on strings: by code units, a proper prefix being smaller;
    [a <= b] is [!(b < a)] and [a >= b] is [!(a < b)]. *)
Fixpoint string_lt (a b : string) : bool :=
  match a, b with
  | _, EmptyString => false
  | EmptyString, String _ _ => true
  | String x a', String y b' =>
      if (N_of_ascii x <? N_of_ascii y)%N then true
      else if (N_of_ascii y <? N_of_ascii x)%N then false
      else string_lt a' b'
  end.

Definition string_le (a b : string) : bool := negb (string_lt b a).
Definition string_ge (a b : string) : bool := negb (string_lt a b).

(** [s.padStart(width, "0")]. *)
Fixpoint zeros (n : nat) : string :=
  match n with
  | O => EmptyString
  | S k => String "0" (zeros k)
  end.

Definition padStart0 (width : nat) (s : string) : string :=
  zeros (width - String.length s) +:+ s.

(** [Date.prototype.toISOString] of a valid date: UTC, the year with four
    digits from 0 to 9999 and with a sign and six digits outside. *)
Definition toISOString (t : Z) : string :=
  let y := JsDate.YearFromTime t in
  let year :=
    if (0 <=? y) && (y <=? 9999) then padStart0 4 (pretty y)
    else (if y <? 0 then "-" else "+") +:+ padStart0 6 (pretty (Z.abs y)) in
  year +:+ "-" +:+ padStart0 2 (pretty (JsDate.MonthFromTime t + 1))
    +:+ "-" +:+ padStart0 2 (pretty (JsDate.DateFromTime t))
    +:+ "T" +:+ padStart0 2 (pretty (JsDate.HourFromTime t))
    +:+ ":" +:+ padStart0 2 (pretty (JsDate.MinFromTime t))
    +:+ ":" +:+ padStart0 2 (pretty (JsDate.SecFromTime t))
    +:+ "." +:+ padStart0 3 (pretty (JsDate.msFromTime t))
    +:+ "Z".

(** Whether [ToString(v)], as a template literal applies it, throws a
    TypeError, for a value made by [JSON.parse]: an object with an own
    property [toString] (which is no function, and [valueOf] gives the
    object back), and an array with such an element, which [join]
    converts in turn. *)
Fixpoint ToString_throws (v : JsVal) : bool :=
  match v with
  | JObj props => bool_decide (is_Some (obj_get "toString" props))
  | JArr items => existsb ToString_throws items
  | _ => false
  end.

(** The outcome of awaiting a promise (or of a call that may throw). *)
Inductive Result (A : Type) : Type :=
  | Resolved (a : A)
  | Threw (reason : string).
Arguments Resolved {A} a.
Arguments Threw {A} reason.

Definition bind {A B} (r : Result A) (k : A -> Result B) : Result B :=
  match r with
  | Resolved a => k a
  | Threw reason => Threw reason
  end.

(** [Promise.all] of three promises. *)
Definition Promise_all3 {A B C} (a : Result A) (b : Result B) (c : Result C)
  : Result (A * B * C) :=
  bind a (fun x => bind b (fun y => bind c (fun z => Resolved (x, y, z)))).

End Js.

(** ** HTTP responses *)

Module Http.

(** An [HttpResponseInit]: the body is a plain text, or the
    [JSON.stringify] of an object literal, given by its properties in
    order; [P] is the type of the property values. *)
Inductive Body (P : Type) : Type :=
  | TextBody (text : string)
  | JsonBody (props : list (string * P)).
Arguments TextBody {P} text.
Arguments JsonBody {P} props.

Record HttpResponseInit (P : Type) : Type := {
  status : Z;
  body : Body P
}.
Arguments status {P} _.
Arguments body {P} _.

(** The property names of a JSON body ([None] for a plain text). *)
Definition body_keys {P} (b : Body P) : option (list string) :=
  match b with
  | TextBody _ => None
  | JsonBody props => Some (map fst props)
  end.

End Http.

#[global] Instance Result_ret : MRet Js.Result := @Js.Resolved.
#[global] Instance Result_bind : MBind Js.Result :=
  fun A B k r => Js.bind r k.

(** ** getAttendance (src/api/src/functions/getAttendance.ts) *)

Module Attendance.
Import JsDate Js Http.

Record WeeklyAttendance : Type := {
  iso : Z;
  attendance : string
}.

Record PersonAttendance : Type := {
  name : string;
  level : string;
  weeks : gmap string WeeklyAttendance
}.

(** A row of the attendance query; a column is [None] when it is NULL. *)
Record AttendanceRow : Type := {
  col_name : option string;
  col_Level : option string;
  col_current_week : option string;
  col_current_attendance : option string;
  col_next_week : option string;
  col_next_attendance : option string;
  col_current_iso : option Z;
  col_next_iso : option Z
}.

(** A row of the team query. *)
Record TeamMember : Type := {
  First : option string;
  Initials : option string;
  Entra_ID : option string;
  Nickname : option string
}.

(** The values of the properties of the response object. *)
Inductive Payload : Type :=
  | PAttendance (attendees : list PersonAttendance)
  | PTeam (teamData : list TeamMember).

(** What one invocation finds outside: the clock, the Key Vault secret and
    the answers of the two databases (the attendance query is given the
    three week ranges it binds as parameters). *)
Record World : Type := {
  now : Z;
  getSecret : Result (option string);
  attendanceRows : string -> string -> string -> Result (list AttendanceRow);
  teamRows : Result (list TeamMember)
}.

Section Handler.
Variable tza : Z.
(** [String.prototype.localeCompare]. *)
Variable localeCompare : string -> string -> Z.

Definition getStartOfWeek (date : Z) : Z :=
  let day := getDay tza date in
  let diff := (if day =? 0 then -6 else 1) - day in
  let start := date in
  let start := setDate tza start (getDate tza date + diff) in
  let start := setHours tza start 0 0 0 0 in
  start.

Definition getNextWeekStart (currentWeekStart : Z) : Z :=
  let nextWeekStart := currentWeekStart in
  let nextWeekStart :=
    setDate tza nextWeekStart (getDate tza currentWeekStart + 7) in
  let nextWeekStart := setHours tza nextWeekStart 0 0 0 0 in
  nextWeekStart.

Definition getEndOfWeek (startDate : Z) : Z :=
  let end_ := startDate in
  let end_ := setDate tza end_ (getDate tza startDate + 6) in
  let end_ := setHours tza end_ 23 59 59 999 in
  end_.

(** [d.toLocaleDateString("en-GB", { day: '2-digit', month: '2-digit',
    year: 'numeric' })]: the year written is the year of the era, which is
    one minus the year number before the common era (year 0 is 1 BC). *)
Definition toLocaleDateString_numeric (d : Z) : string :=
  let year := getFullYear tza d in
  pad2 (getDate tza d) +:+ "/" +:+ pad2 (getMonth tza d + 1) +:+ "/"
    +:+ pretty (if 0 <? year then year else 1 - year).

(** [d.toLocaleDateString("en-GB", { weekday: "long" })]. *)
Definition toLocaleDateString_weekday (d : Z) : string :=
  match getDay tza d with
  | 0 => "Sunday"
  | 1 => "Monday"
  | 2 => "Tuesday"
  | 3 => "Wednesday"
  | 4 => "Thursday"
  | 5 => "Friday"
  | _ => "Saturday"
  end.

Definition formatWeekRange (start end_ : Z) : string :=
  let startStr := toLocaleDateString_numeric start in
  let endStr := toLocaleDateString_numeric end_ in
  "Monday, " +:+ startStr +:+ " - Sunday, " +:+ endStr.

(** The previous week start of the handler: a copy of the current week
    start, moved by [setDate(getDate() - 7)]. *)
Definition getPreviousWeekStart (currentWeekStart : Z) : Z :=
  let previousWeekStart := currentWeekStart in
  setDate tza previousWeekStart (getDate tza previousWeekStart - 7).

(** The handler of the "row" event of [queryAttendance], on the map keyed
    by the person's name.  [weeks[w] = wa] adds or replaces a property,
    but for [__proto__], which sets the prototype of [weeks] and adds no
    property. *)
Definition set_week (w : string) (wa : WeeklyAttendance) (p : PersonAttendance)
  : PersonAttendance :=
  if String.eqb w "__proto__" then p
  else {| name := name p; level := level p; weeks := <[w := wa]> (weeks p) |}.

(** [attendanceMap[name].weeks[w] = wa].  When the map has no own
    property [name], [attendanceMap[name]] is inherited from
    [Object.prototype] and has no [weeks]: the assignment throws a
    TypeError. *)
Definition assign_week (name w : string) (wa : WeeklyAttendance)
    (attendanceMap : Obj PersonAttendance) : Result (Obj PersonAttendance) :=
  match obj_get name attendanceMap with
  | Some _ => Resolved (obj_alter (set_week w wa) name attendanceMap)
  | None => Threw "TypeError: Cannot set properties of undefined"
  end.

Definition on_row (attendanceMap : Obj PersonAttendance) (columns : AttendanceRow)
  : Result (Obj PersonAttendance) :=
  let name := or_empty (col_name columns) in
  let level := or_empty (col_Level columns) in
  let currentWeek := or_empty (col_current_week columns) in
  let currentAttendance := or_empty (col_current_attendance columns) in
  let nextWeek := or_empty (col_next_week columns) in
  let nextAttendance := or_empty (col_next_attendance columns) in
  let currentISO := default 0 (col_current_iso columns) in
  let nextISO := default 0 (col_next_iso columns) in
  let attendanceMap :=
    (* [!attendanceMap[name]] is false for an own property and for a
       name inherited from [Object.prototype] *)
    match obj_get name attendanceMap with
    | Some _ => attendanceMap
    | None =>
        if inherited name then attendanceMap
        else obj_set name {| name := name; level := level; weeks := ∅ |}
               attendanceMap
    end in
  attendanceMap ←
    (if negb (String.eqb currentWeek "") then
       assign_week name currentWeek
         {| iso := currentISO; attendance := currentAttendance |} attendanceMap
     else Resolved attendanceMap);
  attendanceMap ←
    (if negb (String.eqb nextWeek "") then
       assign_week name nextWeek
         {| iso := nextISO; attendance := nextAttendance |} attendanceMap
     else Resolved attendanceMap);
  Resolved attendanceMap.

(** The map after the rows received, or the exception of the first row
    whose handler throws. *)
Definition on_rows (rows : list AttendanceRow) (attendanceMap : Obj PersonAttendance)
  : Result (Obj PersonAttendance) :=
  fold_left (fun acc columns => attendanceMap ← acc; on_row attendanceMap columns)
    rows (Resolved attendanceMap).

(** The handler of "requestCompleted". *)
Definition on_requestCompleted (attendanceMap : Obj PersonAttendance)
  : list PersonAttendance :=
  let results := Object_values attendanceMap in
  Array_sort (fun a b => localeCompare (name a) (name b)) results.

(** The list [queryAttendance] resolves with, for the rows received, when
    no row handler throws. *)
Definition attendance_of_rows (rows : list AttendanceRow)
  : Result (list PersonAttendance) :=
  attendanceMap ← on_rows rows [];
  Resolved (on_requestCompleted attendanceMap).

(** How awaiting [queryAttendance] ends: the promise is resolved, or
    rejected when the connection or the query fails, or the handler of a
    row throws: the exception escapes into the driver, and nothing in the
    function settles the promise or catches it. *)
Inductive Awaited (A : Type) : Type :=
  | Resolves (a : A)
  | Rejects (reason : string)
  | Escapes (exception : string).
Arguments Resolves {A} a.
Arguments Rejects {A} reason.
Arguments Escapes {A} exception.

Definition queryAttendance (previousWeekRange currentWeekRange nextWeekRange
    day : string) (w : World) : Awaited (list PersonAttendance) :=
  match attendanceRows w previousWeekRange currentWeekRange nextWeekRange with
  | Resolved rows =>
      match attendance_of_rows rows with
      | Resolved results => Resolves results
      | Threw exception => Escapes exception
      end
  | Threw reason => Rejects reason
  end.

Definition queryTeamData (w : World) : Result (list TeamMember) := teamRows w.

(** How an invocation ends: the handler returns a response, or an
    exception escaped from an event handler and what happens next is not
    decided by the code of the function. *)
Inductive Outcome : Type :=
  | Returned (response : HttpResponseInit Payload)
  | Uncaught (exception : string).

Definition server_error : HttpResponseInit Payload :=
  {| status := 500; body := TextBody "Error retrieving attendance data." |}.

Definition getAttendanceHandler (w : World) : Outcome :=
  match getSecret w with
  | Threw _ => Returned server_error
  | Resolved passwordSecret =>
      let password := or_empty passwordSecret in
      let todayDate := now w in
      let currentWeekStart := getStartOfWeek todayDate in
      let currentWeekEnd := getEndOfWeek currentWeekStart in
      let currentWeekRange := formatWeekRange currentWeekStart currentWeekEnd in
      let nextWeekStart := getNextWeekStart currentWeekStart in
      let nextWeekEnd := getEndOfWeek nextWeekStart in
      let nextWeekRange := formatWeekRange nextWeekStart nextWeekEnd in
      let previousWeekStart := getPreviousWeekStart currentWeekStart in
      let previousWeekEnd := getEndOfWeek previousWeekStart in
      let previousWeekRange := formatWeekRange previousWeekStart previousWeekEnd in
      let dayToCheck := toLocaleDateString_weekday todayDate in
      match queryAttendance previousWeekRange currentWeekRange nextWeekRange
              dayToCheck w with
      | Rejects _ => Returned server_error
      | Escapes exception => Uncaught exception
      | Resolves attendees =>
          match queryTeamData w with
          | Threw _ => Returned server_error
          | Resolved teamData =>
              Returned {| status := 200;
                          body := JsonBody [("attendance", PAttendance attendees);
                                            ("team", PTeam teamData)] |}
          end
      end
  end.
End Handler.

End Attendance.

(** ** parseConnectionString (getAttendance.ts and getAnnualLeave.ts) *)

Module ConnectionString.
Import Js.

Record AuthenticationOptions : Type := {
  userName : string;
  password : string
}.

Record Authentication : Type := {
  auth_type : string;
  auth_options : AuthenticationOptions
}.

(** [connectTimeout] is [Some None] when [parseInt] gives NaN. *)
Record Options : Type := {
  database : option string;
  encrypt : option bool;
  trustServerCertificate : option bool;
  connectTimeout : option (option Z)
}.

(** The configuration object; a property is [None] when it is not set. *)
Record Config : Type := {
  server : option string;
  options : option Options;
  authentication : option Authentication
}.

Definition empty_config : Config :=
  {| server := None; options := None; authentication := None |}.

(** [{ ...config.options }]. *)
Definition spread (o : option Options) : Options :=
  default {| database := None; encrypt := None; trustServerCertificate := None;
             connectTimeout := None |} o.

Definition digit_value (c : ascii) : option Z :=
  let n := N_of_ascii c in
  if ((48 <=? n) && (n <=? 57))%N then Some (Z.of_N n - 48) else None.

Fixpoint parse_digits (acc : option Z) (s : string) : option Z :=
  match s with
  | EmptyString => acc
  | String c s' =>
      match digit_value c with
      | Some d => parse_digits (Some (10 * default 0 acc + d)) s'
      | None => acc
      end
  end.

(** [parseInt(s, 10)]; [None] is NaN. *)
Definition parseInt10 (s : string) : option Z :=
  match trimStart s with
  | String "-" r => Z.opp <$> parse_digits None r
  | String "+" r => parse_digits None r
  | r => parse_digits None r
  end.

(** The [switch] on the trimmed key. *)
Definition assign (config : Config) (key value : string) : Config :=
  if String.eqb (trim key) "Server" then
    {| server := Some value; options := options config;
       authentication := authentication config |}
  else if String.eqb (trim key) "Database" then
    {| server := server config;
       options :=
         Some {| database := Some value;
                 encrypt := encrypt (spread (options config));
                 trustServerCertificate :=
                   trustServerCertificate (spread (options config));
                 connectTimeout := connectTimeout (spread (options config)) |};
       authentication := authentication config |}
  else if String.eqb (trim key) "User ID" then
    {| server := server config; options := options config;
       authentication :=
         Some {| auth_type := "default";
                 auth_options := {| userName := value; password := "" |} |} |}
  else if String.eqb (trim key) "Password" then
    let auth :=
      default {| auth_type := "default";
                 auth_options := {| userName := ""; password := "" |} |}
        (authentication config) in
    {| server := server config; options := options config;
       authentication :=
         Some {| auth_type := auth_type auth;
                 auth_options :=
                   {| userName := userName (auth_options auth);
                      password := value |} |} |}
  else if String.eqb (trim key) "Encrypt" then
    {| server := server config;
       options :=
         Some {| database := database (spread (options config));
                 encrypt := Some (String.eqb (toLowerCase value) "true");
                 trustServerCertificate :=
                   trustServerCertificate (spread (options config));
                 connectTimeout := connectTimeout (spread (options config)) |};
       authentication := authentication config |}
  else if String.eqb (trim key) "TrustServerCertificate" then
    {| server := server config;
       options :=
         Some {| database := database (spread (options config));
                 encrypt := encrypt (spread (options config));
                 trustServerCertificate :=
                   Some (String.eqb (toLowerCase value) "true");
                 connectTimeout := connectTimeout (spread (options config)) |};
       authentication := authentication config |}
  else if String.eqb (trim key) "Connect Timeout" then
    {| server := server config;
       options :=
         Some {| database := database (spread (options config));
                 encrypt := encrypt (spread (options config));
                 trustServerCertificate :=
                   trustServerCertificate (spread (options config));
                 connectTimeout := Some (parseInt10 value) |};
       authentication := authentication config |}
  else config.

(** The body of [parts.forEach]: a part without key or without value is
    skipped. *)
Definition parse_part (config : Config) (part : string) : Config :=
  let pieces := split "=" part in
  let key := nth 0 pieces EmptyString in
  let value := or_null (pieces !! 1%nat) in
  match value with
  | None => config
  | Some value =>
      if String.eqb key "" then config else assign config key value
  end.

Definition parseConnectionString (connectionString : string) : Config :=
  let parts := split ";" connectionString in
  fold_left parse_part parts empty_config.

(** The connection string that both handlers build. *)
Definition connection_string (sqlServer db password : string) : string :=
  "Server=" +:+ sqlServer +:+ ";Database=" +:+ db
    +:+ ";User ID=helix-database-server;Password=" +:+ password
    +:+ ";Encrypt=true;TrustServerCertificate=false;".

End ConnectionString.

(** ** The other helpers of getAttendance.ts *)

Module AttendanceHelpers.
Import JsDate Js.

Definition attendanceIncludesDay (attendance day : string) : bool :=
  if String.eqb attendance "" then false
  else
    let days := map (fun d => toLowerCase (trim d)) (split "," attendance) in
    includes days (toLowerCase day).

Section NextWorkingDay.
Variable tza : Z.

(** The [while] loop of [getNextWorkingDay], with a bound on the number
    of its iterations: [None] when the bound is reached. *)
Fixpoint skip_weekend (fuel : nat) (nextDay : Z) : option Z :=
  if (getDay tza nextDay =? 0) || (getDay tza nextDay =? 6) then
    match fuel with
    | O => None
    | S fuel' => skip_weekend fuel' (setDate tza nextDay (getDate tza nextDay + 1))
    end
  else Some nextDay.

Definition getNextWorkingDay (fuel : nat) (date : Z) : option Z :=
  let nextDay := date in
  let nextDay := setDate tza nextDay (getDate tza date + 1) in
  nextDay ← skip_weekend fuel nextDay;
  Some (setHours tza nextDay 0 0 0 0).
End NextWorkingDay.

End AttendanceHelpers.

(** ** getAnnualLeave (src/api/src/functions/getAnnualLeave.ts) *)

Module AnnualLeave.
Import JsDate Js.

Record AnnualLeaveRecord : Type := {
  request_id : Z;
  person : string;
  start_date : string;
  end_date : string;
  reason : string;
  status : string;
  days_taken : Q;
  leave_type : option string;
  rejection_notes : option string;
  (** optional properties: [None] when absent; [AOW] may be null *)
  AOW : option (option string);
  approvers : option (list string)
}.

Record Totals : Type := {
  standard : Q;
  unpaid : Q;
  purchase : Q;
  rejected : Q;
  totals_AOW : option (option string)
}.

Record UserDetails : Type := {
  leaveEntries : list AnnualLeaveRecord;
  totals : Totals
}.

(** A row of the [annualLeave] table; a column is [None] when it is NULL. *)
Record LeaveRow : Type := {
  col_request_id : Z;
  col_person : option string;
  col_start_date : Z;
  col_end_date : Z;
  col_reason : option string;
  col_status : option string;
  col_days_taken : option Q;
  col_leave_type : option string;
  col_rejection_notes : option string
}.

(** A row of the [team] table. *)
Record TeamData : Type := {
  col_Initials : option string;
  col_AOW : option string
}.

(** The values of the properties of the response object. *)
Inductive Payload : Type :=
  | PLeave (entries : list AnnualLeaveRecord)
  | PUserDetails (details : UserDetails).

(** The module-level caching variables.  (The four [cached...Error]
    variables are never read or written.) *)
Record Cache : Type := {
  cachedAnnualLeave : option (list AnnualLeaveRecord);
  cachedFutureLeave : option (list AnnualLeaveRecord);
  cachedUserDetails : option UserDetails;
  cachedTeamAowMap : option (gmap string (option string))
}.

(** The caches when the process starts. *)
Definition initial_cache : Cache :=
  {| cachedAnnualLeave := None; cachedFutureLeave := None;
     cachedUserDetails := None; cachedTeamAowMap := None |}.

(** The body of a request: a value already parsed by the host, a stream
    of chunks (reading it may fail), or no body. *)
Inductive RequestBody : Type :=
  | BodyValue (v : JsVal)
  | BodyStream (chunks : Result (list string))
  | BodyAbsent.

(** Accesses to the outside that an invocation makes. *)
Inductive Effect : Type :=
  | KeyVaultGetSecret
  | SqlTeam
  | SqlAnnualLeave
  | SqlFutureLeave
  | SqlUserAnnualLeave.

(** What one invocation finds outside: the Key Vault secret, the clock at
    each of the three [new Date()], and the answers of the databases to
    the queries with their parameters. *)
Record World : Type := {
  getSecret : Result (option string);
  teamRows : Result (list TeamData);
  today_annual : Z;
  annualLeaveRows : Z -> Result (list LeaveRow);
  today_future : Z;
  futureLeaveRows : Z -> Result (list LeaveRow);
  today_user : Z;
  userLeaveRows : JsVal -> Z -> Z -> Result (list LeaveRow)
}.

(** How an invocation ends: the handler returns a response, or its
    promise is rejected with an exception nothing caught. *)
Inductive Outcome : Type :=
  | Returned (response : Http.HttpResponseInit Payload)
  | Rejected (exception : string).

(** Computations of the handler: they read and write the caches, access
    the outside, and resolve or throw.  [Await es k] is an [await]: the
    accesses [es] are started and the computation is suspended until they
    are answered, so that other invocations can run in between; the answers
    are those of the [World] of the invocation, and [k] already holds
    them. *)
Inductive M (A : Type) : Type :=
  | Settle (r : Result A)
  | GetCache (k : Cache -> M A)
  | PutCache (c : Cache) (k : M A)
  | Await (es : list Effect) (k : M A).
Arguments Settle {A} r.
Arguments GetCache {A} k.
Arguments PutCache {A} c k.
Arguments Await {A} es k.

Definition ret {A} (a : A) : M A := Settle (Resolved a).

Fixpoint bind_M {A B} (m : M A) (f : A -> M B) : M B :=
  match m with
  | Settle (Resolved a) => f a
  | Settle (Threw reason) => Settle (Threw reason)
  | GetCache k => GetCache (fun c => bind_M (k c) f)
  | PutCache c k => PutCache c (bind_M k f)
  | Await es k => Await es (bind_M k f)
  end.

Definition get_cache : M Cache := GetCache (fun c => ret c).
Definition put_cache (c' : Cache) : M unit := PutCache c' (ret tt).

(** An access to the outside and its outcome. *)
Definition await {A} (e : Effect) (r : Result A) : M A := Await [e] (Settle r).

(** [try { m } catch (error) { h }]. *)
Fixpoint try_catch {A} (m : M A) (h : string -> M A) : M A :=
  match m with
  | Settle (Resolved a) => Settle (Resolved a)
  | Settle (Threw reason) => h reason
  | GetCache k => GetCache (fun c => try_catch (k c) h)
  | PutCache c k => PutCache c (try_catch k h)
  | Await es k => Await es (try_catch k h)
  end.

(** What a computation starts before it is first suspended, and what it
    does when it is resumed. *)
Definition started {A} (m : M A) : list Effect * M A :=
  match m with
  | Await es k => (es, k)
  | _ => ([], m)
  end.

(** The computation with its outcome as a value. *)
Fixpoint settled {A} (m : M A) : M (Result A) :=
  match m with
  | Settle r => Settle (Resolved r)
  | GetCache k => GetCache (fun c => settled (k c))
  | PutCache c k => PutCache c (settled k)
  | Await es k => Await es (settled k)
  end.

(** [await Promise.all([a, b, c])]: the three computations are all
    started, the caller is suspended once, and the result throws when one
    of them does. *)
Definition all3 {A B C} (a : M A) (b : M B) (c : M C) : M (A * B * C) :=
  let '(ea, ka) := started a in
  let '(eb, kb) := started b in
  let '(ec, kc) := started c in
  Await (ea ++ eb ++ ec)
    (bind_M (settled ka) (fun ra =>
     bind_M (settled kb) (fun rb =>
     bind_M (settled kc) (fun rc =>
     Settle (Promise_all3 ra rb rc))))).

#[global] Instance M_ret : MRet M := @ret.
#[global] Instance M_bind : MBind M := fun A B k m => bind_M m k.

(** A computation run from the caches [c] to its end with nothing else
    running in between: its outcome, the caches afterwards and the
    accesses made. *)
Fixpoint run {A} (m : M A) (c : Cache) : Result A * Cache * list Effect :=
  match m with
  | Settle r => (r, c, [])
  | GetCache k => run (k c) c
  | PutCache c' k => run k c'
  | Await es k => let '(r, c', t) := run k c in (r, c', es ++ t)
  end.

(** A computation run until it ends or is suspended. *)
Inductive Step (A : Type) : Type :=
  | Done (r : Result A)
  | Suspended (k : M A).
Arguments Done {A} r.
Arguments Suspended {A} k.

Fixpoint run_segment {A} (m : M A) (c : Cache) : Step A * Cache * list Effect :=
  match m with
  | Settle r => (Done r, c, [])
  | GetCache k => run_segment (k c) c
  | PutCache c' k => run_segment k c'
  | Await es k => (Suspended k, c, es)
  end.

(** The number of times a computation run from the caches [c] is
    suspended when nothing else runs in between. *)
Fixpoint awaits {A} (m : M A) (c : Cache) : nat :=
  match m with
  | Settle _ => 0%nat
  | GetCache k => awaits (k c) c
  | PutCache c' k => awaits k c'
  | Await _ k => S (awaits k c)
  end.

Section Handler.
Variable tza : Z.
(** [JSON.parse]: [None] when it throws a SyntaxError. *)
Variable JSON_parse : string -> option JsVal.

Definition getRequestBody (req : RequestBody) : Result JsVal :=
  match req with
  | BodyValue (JObj props) =>
      (* an object with a [getReader] that is truthy and no function is
         neither returned nor read *)
      if truthy (obj_get "getReader" props) then Resolved (JObj [])
      else Resolved (JObj props)
  | BodyValue (JArr items) => Resolved (JArr items)
  | BodyValue (JStr s) =>
      match JSON_parse s with
      | Some v => Resolved v
      | None => Threw "Unable to parse request body string as JSON."
      end
  | BodyStream chunks =>
      chunks ← chunks;
      match JSON_parse (String.concat "" chunks) with
      | Some v => Resolved v
      | None => Threw "Unable to parse streamed request body as JSON."
      end
  | BodyValue _ | BodyAbsent => Resolved (JObj [])
  end.

Definition formatDate (date : Z) : string :=
  let year := getFullYear tza date in
  let month := slice_last2 ("0" +:+ pretty (getMonth tza date + 1)) in
  let day := slice_last2 ("0" +:+ pretty (getDate tza date)) in
  pretty year +:+ "-" +:+ month +:+ "-" +:+ day.

(** The record pushed by the "row" handlers of the three leave queries. *)
Definition record_of_row (entry : LeaveRow) : AnnualLeaveRecord :=
  {| request_id := col_request_id entry;
     person := or_empty (col_person entry);
     start_date := formatDate (col_start_date entry);
     end_date := formatDate (col_end_date entry);
     reason := or_empty (col_reason entry);
     status := or_empty (col_status entry);
     days_taken := default 0%Q (col_days_taken entry);
     leave_type := or_null (col_leave_type entry);
     rejection_notes := or_null (col_rejection_notes entry);
     AOW := None;
     approvers := None |}.

(** [teamAowMap.get(k)], with null and undefined both [None]. *)
Definition Map_get (teamAowMap : gmap string (option string)) (k : string)
  : option string :=
  default None (teamAowMap !! k).

Definition Map_get_value (teamAowMap : gmap string (option string)) (k : JsVal)
  : option string :=
  match k with
  | JStr s => Map_get teamAowMap s
  | _ => None
  end.

Definition team_on_row (teamAowMap : gmap string (option string)) (row : TeamData)
  : gmap string (option string) :=
  match or_null (col_Initials row) with
  | Some initials => <[initials := or_null (col_AOW row)]> teamAowMap
  | None => teamAowMap
  end.

Definition queryTeamDataFromSQL (w : World) : M (gmap string (option string)) :=
  rows ← await SqlTeam (teamRows w);
  ret (fold_left team_on_row rows ∅).

Definition determineApprovers (aow : string) : list string :=
  let aowList := map trim (split "," (toLowerCase aow)) in
  let approver := if includes aowList "construction" then "JW" else "AC" in
  ["LZ"; approver]%string.

Definition queryAnnualLeave (w : World) : M (list AnnualLeaveRecord) :=
  let today := today_annual w in
   rows ← await SqlAnnualLeave (annualLeaveRows w today);
   ret (map record_of_row rows).

Definition queryFutureLeave (w : World) : M (list AnnualLeaveRecord) :=
  let today := today_future w in
   rows ← await SqlFutureLeave (futureLeaveRows w today);
   ret (map record_of_row rows).

(** The fiscal year boundaries [(fiscalStart, fiscalEnd)] of
    [queryUserAnnualLeave]. *)
Definition fiscalYear (today : Z) : Z * Z :=
  let currentMonth := getMonth tza today in
  if currentMonth <? 3 then
    (Date_ymd tza (getFullYear tza today - 1) 3 1,
     Date_ymd tza (getFullYear tza today) 2 31)
  else
    (Date_ymd tza (getFullYear tza today) 3 1,
     Date_ymd tza (getFullYear tza today + 1) 2 31).

(** The running totals of the "requestCompleted" handler. *)
Record Running : Type := {
  total_standard : Q;
  total_unpaid : Q;
  total_purchase : Q;
  total_rejected : Q
}.

Definition no_totals : Running :=
  {| total_standard := 0; total_unpaid := 0; total_purchase := 0;
     total_rejected := 0 |}%Q.

(** The body of [leaveEntries.forEach]. *)
Definition count_entry (acc : Running) (entry : AnnualLeaveRecord) : Running :=
  match or_null (leave_type entry) with
  | Some leave_type =>
      let lt := toLowerCase leave_type in
      let acc :=
        if String.eqb lt "standard"
           && String.eqb (toLowerCase (status entry)) "booked"
        then {| total_standard := total_standard acc + days_taken entry;
                total_unpaid := total_unpaid acc;
                total_purchase := total_purchase acc;
                total_rejected := total_rejected acc |}%Q
        else if String.eqb lt "unpaid"
        then {| total_standard := total_standard acc;
                total_unpaid := total_unpaid acc + days_taken entry;
                total_purchase := total_purchase acc;
                total_rejected := total_rejected acc |}%Q
        else if String.eqb lt "purchase"
        then {| total_standard := total_standard acc;
                total_unpaid := total_unpaid acc;
                total_purchase := total_purchase acc + days_taken entry;
                total_rejected := total_rejected acc |}%Q
        else acc in
      if String.eqb (toLowerCase (status entry)) "rejected"
         && bool_decide (is_Some (or_null (rejection_notes entry)))
      then {| total_standard := total_standard acc;
              total_unpaid := total_unpaid acc;
              total_purchase := total_purchase acc;
              total_rejected := total_rejected acc + days_taken entry |}%Q
      else acc
  | None => acc
  end.

Definition calculate_totals (leaveEntries : list AnnualLeaveRecord) : Running :=
  fold_left count_entry leaveEntries no_totals.

Definition queryUserAnnualLeave (initials : JsVal) (w : World) : M UserDetails :=
  let today := today_user w in
  let '(fiscalStart, fiscalEnd) := fiscalYear today in
  rows ← await SqlUserAnnualLeave (userLeaveRows w initials fiscalStart fiscalEnd);
  let leaveEntries := map record_of_row rows in
  let t := calculate_totals leaveEntries in
  c ← get_cache;
  let userAow :=
    match cachedTeamAowMap c with
    | Some m => or_null (Map_get_value m initials)
    | None => None
    end in
  ret {| leaveEntries := leaveEntries;
         totals := {| standard := total_standard t;
                      unpaid := total_unpaid t;
                      purchase := total_purchase t;
                      rejected := total_rejected t;
                      totals_AOW := Some userAow |} |}.

Definition enhanceLeaveWithAOWAndApprover
    (teamAowMap : gmap string (option string))
    (leaveEntries : list AnnualLeaveRecord) : list AnnualLeaveRecord :=
  map (fun entry =>
         {| request_id := request_id entry;
            person := person entry;
            start_date := start_date entry;
            end_date := end_date entry;
            reason := reason entry;
            status := status entry;
            days_taken := days_taken entry;
            leave_type := leave_type entry;
            rejection_notes := rejection_notes entry;
            AOW := Some (or_null (Map_get teamAowMap (person entry)));
            approvers :=
              Some (determineApprovers (or_empty (Map_get teamAowMap (person entry))))
         |}) leaveEntries.

Definition response_ok (annual future : list AnnualLeaveRecord)
    (details : UserDetails) : Http.HttpResponseInit Payload :=
  {| Http.status := 200;
     Http.body := Http.JsonBody [("annual_leave", PLeave annual);
                                 ("future_leave", PLeave future);
                                 ("user_details", PUserDetails details)] |}.

(** The [try] block of the handler. *)
Definition fetch_and_respond (userInitials : JsVal) (w : World)
  : M (Http.HttpResponseInit Payload) :=
  passwordSecret ← await KeyVaultGetSecret (getSecret w);
  let password := or_empty passwordSecret in
  c ← get_cache;
  teamAowMap ←
    (match cachedTeamAowMap c with
     | Some m => ret m
     | None =>
         m ← queryTeamDataFromSQL w;
         c ← get_cache;
         _ ← put_cache {| cachedAnnualLeave := cachedAnnualLeave c;
                          cachedFutureLeave := cachedFutureLeave c;
                          cachedUserDetails := cachedUserDetails c;
                          cachedTeamAowMap := Some m |};
         ret m
     end);
  '(annualLeaveEntries, futureLeaveEntries, userDetails) ←
    all3 (queryAnnualLeave w) (queryFutureLeave w)
         (queryUserAnnualLeave userInitials w);
  let enhancedAnnualLeave :=
    enhanceLeaveWithAOWAndApprover teamAowMap annualLeaveEntries in
  let enhancedFutureLeave :=
    enhanceLeaveWithAOWAndApprover teamAowMap futureLeaveEntries in
  let userAow := or_null (Map_get_value teamAowMap userInitials) in
  let enhancedUserDetails :=
    {| leaveEntries := leaveEntries userDetails;
       totals := {| standard := standard (totals userDetails);
                    unpaid := unpaid (totals userDetails);
                    purchase := purchase (totals userDetails);
                    rejected := rejected (totals userDetails);
                    totals_AOW := Some userAow |} |} in
  c ← get_cache;
  _ ← put_cache {| cachedAnnualLeave := Some enhancedAnnualLeave;
                   cachedFutureLeave := Some enhancedFutureLeave;
                   cachedUserDetails := Some enhancedUserDetails;
                   cachedTeamAowMap := cachedTeamAowMap c |};
  ret (response_ok enhancedAnnualLeave enhancedFutureLeave enhancedUserDetails).

Definition bad_request (text : string) : Http.HttpResponseInit Payload :=
  {| Http.status := 400; Http.body := Http.TextBody text |}.

Definition server_error : Http.HttpResponseInit Payload :=
  {| Http.status := 500;
     Http.body := Http.TextBody "An error occurred while processing your request." |}.

(** The body of [getAnnualLeaveHandler], from the request body and the
    outside.  It throws when the promise of the handler is rejected.
    Reading the body comes before every access to the caches and to the
    outside, so an invocation is taken to start when its body has been
    read. *)
Definition invocation (req : RequestBody) (w : World)
  : M (Http.HttpResponseInit Payload) :=
  match getRequestBody req with
  | Threw _ => ret (bad_request "Invalid request body. Ensure it's valid JSON.")
  | Resolved JNull =>
      (* [body.initials] on null: a TypeError outside of both [try] blocks *)
      Settle (Threw "TypeError: Cannot read properties of null (reading 'initials')")
  | Resolved body =>
      let userInitials := get_prop body "initials" in
      match userInitials with
      | Some initials =>
          if negb (truthy userInitials) then
            ret (bad_request "Missing 'initials' in request body.")
          else if ToString_throws initials then
            (* the template literal of the log line, outside of both [try]
               blocks *)
            Settle (Threw "TypeError: Cannot convert object to primitive value")
          else
            c ← get_cache;
            match cachedAnnualLeave c, cachedFutureLeave c,
                  cachedUserDetails c, cachedTeamAowMap c with
            | Some annual, Some future, Some details, Some _ =>
                ret (response_ok annual future details)
            | _, _, _, _ =>
                try_catch (fetch_and_respond initials w)
                  (fun _ => ret server_error)
            end
      | None => ret (bad_request "Missing 'initials' in request body.")
      end
  end.

Definition outcome_of (r : Result (Http.HttpResponseInit Payload)) : Outcome :=
  match r with
  | Resolved response => Returned response
  | Threw exception => Rejected exception
  end.

(** An invocation during which no other invocation runs: from the caches
    before it, the request body and the outside, the outcome, the caches
    afterwards and the accesses made to the outside. *)
Definition getAnnualLeaveHandler (c : Cache) (req : RequestBody) (w : World)
  : Outcome * Cache * list Effect :=
  let '(r, c', effects) := run (invocation req w) c in
  (outcome_of r, c', effects).

(** ** Invocations that overlap

    The process runs one piece of code at a time, and an invocation gives
    way to the others only where it awaits.  The state of the process is
    made of the caches, the invocations that are suspended, the outcomes
    of those that have ended, in the order in which they ended, and the
    accesses made to the outside.  An event starts an invocation, which
    runs until it ends or is suspended, or resumes a suspended one. *)
Record Pending : Type := {
  pending_request : RequestBody;
  pending_rest : M (Http.HttpResponseInit Payload)
}.

Record Process : Type := {
  caches : Cache;
  in_progress : list Pending;
  ended : list (RequestBody * Outcome);
  accesses : list Effect
}.

Definition process_start : Process :=
  {| caches := initial_cache; in_progress := []; ended := []; accesses := [] |}.

Inductive Event : Type :=
  | Invoke (req : RequestBody) (w : World)
  | Resume (i : nat).

(** The invocation of [req] runs its next piece [m]; [others] are the
    other suspended invocations. *)
Definition advance (p : Process) (others : list Pending) (req : RequestBody)
    (m : M (Http.HttpResponseInit Payload)) : Process :=
  match run_segment m (caches p) with
  | (Done r, c', effects) =>
      {| caches := c'; in_progress := others;
         ended := ended p ++ [(req, outcome_of r)];
         accesses := accesses p ++ effects |}
  | (Suspended k, c', effects) =>
      {| caches := c';
         in_progress := others ++ [{| pending_request := req; pending_rest := k |}];
         ended := ended p;
         accesses := accesses p ++ effects |}
  end.

Definition step (p : Process) (e : Event) : Process :=
  match e with
  | Invoke req w => advance p (in_progress p) req (invocation req w)
  | Resume i =>
      match in_progress p !! i with
      | Some t =>
          advance p (delete i (in_progress p)) (pending_request t) (pending_rest t)
      | None => p
      end
  end.

Definition run_events (p : Process) (events : list Event) : Process :=
  fold_left step events p.

End Handler.

End AnnualLeave.

(** ** OutstandingBalancesList (src/unnamed/part_000) *)

Module Balances.
Import Js.

(** A bill; the three dates are the time values that [new Date(...)]
    gives for them, [None] for an Invalid Date. *)
Record Bill : Type := {
  bill_id : Z;
  number : string;
  total : Q;
  paid : Q;
  due : Q;
  due_at : option Z;
  issued_at : option Z;
  paid_at : option Z
}.

Record OutstandingClientBalance : Type := {
  id : Z;
  (** [contact?.name] *)
  contact_name : option string;
  total_outstanding_balance : Q;
  associated_matter_ids : list Z;
  outstanding_bills : list Bill
}.

(** A matter; [UniqueID] is the number that [Number(matter.UniqueID)]
    gives. *)
Record Matter : Type := {
  UniqueID : Z;
  DisplayNumber : string
}.

(** What is rendered for a bill and for a client. *)
Record BillRow : Type := {
  row_key : Z;
  row_shaded : bool;
  row_number : string;
  row_dueStatus : string;
  row_total : Q;
  row_paid : option Q;
  row_balance : Q;
  row_issued : option Z;
  row_due : option Z
}.

Record Card : Type := {
  card_key : Z;
  card_client : string;
  card_amount : Q;
  card_matters : list Matter;
  card_bills : list BillRow
}.

Inductive Rendered : Type :=
  | RText (text : string)
  | RList (cards : list Card).

(** [x > 0] on numbers. *)
Definition gt0 (x : Q) : bool :=
  match (0 ?= x)%Q with
  | Lt => true
  | _ => false
  end.

Section Render.
(** The time value of [new Date()] when the component renders. *)
Variable today : Z.
Variable matters : list Matter.

Definition computeDueStatus (bill : Bill) : string :=
  match due_at bill with
  | Some dueDate =>
      let diffTime := today - dueDate in
      let diffDays := diffTime / (1000 * 3600 * 24) in
      if 0 <? diffDays then
        pretty diffDays +:+ " day" +:+ (if 1 <? diffDays then "s" else "")
          +:+ " overdue"
      else if diffDays <? 0 then
        "Due in " +:+ pretty (Z.abs diffDays) +:+ " day"
          +:+ (if 1 <? Z.abs diffDays then "s" else "")
      else "Due today"
  | None =>
      (* the difference is NaN: neither comparison holds *)
      "Due today"
  end.

Definition getClientMatters (balance : OutstandingClientBalance) : list Matter :=
  List.filter
    (fun matter => existsb (Z.eqb (UniqueID matter)) (associated_matter_ids balance))
    matters.

Definition render_bill (index : nat) (bill : Bill) : BillRow :=
  {| row_key := bill_id bill;
     row_shaded := negb (Nat.even index);
     row_number := number bill;
     row_dueStatus := computeDueStatus bill;
     row_total := total bill;
     row_paid := if gt0 (paid bill) then Some (paid bill) else None;
     row_balance := due bill;
     row_issued := issued_at bill;
     row_due := due_at bill |}.

Definition render_card (balance : OutstandingClientBalance) : Card :=
  {| card_key := id balance;
     card_client :=
       match or_null (contact_name balance) with
       | Some name => name
       | None => "Unknown Client"
       end;
     card_amount := total_outstanding_balance balance;
     card_matters := getClientMatters balance;
     card_bills := imap render_bill (outstanding_bills balance) |}.

Definition OutstandingBalancesList (balances : list OutstandingClientBalance)
  : Rendered :=
  let filtered :=
    List.filter (fun item => gt0 (total_outstanding_balance item)) balances in
  if (length filtered =? 0)%nat then RText "No outstanding balances found."
  else RList (map render_card filtered).
End Render.

End Balances.

(** ** Home.tsx: the leave records of the client and who approves them *)

Module Home.
Import Js.

(** The client's [AnnualLeaveRecord]. *)
Record LeaveRecord : Type := {
  person : string;
  start_date : string;
  end_date : string;
  reason : string;
  status : string;
  id : string;
  rejection_notes : option string;
  approvers : option (list string)
}.

(** [approvers] defaults to the empty array when the property is absent. *)
Definition ensureLZInApprovers (approvers : option (list string)) : list string :=
  let approvers := default [] approvers in
  if includes approvers "LZ" then approvers else approvers ++ ["LZ"%string].

(** The function mapped over [annual_leave] and [future_leave] of the
    response.  The entries come from getAnnualLeave, whose records have a
    numeric [request_id] and no [id]; [String(n)] of an integer is its
    decimal form. *)
Definition mapLeave (rec : AnnualLeave.AnnualLeaveRecord) : LeaveRecord :=
  {| person := AnnualLeave.person rec;
     start_date := AnnualLeave.start_date rec;
     end_date := AnnualLeave.end_date rec;
     reason := AnnualLeave.reason rec;
     status := AnnualLeave.status rec;
     id := if AnnualLeave.request_id rec =? 0
           then "temp-" +:+ AnnualLeave.start_date rec +:+ "-"
                  +:+ AnnualLeave.end_date rec
           else pretty (AnnualLeave.request_id rec);
     rejection_notes := or_null (AnnualLeave.rejection_notes rec);
     approvers := Some (ensureLZInApprovers (AnnualLeave.approvers rec)) |}.




(** [new Date().toISOString().split('T')[0]] at the time [now]. *)
Definition todayStr (now : Z) : string :=
  nth 0 (split "T" (toISOString now)) EmptyString.

(** Whether a person, given by the initials, has booked leave today. *)
Definition isPersonOutToday (now : Z) (annualLeaveRecords : list LeaveRecord)
    (initials : string) : bool :=
  let todayStr := todayStr now in
  existsb
    (fun leave =>
       if negb (String.eqb (status leave) "booked") then false
       else if negb (String.eqb (toLowerCase (trim (person leave)))
                       (toLowerCase (trim initials))) then false
       else string_ge todayStr (start_date leave)
            && string_le todayStr (end_date leave))
    annualLeaveRecords.

(** The records shown as on leave today. *)
Definition onLeaveToday (now : Z) (annualLeaveRecords : list LeaveRecord)
  : list LeaveRecord :=
  let todayStr := todayStr now in
  List.filter
    (fun leave =>
       if negb (String.eqb (status leave) "booked") then false
       else string_le (start_date leave) todayStr
            && string_ge (end_date leave) todayStr)
    annualLeaveRecords.

End Home.

(** ** Reference definitions, in the words of the specification *)

Module Spec.
Import JsDate Js AnnualLeave.

(** A decimal digit and a number below 100 written with two digits. *)
Definition digit (n : Z) : ascii := ascii_of_N (48 + Z.to_N n).

Definition two_digits (n : Z) : string :=
  String (digit (n / 10)) (String (digit (n mod 10)) EmptyString).

(** A date written dd/mm/yyyy (local time, months counted from 1). *)
Definition dd_mm_yyyy (tza d : Z) : string :=
  two_digits (getDate tza d) +:+ "/" +:+ two_digits (getMonth tza d + 1)
    +:+ "/" +:+ pretty (getFullYear tza d).

(** [t] is 00:00:00.000, local time, of day [d] of month [m] (0..11) of
    year [y]. *)
Definition is_midnight_of (tza t y m d : Z) : Prop :=
  getFullYear tza t = y /\ getMonth tza t = m /\ getDate tza t = d /\
  getHours tza t = 0 /\ getMinutes tza t = 0 /\ getSeconds tza t = 0 /\
  getMilliseconds tza t = 0.

(** The week ranges that [getAttendanceHandler] binds as query
    parameters: previous, current and next week. *)
Definition handler_week_ranges (tza todayDate : Z) : string * string * string :=
  let cs := Attendance.getStartOfWeek tza todayDate in
  let ns := Attendance.getNextWeekStart tza cs in
  let ps := Attendance.getPreviousWeekStart tza cs in
  (Attendance.formatWeekRange tza ps (Attendance.getEndOfWeek tza ps),
   Attendance.formatWeekRange tza cs (Attendance.getEndOfWeek tza cs),
   Attendance.formatWeekRange tza ns (Attendance.getEndOfWeek tza ns)).

(** The rows that the attendance query of an invocation returns. *)
Definition attendance_answer (tza : Z) (w : Attendance.World)
  : Result (list Attendance.AttendanceRow) :=
  let '(prev, cur, next) := handler_week_ranges tza (Attendance.now w) in
  Attendance.attendanceRows w prev cur next.

(** The weeks that a row sets for its person, in the order of the
    assignments: the current week, then the next week, each only when its
    week string is not empty. *)
Definition row_writes (r : Attendance.AttendanceRow)
  : list (string * Attendance.WeeklyAttendance) :=
  (if negb (String.eqb (or_empty (Attendance.col_current_week r)) "")
   then [(or_empty (Attendance.col_current_week r),
          {| Attendance.iso := default 0 (Attendance.col_current_iso r);
             Attendance.attendance :=
               or_empty (Attendance.col_current_attendance r) |})]
   else [])
  ++
  (if negb (String.eqb (or_empty (Attendance.col_next_week r)) "")
   then [(or_empty (Attendance.col_next_week r),
          {| Attendance.iso := default 0 (Attendance.col_next_iso r);
             Attendance.attendance :=
               or_empty (Attendance.col_next_attendance r) |})]
   else []).

(** All the weeks set for the name [n] by the rows, in order. *)
Definition writes_for (n : string) (rows : list Attendance.AttendanceRow)
  : list (string * Attendance.WeeklyAttendance) :=
  flat_map (fun r => if String.eqb (or_empty (Attendance.col_name r)) n
                     then row_writes r else []) rows.

(** The last value set for the week [w], if any. *)
Definition last_write (w : string)
    (writes : list (string * Attendance.WeeklyAttendance))
  : option Attendance.WeeklyAttendance :=
  fold_left (fun acc kv => if String.eqb kv.1 w then Some kv.2 else acc)
    writes None.

(** The entry of a weeks map for the week [w] after the assignments
    [writes]: the last value set for it, and none for [__proto__], which
    is no property. *)
Definition week_entry (w : string)
    (writes : list (string * Attendance.WeeklyAttendance))
  : option Attendance.WeeklyAttendance :=
  if String.eqb w "__proto__" then None else last_write w writes.

(** The weeks map after the assignments [writes]. *)
Definition apply_writes (writes : list (string * Attendance.WeeklyAttendance))
    (weeks : gmap string Attendance.WeeklyAttendance)
  : gmap string Attendance.WeeklyAttendance :=
  fold_left (fun g kv => if String.eqb kv.1 "__proto__" then g
                         else <[kv.1 := kv.2]> g) writes weeks.

(** The entry of the name of the row [r] when the row arrives: the one
    in the map, or else a new one with the level of the row and no week. *)
Definition person_before (m : Obj Attendance.PersonAttendance)
    (r : Attendance.AttendanceRow) : Attendance.PersonAttendance :=
  default {| Attendance.name := or_empty (Attendance.col_name r);
             Attendance.level := or_empty (Attendance.col_Level r);
             Attendance.weeks := ∅ |}
    (obj_get (or_empty (Attendance.col_name r)) m).

(** The handler of the row does not throw: the name is not inherited
    from [Object.prototype], or the row sets no week. *)
Definition row_safe (r : Attendance.AttendanceRow) : bool :=
  negb (inherited (or_empty (Attendance.col_name r)))
  || (String.eqb (or_empty (Attendance.col_current_week r)) ""
      && String.eqb (or_empty (Attendance.col_next_week r)) "").

(** The names of the rows that get an entry: those not inherited from
    [Object.prototype]. *)
Definition entry_names (rows : list Attendance.AttendanceRow) : list string :=
  List.filter (fun n => negb (inherited n))
    (map (fun r => or_empty (Attendance.col_name r)) rows).

(** What the map keyed by name holds after the rows [rows]: one entry
    per name that is not inherited, under its name, with the last value
    set for each week. *)
Definition attendance_map_ok (m : Obj Attendance.PersonAttendance)
    (rows : list Attendance.AttendanceRow) : Prop :=
  NoDup (map fst m) /\
  (forall k p, obj_get k m = Some p ->
     inherited k = false /\ Attendance.name p = k /\
     forall w, Attendance.weeks p !! w = week_entry w (writes_for k rows)) /\
  (forall k, obj_get k m = None -> writes_for k rows = []).

(** A client with a strictly positive outstanding balance. *)
Definition owes (b : Balances.OutstandingClientBalance) : Prop :=
  (0 < Balances.total_outstanding_balance b)%Q.

(** "n day(s)": the number with "day", in the plural above one. *)
Definition n_days (n : Z) : string :=
  pretty n +:+ (if decide (n = 1) then " day" else " days").

(** The AOW of the initials [k] in the team table: that of the last row
    with these initials, null when it is empty or there is no such row. *)
Definition team_aow (k : string) (rows : list TeamData) : option string :=
  default None
    (last (map (fun r => or_null (col_AOW r))
             (List.filter (fun r => String.eqb (or_empty (col_Initials r)) k)
                rows))).

Definition four_digits (n : Z) : string :=
  String (digit (n / 1000))
    (String (digit (n / 100 mod 10))
       (String (digit (n / 10 mod 10)) (String (digit (n mod 10)) EmptyString))).

(** The UTC date of a time written yyyy-mm-dd, the year with four digits. *)
Definition utc_date (t : Z) : string :=
  four_digits (YearFromTime t) +:+ "-" +:+ two_digits (MonthFromTime t + 1)
    +:+ "-" +:+ two_digits (DateFromTime t).

(** The local year of [d] has four digits. *)
Definition four_digit_year (tza d : Z) : bool :=
  (1000 <=? getFullYear tza d) && (getFullYear tza d <=? 9999).

(** A leave row is booked and [now] is, by UTC day, between the local
    days of its start and its end. *)
Definition booked_on (tza now : Z) (entry : LeaveRow) : bool :=
  String.eqb (or_empty (col_status entry)) "booked"
  && (localDay tza (col_start_date entry) <=? Day now)
  && (Day now <=? localDay tza (col_end_date entry)).

(** A date written yyyy-mm-dd (local time, months counted from 1). *)
Definition yyyy_mm_dd (tza d : Z) : string :=
  pretty (getFullYear tza d) +:+ "-" +:+ two_digits (getMonth tza d + 1)
    +:+ "-" +:+ two_digits (getDate tza d).

(** The part of [s] before the first [c]. *)
Fixpoint before (c : ascii) (s : string) : string :=
  match s with
  | EmptyString => EmptyString
  | String x s' => if Ascii.eqb x c then EmptyString else String x (before c s')
  end.

(** The first row of the name [n]. *)
Definition first_row (n : string) (rows : list Attendance.AttendanceRow)
  : option Attendance.AttendanceRow :=
  List.find (fun r => String.eqb (or_empty (Attendance.col_name r)) n) rows.

(** A string without the character [c]. *)
Definition free_of (c : ascii) (s : string) : Prop :=
  ~ In c (list_ascii_of_string s).

(** Case-insensitive comparison with a lower-case word. *)
Definition is_word (s word : string) : bool := String.eqb (toLowerCase s) word.

(** Which totals a leave entry counts towards. *)
Definition counts_as_standard (e : AnnualLeaveRecord) : bool :=
  match leave_type e with
  | Some lt => is_word lt "standard" && is_word (status e) "booked"
  | None => false
  end.

Definition counts_as_unpaid (e : AnnualLeaveRecord) : bool :=
  match leave_type e with
  | Some lt => is_word lt "unpaid"
  | None => false
  end.

Definition counts_as_purchase (e : AnnualLeaveRecord) : bool :=
  match leave_type e with
  | Some lt => is_word lt "purchase"
  | None => false
  end.

Definition counts_as_rejected (e : AnnualLeaveRecord) : bool :=
  match leave_type e, rejection_notes e with
  | Some _, Some _ => is_word (status e) "rejected"
  | _, _ => false
  end.

(** The sum of the days taken of the entries, added up in order. *)
Definition sum_days (l : list AnnualLeaveRecord) : Q :=
  fold_left (fun acc e => acc + days_taken e)%Q l 0%Q.

(** The approver next to LZ, from the list of areas of work: each item of
    the comma-separated list is trimmed and lowercased. *)
Definition aow_items (aow : string) : list string :=
  map (fun item => toLowerCase (trim item)) (split "," aow).

Definition approvers_for (aow : string) : list string :=
  ["LZ"; if includes (aow_items aow) "construction" then "JW" else "AC"]%string.


(** The entries of [l] carry the approvers (and the AOW) of their person
    in the team map [m]; a person without AOW there counts as the empty
    string. *)
Definition enhanced_by (m : gmap string (option string))
    (l : list AnnualLeaveRecord) : Prop :=
  Forall (fun e =>
            approvers e = Some (approvers_for (or_empty (Map_get m (person e)))) /\
            AOW e = Some (or_null (Map_get m (person e)))) l.

(** The leave entries of a response body: those of [annual_leave] and
    [future_leave], and all of them with those of [user_details]. *)
Definition listed_entries (b : Http.Body Payload) : list AnnualLeaveRecord :=
  match b with
  | Http.JsonBody props =>
      flat_map (fun kv => match kv.2 with
                          | PLeave l => l
                          | PUserDetails _ => []
                          end) props
  | Http.TextBody _ => []
  end.

Definition all_entries (b : Http.Body Payload) : list AnnualLeaveRecord :=
  match b with
  | Http.JsonBody props =>
      flat_map (fun kv => match kv.2 with
                          | PLeave l => l
                          | PUserDetails u => leaveEntries u
                          end) props
  | Http.TextBody _ => []
  end.

(** All four caches hold a value. *)
Definition populated (c : Cache) : Prop :=
  is_Some (cachedAnnualLeave c) /\ is_Some (cachedFutureLeave c) /\
  is_Some (cachedUserDetails c) /\ is_Some (cachedTeamAowMap c).

(** The entries carry neither approvers nor AOW. *)
Definition plain (l : list AnnualLeaveRecord) : Prop :=
  Forall (fun e => approvers e = None /\ AOW e = None) l.

(** The invariants of the caches are stated for a set [known] of team
    maps: those that the invocations of a run may build. *)
Section Known.
Variable known : gmap string (option string) -> Prop.

(** The state of the caches at any time: a cached team map is a known
    one; the three leave caches are set together, when there is a team
    map, with lists that carry the approvers of one known team map and
    user details whose entries carry none; or none of them is set. *)
Definition leave_caches_ok (c : Cache) : Prop :=
  (forall m, cachedTeamAowMap c = Some m -> known m) /\
  match cachedAnnualLeave c, cachedFutureLeave c, cachedUserDetails c with
  | Some a, Some f, Some u =>
      is_Some (cachedTeamAowMap c) /\
      exists m, known m /\
                enhanced_by m a /\ enhanced_by m f /\ plain (leaveEntries u)
  | None, None, None => True
  | _, _, _ => False
  end.

(** What the code that runs between two awaits may do to the caches:
    keep them in such a state, and keep a team map once there is one. *)
Definition may_become (c c' : Cache) : Prop :=
  (leave_caches_ok c -> leave_caches_ok c') /\
  (is_Some (cachedTeamAowMap c) -> is_Some (cachedTeamAowMap c')).

(** When an invocation ends with status 200, the caches at that time are
    all set and the response is made of their values. *)
Definition answers_from_caches (r : Result (Http.HttpResponseInit Payload))
    (c : Cache) : Prop :=
  leave_caches_ok c ->
  forall resp, r = Resolved resp -> Http.status resp = 200 ->
  exists a f u m,
    resp = response_ok a f u /\
    cachedAnnualLeave c = Some a /\ cachedFutureLeave c = Some f /\
    cachedUserDetails c = Some u /\ is_Some (cachedTeamAowMap c) /\
    known m /\
    enhanced_by m a /\ enhanced_by m f /\ plain (leaveEntries u).

(** A response with status 200 is made of two lists that carry the
    approvers of one known team map and of user details whose entries
    carry none. *)
Definition served_ok (o : Outcome) : Prop :=
  forall resp, o = Returned resp -> Http.status resp = 200 ->
  exists a f u m,
    resp = response_ok a f u /\
    known m /\
    enhanced_by m a /\ enhanced_by m f /\ plain (leaveEntries u).

(** An invocation with the outside [w] builds a known team map, if it
    builds one. *)
Definition builds (w : World) : Prop :=
  forall rows, teamRows w = Resolved rows ->
               known (fold_left team_on_row rows ∅).

Definition event_builds (e : Event) : Prop :=
  match e with
  | Invoke _ w => builds w
  | Resume _ => True
  end.

End Known.

(** A team map built from the rows of the team table that one of the
    invocations started by the events obtains. *)
Definition built_by (events : list Event) (m : gmap string (option string))
  : Prop :=
  exists req w rows,
    In (Invoke req w) events /\ teamRows w = Resolved rows /\
    m = fold_left team_on_row rows ∅.

(** A computation that, started with the caches [c], changes the caches
    only by steps of [G] and ends in [Q], whatever steps of [G] the other
    invocations make while it is suspended. *)
Section Respects.
Context {A : Type}.
Variable G : Cache -> Cache -> Prop.
Variable Q : Result A -> Cache -> Prop.

Fixpoint respects (m : M A) (c : Cache) : Prop :=
  match m with
  | Settle r => Q r c
  | GetCache k => respects (k c) c
  | PutCache c' k => G c c' /\ respects k c'
  | Await _ k => forall c', G c c' -> respects k c'
  end.
End Respects.

(** Every suspended invocation of the process respects [G] and [Q] from
    the caches as they are or may become. *)
Definition in_progress_respect (G : Cache -> Cache -> Prop)
    (Q : Result (Http.HttpResponseInit Payload) -> Cache -> Prop)
    (p : Process) : Prop :=
  Forall (fun t => forall c', G (caches p) c' -> respects G Q (pending_rest t) c')
    (in_progress p).

(** What holds of the process at any time. *)
Definition process_ok (known : gmap string (option string) -> Prop)
    (p : Process) : Prop :=
  leave_caches_ok known (caches p) /\
  in_progress_respect (may_become known) (answers_from_caches known) p /\
  Forall (fun ro => served_ok known ro.2) (ended p).

(** Any team map at all. *)
Definition any_map (m : gmap string (option string)) : Prop := True.


(** The leave entries of [user_details] in a response body. *)
Definition user_entries (b : Http.Body Payload) : list AnnualLeaveRecord :=
  match b with
  | Http.JsonBody props =>
      flat_map (fun kv => match kv.2 with
                          | PLeave _ => []
                          | PUserDetails u => leaveEntries u
                          end) props
  | Http.TextBody _ => []
  end.

(** Every access that the [try] block makes for the initials [i]
    succeeds. *)
Definition is_resolved {A} (r : Result A) : Prop := exists a, r = Resolved a.

Definition all_resolve (tza : Z) (c : Cache) (i : JsVal) (w : World) : Prop :=
  is_resolved (getSecret w) /\
  (is_Some (cachedTeamAowMap c) \/ is_resolved (teamRows w)) /\
  is_resolved (annualLeaveRows w (today_annual w)) /\
  is_resolved (futureLeaveRows w (today_future w)) /\
  is_resolved (userLeaveRows w i (fiscalYear tza (today_user w)).1
                 (fiscalYear tza (today_user w)).2).

(** The truthy [initials] that the body of a request carries, if any. *)
Definition request_initials (JSON_parse : string -> option JsVal)
    (req : RequestBody) : option JsVal :=
  match getRequestBody JSON_parse req with
  | Resolved body =>
      match get_prop body "initials" with
      | Some initials => if truthy (Some initials) then Some initials else None
      | None => None
      end
  | Threw _ => None
  end.

End Spec.

(** ** Sample data *)

Module Sample.
Import Js AnnualLeave.

(** A [JSON.parse] that knows two texts. *)
Definition parse (s : string) : option JsVal :=
  if String.eqb s "null" then Some JNull
  else if String.eqb s "{}" then Some (JObj [])
  else None.

Definition leave_row (id : Z) (fe : string) (day : Z) (st : string) (days : Q)
    (lt notes : option string) : LeaveRow :=
  {| col_request_id := id; col_person := Some fe;
     col_start_date := day * 86400000; col_end_date := (day + 1) * 86400000;
     col_reason := None; col_status := Some st; col_days_taken := Some days;
     col_leave_type := lt; col_rejection_notes := notes |}.

(** The leave of AB in the fiscal year 2024/25. *)
Definition rows_of_AB : list LeaveRow :=
  [ leave_row 1 "AB" 20000 "booked" 2 (Some "standard") None;
    leave_row 2 "AB" 20010 "Rejected" 1 (Some "Unpaid") (Some "too late");
    leave_row 3 "AB" 20020 "approved" 3 (Some "purchase") None;
    leave_row 4 "AB" 20030 "requested" 5 (Some "standard") None;
    leave_row 5 "AB" 20040 "booked" 4 None None ]%string.

(** An invocation on 5 March 2025 in which every access succeeds. *)
Definition world : World :=
  {| getSecret := Resolved (Some "secret"%string);
     teamRows :=
       Resolved [ {| col_Initials := Some "AB"%string;
                     col_AOW := Some "Commercial, Construction"%string |};
                  {| col_Initials := Some "CD"%string; col_AOW := None |} ];
     today_annual := 1741178096789;
     annualLeaveRows := fun _ =>
       Resolved [leave_row 6 "CD" 20152 "booked" 1 (Some "standard") None];
     today_future := 1741178096789;
     futureLeaveRows := fun _ =>
       Resolved [leave_row 7 "AB" 20200 "booked" 2 (Some "standard") None];
     today_user := 1741178096789;
     userLeaveRows := fun _ _ _ => Resolved rows_of_AB |}.


Definition request_of (initials : string) : RequestBody :=
  BodyValue (JObj [("initials"%string, JStr initials)]).



(** An invocation of getAttendance on 5 March 2025. *)
Definition attendance_rows : list Attendance.AttendanceRow :=
  [ {| Attendance.col_name := Some "Zoe"%string;
       Attendance.col_Level := Some "Partner"%string;
       Attendance.col_current_week := Some "Monday, 03/03/2025 - Sunday, 09/03/2025"%string;
       Attendance.col_current_attendance := Some "Monday,Tuesday"%string;
       Attendance.col_next_week := Some "Monday, 10/03/2025 - Sunday, 16/03/2025"%string;
       Attendance.col_next_attendance := Some "Friday"%string;
       Attendance.col_current_iso := Some 10;
       Attendance.col_next_iso := Some 11 |};
    {| Attendance.col_name := Some "Adam"%string;
       Attendance.col_Level := None;
       Attendance.col_current_week := Some "Monday, 03/03/2025 - Sunday, 09/03/2025"%string;
       Attendance.col_current_attendance := Some "Wednesday"%string;
       Attendance.col_next_week := None;
       Attendance.col_next_attendance := None;
       Attendance.col_current_iso := Some 10;
       Attendance.col_next_iso := None |};
    {| Attendance.col_name := Some "Zoe"%string;
       Attendance.col_Level := Some "Associate"%string;
       Attendance.col_current_week := Some "Monday, 03/03/2025 - Sunday, 09/03/2025"%string;
       Attendance.col_current_attendance := Some "Thursday"%string;
       Attendance.col_next_week := None;
       Attendance.col_next_attendance := None;
       Attendance.col_current_iso := Some 10;
       Attendance.col_next_iso := None |} ].

Definition attendance_world : Attendance.World :=
  {| Attendance.now := 1741178096789;
     Attendance.getSecret := Resolved (Some "secret"%string);
     Attendance.attendanceRows := fun _ _ _ => Resolved attendance_rows;
     Attendance.teamRows :=
       Resolved [ {| Attendance.First := Some "Zoe"%string;
                     Attendance.Initials := Some "ZB"%string;
                     Attendance.Entra_ID := None;
                     Attendance.Nickname := None |} ] |}.

(** A comparison of strings by their lengths, a consistent comparator. *)
Definition compare_lengths (a b : string) : Z :=
  Z.of_nat (String.length a) - Z.of_nat (String.length b).

End Sample.
(** * Properties *)

Module JsDateFacts.
Import JsDate.

(** ** Facts about the calendar functions *)

Ltac zdiv := Z.div_mod_to_equations; lia.

Lemma DayFromYear_succ y : DayFromYear (y + 1) = DayFromYear y + DaysInYear y.
Proof.
  unfold DayFromYear, DaysInYear.
  destruct (Z.eqb_spec (y mod 4) 0), (Z.eqb_spec (y mod 100) 0),
    (Z.eqb_spec (y mod 400) 0); simpl; zdiv.
Qed.

Lemma DaysInYear_range y : DaysInYear y = 365 \/ DaysInYear y = 366.
Proof.
  unfold DaysInYear.
  repeat match goal with |- context [negb ?b] => destruct b; simpl end; auto.
Qed.

Lemma DayFromYear_lt y1 y2 : y1 < y2 -> DayFromYear y1 < DayFromYear y2.
Proof. unfold DayFromYear. zdiv. Qed.

Lemma DayFromYear_le y1 y2 : y1 <= y2 -> DayFromYear y1 <= DayFromYear y2.
Proof. unfold DayFromYear. zdiv. Qed.

Lemma YearFromTime_days t :
  DayFromYear (YearFromTime t) <= Day t < DayFromYear (YearFromTime t + 1).
Proof.
  unfold YearFromTime. cbv zeta.
  set (d := Day t). set (y := 1970 + 400 * d / 146097).
  assert (Hlo : DayFromYear (y - 1) <= d) by (unfold DayFromYear, y; zdiv).
  assert (Hhi : d < DayFromYear (y + 2)) by (unfold DayFromYear, y; zdiv).
  destruct (Z.leb_spec (DayFromYear (y + 1)) d).
  - replace (y + 1 + 1) with (y + 2) by lia. lia.
  - destruct (Z.leb_spec (DayFromYear y) d).
    + lia.
    + replace (y - 1 + 1) with y by lia. lia.
Qed.

(** The year returned is the one the standard specifies. *)
Lemma YearFromTime_spec t :
  TimeFromYear (YearFromTime t) <= t < TimeFromYear (YearFromTime t + 1).
Proof.
  pose proof (YearFromTime_days t) as H. unfold TimeFromYear, Day, msPerDay in *.
  zdiv.
Qed.

Lemma YearFromTime_largest t y : TimeFromYear y <= t -> y <= YearFromTime t.
Proof.
  intros Hy. destruct (Z_le_gt_dec y (YearFromTime t)) as [|Hgt]; [done|].
  pose proof (YearFromTime_spec t) as [_ Hlt].
  pose proof (DayFromYear_le (YearFromTime t + 1) y ltac:(lia)).
  unfold TimeFromYear, msPerDay in *. lia.
Qed.

Lemma YearFromTime_unique t y :
  DayFromYear y <= Day t < DayFromYear (y + 1) -> YearFromTime t = y.
Proof.
  intros [Hlo Hhi]. pose proof (YearFromTime_days t) as [Hlo' Hhi'].
  destruct (Z.lt_trichotomy (YearFromTime t) y) as [Hlt|[->|Hgt]]; [|done|].
  - pose proof (DayFromYear_le (YearFromTime t + 1) y ltac:(lia)). lia.
  - pose proof (DayFromYear_le (y + 1) (YearFromTime t) ltac:(lia)). lia.
Qed.

Lemma InLeapYear_range t : InLeapYear t = 0 \/ InLeapYear t = 1.
Proof. unfold InLeapYear. destruct (_ =? _); auto. Qed.

Lemma DayWithinYear_range t : 0 <= DayWithinYear t < 365 + InLeapYear t.
Proof.
  unfold DayWithinYear, InLeapYear.
  pose proof (YearFromTime_days t) as H.
  rewrite DayFromYear_succ in H.
  destruct (DaysInYear_range (YearFromTime t)) as [E|E]; rewrite E in *;
    simpl; lia.
Qed.

Lemma MonthFromTime_range t : 0 <= MonthFromTime t <= 11.
Proof.
  unfold MonthFromTime. cbv zeta.
  repeat match goal with |- context [?a <? ?b] => destruct (a <? b) end; lia.
Qed.

(** Moving the day of the month moves the day number by as much,
    whatever the month lengths in between. *)
Lemma MakeDay_DateFromTime t k :
  MakeDay (YearFromTime t) (MonthFromTime t) (DateFromTime t + k) = Day t + k.
Proof.
  pose proof (MonthFromTime_range t) as Hm.
  unfold MakeDay. cbv zeta.
  rewrite (Z.div_small (MonthFromTime t) 12), (Z.mod_small (MonthFromTime t) 12)
    by lia.
  rewrite Z.add_0_r. fold (InLeapYear t).
  unfold DateFromTime, MonthFromTime, DayWithinYear in *. cbv zeta in *.
  repeat match goal with
         | |- context [?a <? ?b] => destruct (a <? b)
         end; simpl; lia.
Qed.

Lemma Day_MakeDate d tm : 0 <= tm < msPerDay -> Day (MakeDate d tm) = d.
Proof. unfold Day, MakeDate, msPerDay. intros. zdiv. Qed.

Lemma TimeWithinDay_MakeDate d tm :
  0 <= tm < msPerDay -> TimeWithinDay (MakeDate d tm) = tm.
Proof. unfold TimeWithinDay, MakeDate, msPerDay. intros. zdiv. Qed.

Lemma TimeWithinDay_range t : 0 <= TimeWithinDay t < msPerDay.
Proof. unfold TimeWithinDay, msPerDay. zdiv. Qed.

Lemma Day_TimeWithinDay t : t = MakeDate (Day t) (TimeWithinDay t).
Proof. unfold MakeDate, Day, TimeWithinDay, msPerDay. zdiv. Qed.

Ltac month_cases m :=
  let H := fresh in
  assert (H : m = 0 \/ m = 1 \/ m = 2 \/ m = 3 \/ m = 4 \/ m = 5 \/ m = 6
              \/ m = 7 \/ m = 8 \/ m = 9 \/ m = 10 \/ m = 11) by lia;
  destruct H as [->|[->|[->|[->|[->|[->|[->|[->|[->|[->|[->| ->]]]]]]]]]]].

Ltac ltb_cases :=
  repeat match goal with
         | |- context [?a <? ?b] => destruct (Z.ltb_spec a b)
         end.

Lemma MakeDay_in_year y m d :
  0 <= m <= 11 ->
  MakeDay y m d
  = DayFromYear y + MonthStartDay m (if DaysInYear y =? 366 then 1 else 0) + d - 1.
Proof.
  intros Hm. unfold MakeDay. cbv zeta.
  rewrite (Z.div_small m 12), (Z.mod_small m 12), Z.add_0_r by lia. done.
Qed.

(** [MakeDay] builds the day with the given year, month and day of the
    month, as the standard asks. *)
Lemma MakeDay_civil y m d tm :
  0 <= m <= 11 ->
  1 <= d <= DaysInMonth m (if DaysInYear y =? 366 then 1 else 0) ->
  0 <= tm < msPerDay ->
  let t := MakeDate (MakeDay y m d) tm in
  YearFromTime t = y /\ MonthFromTime t = m /\ DateFromTime t = d /\
  TimeWithinDay t = tm.
Proof.
  intros Hm Hd Htm. cbv zeta.
  assert (Htime : TimeWithinDay (MakeDate (MakeDay y m d) tm) = tm)
    by (by apply TimeWithinDay_MakeDate).
  assert (Hday : Day (MakeDate (MakeDay y m d) tm) = MakeDay y m d)
    by (by apply Day_MakeDate).
  revert Htime Hday. generalize (MakeDate (MakeDay y m d) tm). intros t Htime Hday.
  pose proof (MakeDay_in_year y m d Hm) as Hrel.
  assert (Hy : YearFromTime t = y).
  { apply YearFromTime_unique. rewrite Hday, Hrel, DayFromYear_succ.
    destruct (DaysInYear_range y) as [E|E]; rewrite E in *; simpl in *;
      month_cases m; simpl in *; lia. }
  assert (Hw : DayWithinYear t
               = MonthStartDay m (if DaysInYear y =? 366 then 1 else 0) + d - 1).
  { unfold DayWithinYear. rewrite Hy, Hday, Hrel. lia. }
  assert (Hl : InLeapYear t = if DaysInYear y =? 366 then 1 else 0).
  { unfold InLeapYear. by rewrite Hy. }
  assert (Hmonth : MonthFromTime t = m).
  { unfold MonthFromTime. cbv zeta. rewrite Hw, Hl.
    destruct (DaysInYear y =? 366); month_cases m; simpl in *; ltb_cases; lia. }
  repeat split; [done|done| |done].
  unfold DateFromTime. cbv zeta. rewrite Hmonth, Hw, Hl.
  destruct (DaysInYear y =? 366); month_cases m; simpl; lia.
Qed.

Section LocalZoneFacts.
Variable tza : Z.

Lemma LocalTime_UTC t : LocalTime tza (UTC tza t) = t.
Proof. unfold LocalTime, UTC. lia. Qed.

(** [d.setDate(d.getDate() + k)] moves [d] by [k] whole days. *)
Lemma setDate_getDate t k :
  setDate tza t (getDate tza t + k) = t + k * msPerDay.
Proof.
  unfold setDate, getDate. cbv zeta. rewrite MakeDay_DateFromTime.
  unfold UTC, LocalTime, MakeDate, Day, TimeWithinDay, msPerDay. zdiv.
Qed.

Lemma localDay_setHours t h m s ms :
  0 <= MakeTime h m s ms < msPerDay ->
  localDay tza (setHours tza t h m s ms) = localDay tza t.
Proof.
  intros H. unfold localDay, setHours. cbv zeta.
  rewrite LocalTime_UTC. by apply Day_MakeDate.
Qed.

Lemma TimeWithinDay_setHours t h m s ms :
  0 <= MakeTime h m s ms < msPerDay ->
  TimeWithinDay (LocalTime tza (setHours tza t h m s ms)) = MakeTime h m s ms.
Proof.
  intros H. unfold setHours. cbv zeta.
  rewrite LocalTime_UTC. by apply TimeWithinDay_MakeDate.
Qed.

Lemma localDay_shift t k : localDay tza (t + k * msPerDay) = localDay tza t + k.
Proof. unfold localDay, LocalTime, Day, msPerDay. zdiv. Qed.

(** A date is its local day and its time within that day. *)
Lemma local_decompose t :
  t = localDay tza t * msPerDay + TimeWithinDay (LocalTime tza t) - tza.
Proof. unfold localDay, LocalTime, Day, TimeWithinDay, msPerDay. zdiv. Qed.

(** The clock fields of a date are those of its time within the day. *)
Lemma clock_fields t :
  getHours tza t = TimeWithinDay (LocalTime tza t) / msPerHour /\
  getMinutes tza t = (TimeWithinDay (LocalTime tza t) / msPerMinute) mod 60 /\
  getSeconds tza t = (TimeWithinDay (LocalTime tza t) / msPerSecond) mod 60 /\
  getMilliseconds tza t = TimeWithinDay (LocalTime tza t) mod msPerSecond.
Proof.
  unfold getHours, getMinutes, getSeconds, getMilliseconds, HourFromTime,
    MinFromTime, SecFromTime, msFromTime, TimeWithinDay, msPerHour,
    msPerMinute, msPerSecond, msPerDay.
  generalize (LocalTime tza t). intros l. repeat split; zdiv.
Qed.

End LocalZoneFacts.

End JsDateFacts.

(** ** Week ranges of getAttendance *)

Module AttendanceFacts.
Import JsDate Js Attendance JsDateFacts.

Lemma DateFromTime_range t : 1 <= DateFromTime t <= 31.
Proof.
  pose proof (DayWithinYear_range t) as Hd.
  pose proof (InLeapYear_range t) as Hl.
  unfold DateFromTime, MonthFromTime. cbv zeta.
  repeat match goal with
         | |- context [?a <? ?b] => destruct (Z.ltb_spec a b)
         end; simpl; lia.
Qed.

Lemma pad2_two_digits n : 0 <= n <= 99 -> pad2 n = Spec.two_digits n.
Proof.
  intros Hn.
  assert (Hall : Forall (fun k => pad2 k = Spec.two_digits k) (seqZ 0 100)).
  { apply (bool_decide_unpack _). by vm_compute. }
  rewrite Forall_forall in Hall. apply Hall, elem_of_seqZ. lia.
Qed.

Section Weeks.
Variable tza : Z.

Lemma getStartOfWeek_eq d :
  getStartOfWeek tza d
  = (localDay tza d - (getDay tza d + 6) mod 7) * msPerDay - tza.
Proof.
  unfold getStartOfWeek. cbv zeta. rewrite setDate_getDate.
  unfold setHours, getDay, WeekDay, localDay, UTC, MakeDate, MakeTime,
    LocalTime, Day, msPerDay, msPerHour, msPerMinute, msPerSecond.
  cbv zeta. destruct (Z.eqb_spec (((d + tza) / 86400000 + 4) mod 7) 0); zdiv.
Qed.

Lemma getEndOfWeek_eq start :
  getEndOfWeek tza start
  = (localDay tza start + 6) * msPerDay + (msPerDay - 1) - tza.
Proof.
  unfold getEndOfWeek. cbv zeta. rewrite setDate_getDate.
  unfold setHours, localDay, UTC, MakeDate, MakeTime,
    LocalTime, Day, msPerDay, msPerHour, msPerMinute, msPerSecond.
  cbv zeta. zdiv.
Qed.

Lemma getNextWeekStart_eq start :
  getNextWeekStart tza start = (localDay tza start + 7) * msPerDay - tza.
Proof.
  unfold getNextWeekStart. cbv zeta. rewrite setDate_getDate.
  unfold setHours, localDay, UTC, MakeDate, MakeTime,
    LocalTime, Day, msPerDay, msPerHour, msPerMinute, msPerSecond.
  cbv zeta. zdiv.
Qed.

Lemma toLocaleDateString_numeric_eq d :
  0 < getFullYear tza d ->
  toLocaleDateString_numeric tza d = Spec.dd_mm_yyyy tza d.
Proof.
  intros Hy. unfold toLocaleDateString_numeric, Spec.dd_mm_yyyy.
  pose proof (DateFromTime_range (LocalTime tza d)).
  pose proof (MonthFromTime_range (LocalTime tza d)).
  rewrite !pad2_two_digits by (unfold getMonth, getDate; lia).
  destruct (Z.ltb_spec 0 (getFullYear tza d)); [done|lia].
Qed.

End Weeks.

(** C1: for every date [d], [getStartOfWeek d] is a Monday at
    00:00:00.000 local time; it is not after [d], and its day is less than
    seven calendar days before the day of [d]: it is the day of [d] moved
    back by the number of days since Monday (six for a Sunday). *)
Theorem getStartOfWeek_is_monday (tza d : Z) :
  let start := getStartOfWeek tza d in
  getDay tza start = 1 /\
  (getHours tza start = 0 /\ getMinutes tza start = 0 /\
   getSeconds tza start = 0 /\ getMilliseconds tza start = 0) /\
  start <= d /\
  0 <= localDay tza d - localDay tza start < 7 /\
  localDay tza start = localDay tza d - (getDay tza d + 6) mod 7.
Proof.
  cbv zeta. rewrite (getStartOfWeek_eq tza d).
  unfold getDay, getHours, getMinutes, getSeconds, getMilliseconds, WeekDay,
    HourFromTime, MinFromTime, SecFromTime, msFromTime, localDay, LocalTime,
    Day, msPerDay, msPerHour, msPerMinute, msPerSecond.
  set (l := d + tza). replace d with (l - tza) by (unfold l; lia).
  generalize l. clear l. intros l.
  repeat split; zdiv.
Qed.

(** C7: the week ranges are Monday-to-Sunday spans, in local calendar
    days.  For every date [start]: [getEndOfWeek start] is on the sixth
    day after the day of [start], at 23:59:59.999; [getNextWeekStart
    start] is on the seventh day after it, at 00:00:00.000; the previous
    week start is on the seventh day before it, at the time of day of
    [start].  [formatWeekRange start end_] is "Monday, " followed by
    [start] as dd/mm/yyyy, " - Sunday, " and [end_] as dd/mm/yyyy, for
    dates of the common era (before it the year written is that of the
    era, one minus the year number).  For the current week start [cs] of
    the handler, [cs] and the previous and next week starts are Mondays at
    midnight and the end of each week is a Sunday. *)
Theorem week_ranges_monday_to_sunday (tza start end_ today : Z) :
  (localDay tza (getEndOfWeek tza start) = localDay tza start + 6 /\
   getHours tza (getEndOfWeek tza start) = 23 /\
   getMinutes tza (getEndOfWeek tza start) = 59 /\
   getSeconds tza (getEndOfWeek tza start) = 59 /\
   getMilliseconds tza (getEndOfWeek tza start) = 999) /\
  (localDay tza (getNextWeekStart tza start) = localDay tza start + 7 /\
   getHours tza (getNextWeekStart tza start) = 0 /\
   getMinutes tza (getNextWeekStart tza start) = 0 /\
   getSeconds tza (getNextWeekStart tza start) = 0 /\
   getMilliseconds tza (getNextWeekStart tza start) = 0) /\
  (localDay tza (getPreviousWeekStart tza start) = localDay tza start - 7 /\
   getHours tza (getPreviousWeekStart tza start) = getHours tza start /\
   getMinutes tza (getPreviousWeekStart tza start) = getMinutes tza start /\
   getSeconds tza (getPreviousWeekStart tza start) = getSeconds tza start /\
   getMilliseconds tza (getPreviousWeekStart tza start)
   = getMilliseconds tza start) /\
  (0 < getFullYear tza start -> 0 < getFullYear tza end_ ->
   formatWeekRange tza start end_
   = "Monday, " +:+ Spec.dd_mm_yyyy tza start +:+ " - Sunday, "
       +:+ Spec.dd_mm_yyyy tza end_) /\
  (getFullYear tza start <= 0 ->
   toLocaleDateString_numeric tza start
   = Spec.two_digits (getDate tza start) +:+ "/"
       +:+ Spec.two_digits (getMonth tza start + 1) +:+ "/"
       +:+ pretty (1 - getFullYear tza start)) /\
  (let cs := getStartOfWeek tza today in
   let ps := getPreviousWeekStart tza cs in
   let ns := getNextWeekStart tza cs in
   getDay tza cs = 1 /\ getDay tza ps = 1 /\ getDay tza ns = 1 /\
   getDay tza (getEndOfWeek tza ps) = 0 /\
   getDay tza (getEndOfWeek tza cs) = 0 /\
   getDay tza (getEndOfWeek tza ns) = 0 /\
   getHours tza ps = 0 /\ getMinutes tza ps = 0 /\
   getSeconds tza ps = 0 /\ getMilliseconds tza ps = 0).
Proof.
  assert (Hprev : forall s,
            getPreviousWeekStart tza s = s - 7 * msPerDay).
  { intros s. unfold getPreviousWeekStart.
    replace (getDate tza s - 7) with (getDate tza s + -7) by lia.
    rewrite (setDate_getDate tza s (-7)). lia. }
  split; [|split; [|split; [|split; [|split]]]].
  - rewrite (getEndOfWeek_eq tza start).
    unfold getHours, getMinutes, getSeconds, getMilliseconds,
      HourFromTime, MinFromTime, SecFromTime, msFromTime, localDay, LocalTime,
      Day, msPerDay, msPerHour, msPerMinute, msPerSecond.
    repeat split; zdiv.
  - rewrite (getNextWeekStart_eq tza start).
    unfold getHours, getMinutes, getSeconds, getMilliseconds,
      HourFromTime, MinFromTime, SecFromTime, msFromTime, localDay, LocalTime,
      Day, msPerDay, msPerHour, msPerMinute, msPerSecond.
    repeat split; zdiv.
  - rewrite (Hprev start).
    unfold getHours, getMinutes, getSeconds, getMilliseconds,
      HourFromTime, MinFromTime, SecFromTime, msFromTime, localDay, LocalTime,
      Day, msPerDay, msPerHour, msPerMinute, msPerSecond.
    repeat split; zdiv.
  - intros Hs He. unfold formatWeekRange. cbv zeta.
    by rewrite !toLocaleDateString_numeric_eq.
  - intros Hs. unfold toLocaleDateString_numeric.
    pose proof (DateFromTime_range (LocalTime tza start)).
    pose proof (MonthFromTime_range (LocalTime tza start)).
    rewrite !pad2_two_digits by (unfold getMonth, getDate; lia).
    destruct (Z.ltb_spec 0 (getFullYear tza start)); [lia|done].
  - cbv zeta. rewrite (Hprev (getStartOfWeek tza today)).
    rewrite (getEndOfWeek_eq tza (getStartOfWeek tza today - 7 * msPerDay)),
      (getEndOfWeek_eq tza (getStartOfWeek tza today)),
      (getEndOfWeek_eq tza (getNextWeekStart tza (getStartOfWeek tza today))),
      (getNextWeekStart_eq tza (getStartOfWeek tza today)),
      (getStartOfWeek_eq tza today).
    unfold getDay, getHours, getMinutes, getSeconds, getMilliseconds, WeekDay,
      HourFromTime, MinFromTime, SecFromTime, msFromTime, localDay, LocalTime,
      Day, msPerDay, msPerHour, msPerMinute, msPerSecond.
    set (l := today + tza). generalize l. clear l. intros l.
    repeat split; zdiv.
Qed.

(** The week ranges of an invocation on Wednesday 5 March 2025. *)
Example week_ranges_2025_03_05 :
  let cs := getStartOfWeek 0 1741178096789 in
  formatWeekRange 0 cs (getEndOfWeek 0 cs)
  = "Monday, 03/03/2025 - Sunday, 09/03/2025"%string /\
  formatWeekRange 0 (getNextWeekStart 0 cs) (getEndOfWeek 0 (getNextWeekStart 0 cs))
  = "Monday, 10/03/2025 - Sunday, 16/03/2025"%string /\
  formatWeekRange 0 (getPreviousWeekStart 0 cs)
    (getEndOfWeek 0 (getPreviousWeekStart 0 cs))
  = "Monday, 24/02/2025 - Sunday, 02/03/2025"%string.
Proof. by vm_compute. Qed.

End AttendanceFacts.

(** ** Fiscal years of getAnnualLeave *)

Module FiscalYearFacts.
Import JsDate Js AnnualLeave JsDateFacts.

Lemma MakeFullYear_id y : ~ 0 <= y <= 99 -> MakeFullYear y = y.
Proof.
  unfold MakeFullYear. intros H.
  destruct (Z.leb_spec 0 y), (Z.leb_spec y 99); simpl; lia.
Qed.

(** [new Date(y, m, d)] is midnight of that day, for a year that is not
    a two-digit one and a day of the month that exists. *)
Lemma Date_ymd_civil tza y m d :
  ~ 0 <= y <= 99 -> 0 <= m <= 11 ->
  1 <= d <= DaysInMonth m (if DaysInYear y =? 366 then 1 else 0) ->
  Spec.is_midnight_of tza (Date_ymd tza y m d) y m d /\
  localDay tza (Date_ymd tza y m d) = MakeDay y m d /\
  Date_ymd tza y m d = MakeDay y m d * msPerDay - tza.
Proof.
  intros Hy Hm Hd.
  destruct (MakeDay_civil y m d 0 Hm Hd) as (Ey & Em & Ed & Et);
    [unfold msPerDay; lia|].
  assert (El : LocalTime tza (Date_ymd tza y m d) = MakeDate (MakeDay y m d) 0).
  { unfold Date_ymd. rewrite LocalTime_UTC, MakeFullYear_id by done. done. }
  split; [|split].
  - pose proof (clock_fields tza (Date_ymd tza y m d)) as (Hh & Hmi & Hs & Hms).
    unfold Spec.is_midnight_of, getFullYear, getMonth, getDate.
    rewrite Hh, Hmi, Hs, Hms, El, Et. repeat split; done.
  - unfold localDay. rewrite El. apply Day_MakeDate. unfold msPerDay. lia.
  - unfold Date_ymd, UTC, MakeDate, MakeTime. rewrite MakeFullYear_id by done. lia.
Qed.

Lemma leap_flag_range y :
  (if DaysInYear y =? 366 then 1 else 0) = DaysInYear y - 365.
Proof. destruct (DaysInYear_range y) as [E|E]; by rewrite E. Qed.

(** C2, as amended: for an invocation date in a year after 100, the
    fiscal year boundaries are midnight of 1 April and midnight of 31
    March: of the previous and the current year when the current month is
    January, February or March, of the current and the next year
    otherwise.  The calendar day of the invocation lies between the days
    of the two boundaries, so [fiscalStart <= today] and [today] is less
    than one day after [fiscalEnd]. *)
Theorem fiscal_year_contains_today (tza today : Z) :
  100 < getFullYear tza today ->
  let y := getFullYear tza today in
  let fiscalStart := (fiscalYear tza today).1 in
  let fiscalEnd := (fiscalYear tza today).2 in
  (getMonth tza today < 3 ->
   Spec.is_midnight_of tza fiscalStart (y - 1) 3 1 /\
   Spec.is_midnight_of tza fiscalEnd y 2 31) /\
  (3 <= getMonth tza today ->
   Spec.is_midnight_of tza fiscalStart y 3 1 /\
   Spec.is_midnight_of tza fiscalEnd (y + 1) 2 31) /\
  localDay tza fiscalStart <= localDay tza today <= localDay tza fiscalEnd /\
  fiscalStart <= today < fiscalEnd + msPerDay.
Proof.
  intros Hy. cbv zeta. unfold fiscalYear. cbv zeta.
  set (y := getFullYear tza today) in *.
  assert (Hdays : DayFromYear y <= localDay tza today < DayFromYear (y + 1))
    by apply YearFromTime_days.
  pose proof (DayWithinYear_range (LocalTime tza today)) as Hw.
  assert (Hmonth := eq_refl (getMonth tza today)).
  unfold getMonth at 2, MonthFromTime in Hmonth. cbv zeta in Hmonth.
  unfold InLeapYear, DayWithinYear in Hmonth, Hw.
  fold (getFullYear tza today) in Hmonth, Hw. fold y in Hmonth, Hw.
  fold (localDay tza today) in Hmonth, Hw.
  rewrite leap_flag_range in Hmonth, Hw.
  pose proof (DayFromYear_succ y) as Hs.
  pose proof (DayFromYear_succ (y - 1)) as Hp.
  replace (y - 1 + 1) with y in Hp by lia.
  pose proof (DaysInYear_range y) as Hr.
  pose proof (DaysInYear_range (y - 1)) as Hr1.
  pose proof (DaysInYear_range (y + 1)) as Hr2.
  destruct (Date_ymd_civil tza (y - 1) 3 1) as (A1 & A2 & A3); [lia|lia|simpl; lia|].
  destruct (Date_ymd_civil tza y 2 31) as (B1 & B2 & B3); [lia|lia|simpl; lia|].
  destruct (Date_ymd_civil tza y 3 1) as (C1 & C2 & C3); [lia|lia|simpl; lia|].
  destruct (Date_ymd_civil tza (y + 1) 2 31) as (D1 & D2 & D3); [lia|lia|simpl; lia|].
  pose proof (local_decompose tza today) as Ht.
  pose proof (TimeWithinDay_range (LocalTime tza today)) as Htw.
  rewrite MakeDay_in_year, leap_flag_range in A2, A3, B2, B3, C2, C3, D2, D3 by lia.
  simpl in A2, A3, B2, B3, C2, C3, D2, D3.
  unfold msPerDay in *.
  destruct (Z.ltb_spec (getMonth tza today) 3) as [Hlt|Hge]; simpl.
  - split; [done|]. split; [lia|].
    assert (localDay tza today - DayFromYear y < 90 + (DaysInYear y - 365)).
    { revert Hmonth. ltb_cases; lia. }
    lia.
  - split; [lia|]. split; [done|].
    assert (90 + (DaysInYear y - 365) <= localDay tza today - DayFromYear y).
    { revert Hmonth. ltb_cases; lia. }
    lia.
Qed.

(** On 5 March 2025 the fiscal year runs from 1 April 2024 to 31 March
    2025. *)
Lemma fiscal_year_sample :
  let today := 1741178096789 in
  let fiscalStart := (fiscalYear 0 today).1 in
  let fiscalEnd := (fiscalYear 0 today).2 in
  Spec.is_midnight_of 0 fiscalStart 2024 3 1 /\
  Spec.is_midnight_of 0 fiscalEnd 2025 2 31 /\
  localDay 0 fiscalStart <= localDay 0 today <= localDay 0 fiscalEnd.
Proof.
  cbv zeta.
  pose proof (fiscal_year_contains_today 0 1741178096789 ltac:(by vm_compute))
    as (H1 & _ & H3 & _).
  destruct (H1 ltac:(by vm_compute)) as [Hs He].
  exact (conj Hs (conj He H3)).
Defined.

(** C2 as stated fails on 31 March: at noon of 31 March 2025 the end of
    the fiscal year, midnight of that day, is before the invocation. *)
Lemma fiscal_end_before_noon_of_31_march :
  let today := 1743422400000 in
  let fiscalStart := (fiscalYear 0 today).1 in
  let fiscalEnd := (fiscalYear 0 today).2 in
  (getFullYear 0 today = 2025 /\ getMonth 0 today = 2 /\ getDate 0 today = 31 /\
   getHours 0 today = 12) /\
  fiscalEnd = 1743379200000 /\
  ~ (fiscalStart <= today <= fiscalEnd).
Proof.
  cbv zeta.
  assert (E : fiscalYear 0 1743422400000 = (1711929600000, 1743379200000))
    by (vm_compute; reflexivity).
  rewrite E. cbn [fst snd].
  split; [repeat split; vm_compute; reflexivity|].
  split; [reflexivity|]. lia.
Qed.

End FiscalYearFacts.

(** ** Leave totals of getAnnualLeave *)

Module TotalsFacts.
Import JsDate Js AnnualLeave.

Lemma or_null_idemp x : or_null (or_null x) = or_null x.
Proof.
  destruct x as [s|]; simpl; [|done].
  destruct (String.eqb s "") eqn:E; simpl; [done|by rewrite E].
Qed.

Lemma or_null_nonempty x s : or_null x = Some s -> String.eqb s "" = false.
Proof.
  destruct x as [s'|]; simpl; [|done].
  destruct (String.eqb s' "") eqn:E; [done|]. by intros [= <-].
Qed.

Lemma toLowerCase_empty s : toLowerCase s = ""%string -> s = ""%string.
Proof. by destruct s. Qed.

Section Totals.
Variable tza : Z.

(** One step of the loop, on each running total, for a record built
    from a row. *)
Lemma count_entry_row acc row :
  let e := record_of_row tza row in
  let r := count_entry acc e in
  total_standard r
  = (if Spec.counts_as_standard e then total_standard acc + days_taken e
     else total_standard acc)%Q /\
  total_unpaid r
  = (if Spec.counts_as_unpaid e then total_unpaid acc + days_taken e
     else total_unpaid acc)%Q /\
  total_purchase r
  = (if Spec.counts_as_purchase e then total_purchase acc + days_taken e
     else total_purchase acc)%Q /\
  total_rejected r
  = (if Spec.counts_as_rejected e then total_rejected acc + days_taken e
     else total_rejected acc)%Q.
Proof.
  cbv zeta. unfold count_entry, Spec.counts_as_standard, Spec.counts_as_unpaid,
    Spec.counts_as_purchase, Spec.counts_as_rejected, Spec.is_word.
  cbn [leave_type rejection_notes status days_taken record_of_row].
  rewrite !or_null_idemp.
  destruct (or_null (col_leave_type row)) as [lt|] eqn:Elt; [|done].
  destruct (or_null (col_rejection_notes row)) as [notes|] eqn:En.
  - rewrite bool_decide_eq_true_2 by eauto. rewrite andb_true_r.
    destruct (String.eqb (toLowerCase lt) "standard") eqn:E1;
      [apply String.eqb_eq in E1; rewrite E1|];
      destruct (String.eqb (toLowerCase (or_empty (col_status row))) "booked") eqn:E2;
      try (apply String.eqb_eq in E2; rewrite E2); simpl;
      try (destruct (String.eqb (toLowerCase lt) "unpaid") eqn:E3;
           [apply String.eqb_eq in E3; rewrite E3 in *|]; simpl);
      try (destruct (String.eqb (toLowerCase lt) "purchase") eqn:E4;
           [apply String.eqb_eq in E4; rewrite E4 in *|]; simpl);
      try discriminate;
      destruct (String.eqb (toLowerCase (or_empty (col_status row))) "rejected");
      simpl; done.
  - rewrite bool_decide_eq_false_2 by (by intros [? ?]). rewrite andb_false_r.
    destruct (String.eqb (toLowerCase lt) "standard") eqn:E1;
      [apply String.eqb_eq in E1; rewrite E1|];
      destruct (String.eqb (toLowerCase (or_empty (col_status row))) "booked") eqn:E2;
      simpl;
      try (destruct (String.eqb (toLowerCase lt) "unpaid") eqn:E3;
           [apply String.eqb_eq in E3; rewrite E3 in *|]; simpl);
      try (destruct (String.eqb (toLowerCase lt) "purchase") eqn:E4;
           [apply String.eqb_eq in E4; rewrite E4 in *|]; simpl);
      try discriminate; done.
Qed.

Lemma fold_left_filter {A} (p : A -> bool) (d : A -> Q) (l : list A) (a : Q) :
  fold_left (fun acc e => if p e then acc + d e else acc)%Q l a
  = fold_left (fun acc e => acc + d e)%Q (List.filter p l) a.
Proof.
  revert a. induction l as [|e l IH]; intros a; simpl; [done|].
  destruct (p e); simpl; apply IH.
Qed.

Lemma calculate_totals_fold rows acc :
  let r := fold_left count_entry (map (record_of_row tza) rows) acc in
  total_standard r
  = fold_left (fun a e => if Spec.counts_as_standard e then a + days_taken e else a)%Q
      (map (record_of_row tza) rows) (total_standard acc) /\
  total_unpaid r
  = fold_left (fun a e => if Spec.counts_as_unpaid e then a + days_taken e else a)%Q
      (map (record_of_row tza) rows) (total_unpaid acc) /\
  total_purchase r
  = fold_left (fun a e => if Spec.counts_as_purchase e then a + days_taken e else a)%Q
      (map (record_of_row tza) rows) (total_purchase acc) /\
  total_rejected r
  = fold_left (fun a e => if Spec.counts_as_rejected e then a + days_taken e else a)%Q
      (map (record_of_row tza) rows) (total_rejected acc).
Proof.
  revert acc. induction rows as [|row rows IH]; intros acc; [done|].
  cbn [map fold_left]. cbv zeta in IH.
  destruct (IH (count_entry acc (record_of_row tza row))) as (H1 & H2 & H3 & H4).
  destruct (count_entry_row acc row) as (E1 & E2 & E3 & E4). cbv zeta in *.
  rewrite H1, H2, H3, H4, E1, E2, E3, E4. done.
Qed.

End Totals.

Lemma sum_days_filter (p : AnnualLeaveRecord -> bool) (l : list AnnualLeaveRecord) :
  fold_left (fun a e => if p e then a + days_taken e else a)%Q l 0%Q
  = Spec.sum_days (List.filter p l).
Proof. apply fold_left_filter. Qed.

(** What [queryUserAnnualLeave] does with the answer of the database. *)
Lemma queryUserAnnualLeave_run tza initials w c :
  run (queryUserAnnualLeave tza initials w) c
  = match userLeaveRows w initials (fiscalYear tza (today_user w)).1
            (fiscalYear tza (today_user w)).2 with
    | Resolved rows =>
        let entries := map (record_of_row tza) rows in
        let t := calculate_totals entries in
        (Resolved
           {| leaveEntries := entries;
              totals :=
                {| standard := total_standard t; unpaid := total_unpaid t;
                   purchase := total_purchase t; rejected := total_rejected t;
                   totals_AOW :=
                     Some match cachedTeamAowMap c with
                          | Some m => or_null (Map_get_value m initials)
                          | None => None
                          end |} |},
         c, [SqlUserAnnualLeave])
    | Threw reason => (Threw reason, c, [SqlUserAnnualLeave])
    end.
Proof.
  unfold queryUserAnnualLeave.
  destruct (fiscalYear tza (today_user w)) as [fiscalStart fiscalEnd].
  cbn [fst snd].
  by destruct (userLeaveRows w initials fiscalStart fiscalEnd) as [rows|].
Qed.

(** C8: for the rows that the database answers, [queryUserAnnualLeave]
    resolves with the records of these rows and with their totals:
    [standard] adds up the days of the entries whose leave type is
    "standard" and whose status is "booked" (whatever the case of the
    letters), [unpaid] and [purchase] those of the entries of that leave
    type, whatever their status, and [rejected] those of the entries with
    a leave type whose status is "rejected" and whose rejection notes are
    not null.  An entry whose leave type is null counts towards no total,
    and some entries count towards a type total and towards [rejected]. *)
Theorem user_totals_by_type_and_status
    (tza : Z) (initials : JsVal) (w : World) (c : Cache) (rows : list LeaveRow) :
  userLeaveRows w initials (fiscalYear tza (today_user w)).1
    (fiscalYear tza (today_user w)).2 = Resolved rows ->
  exists details,
    run (queryUserAnnualLeave tza initials w) c
    = (Resolved details, c, [SqlUserAnnualLeave]) /\
    let entries := map (record_of_row tza) rows in
    leaveEntries details = entries /\
    standard (totals details)
    = Spec.sum_days (List.filter Spec.counts_as_standard entries) /\
    unpaid (totals details)
    = Spec.sum_days (List.filter Spec.counts_as_unpaid entries) /\
    purchase (totals details)
    = Spec.sum_days (List.filter Spec.counts_as_purchase entries) /\
    rejected (totals details)
    = Spec.sum_days (List.filter Spec.counts_as_rejected entries) /\
    (forall e, leave_type e = None ->
       Spec.counts_as_standard e = false /\ Spec.counts_as_unpaid e = false /\
       Spec.counts_as_purchase e = false /\ Spec.counts_as_rejected e = false) /\
    (exists row,
       Spec.counts_as_unpaid (record_of_row tza row) = true /\
       Spec.counts_as_rejected (record_of_row tza row) = true).
Proof.
  intros Hrows. rewrite queryUserAnnualLeave_run, Hrows. cbv zeta.
  eexists. split; [reflexivity|]. cbn [leaveEntries totals standard unpaid
    purchase rejected]. unfold calculate_totals.
  destruct (calculate_totals_fold tza rows no_totals) as (H1 & H2 & H3 & H4).
  cbv zeta in *. rewrite H1, H2, H3, H4. cbn [no_totals total_standard
    total_unpaid total_purchase total_rejected].
  rewrite !sum_days_filter.
  repeat split; try done.
  - unfold Spec.counts_as_standard. by rewrite H.
  - unfold Spec.counts_as_unpaid. by rewrite H.
  - unfold Spec.counts_as_purchase. by rewrite H.
  - unfold Spec.counts_as_rejected. by rewrite H.
  - exists (Sample.leave_row 2 "AB" 20010 "Rejected" 1 (Some "Unpaid"%string)
              (Some "too late"%string)).
    by vm_compute.
Qed.

(** The totals of AB in the sample data: 2 standard days booked (the 5
    days requested are not counted), 1 unpaid day that also counts as
    rejected, 3 purchased days; the entry without a leave type counts
    nowhere. *)
Example user_totals_of_AB :
  exists details,
    run (queryUserAnnualLeave 0 (JStr "AB") Sample.world) initial_cache
    = (Resolved details, initial_cache, [SqlUserAnnualLeave]) /\
    leaveEntries details = map (record_of_row 0) Sample.rows_of_AB /\
    (standard (totals details) == 2)%Q /\ (unpaid (totals details) == 1)%Q /\
    (purchase (totals details) == 3)%Q /\ (rejected (totals details) == 1)%Q.
Proof. eexists. split; [by vm_compute|]. repeat split; by vm_compute. Qed.

Lemma user_totals_sample :
  exists details,
    run (queryUserAnnualLeave 0 (JStr "AB") Sample.world) initial_cache
    = (Resolved details, initial_cache, [SqlUserAnnualLeave]) /\
    leaveEntries details = map (record_of_row 0) Sample.rows_of_AB /\
    standard (totals details)
    = Spec.sum_days (List.filter Spec.counts_as_standard
                       (map (record_of_row 0) Sample.rows_of_AB)).
Proof.
  destruct (user_totals_by_type_and_status 0 (JStr "AB") Sample.world
              initial_cache Sample.rows_of_AB eq_refl)
    as (details & E & H0 & H1 & _).
  exists details. exact (conj E (conj H0 H1)).
Defined.

End TotalsFacts.

(** ** Approvers *)

Module ApproverFacts.
Import Js AnnualLeave.

Lemma lower_ascii_comma c :
  Ascii.eqb (lower_ascii c) "," = Ascii.eqb c ",".
Proof.
  by destruct c as [[] [] [] [] [] [] [] []]; vm_compute.
Qed.

Lemma lower_ascii_space c : isWhiteSpace (lower_ascii c) = isWhiteSpace c.
Proof.
  by destruct c as [[] [] [] [] [] [] [] []]; vm_compute.
Qed.

Lemma split_toLowerCase s :
  split "," (toLowerCase s) = map toLowerCase (split "," s).
Proof.
  induction s as [|c s IH]; [done|]. simpl.
  rewrite lower_ascii_comma. destruct (Ascii.eqb c ","); simpl.
  - by rewrite IH.
  - rewrite IH. by destruct (split "," s).
Qed.

Lemma trimStart_toLowerCase s : trimStart (toLowerCase s) = toLowerCase (trimStart s).
Proof.
  induction s as [|c s IH]; [done|]. simpl.
  rewrite lower_ascii_space. by destruct (isWhiteSpace c).
Qed.

Lemma trimEnd_toLowerCase s : trimEnd (toLowerCase s) = toLowerCase (trimEnd s).
Proof.
  induction s as [|c s IH]; [done|]. simpl.
  rewrite IH, lower_ascii_space.
  destruct (trimEnd s); simpl; [|done]. by destruct (isWhiteSpace c).
Qed.

Lemma trim_toLowerCase s : trim (toLowerCase s) = toLowerCase (trim s).
Proof. unfold trim. by rewrite trimStart_toLowerCase, trimEnd_toLowerCase. Qed.

(** Lowercasing the whole string and then splitting and trimming, as the
    code does, gives the items trimmed and lowercased one by one. *)
Lemma aowList_items aow :
  map trim (split "," (toLowerCase aow)) = Spec.aow_items aow.
Proof.
  unfold Spec.aow_items. rewrite split_toLowerCase, map_map.
  apply map_ext. intros item. apply trim_toLowerCase.
Qed.

Lemma determineApprovers_spec aow : determineApprovers aow = Spec.approvers_for aow.
Proof. unfold determineApprovers, Spec.approvers_for. by rewrite aowList_items. Qed.

Lemma enhanceLeave_enhanced m l :
  Spec.enhanced_by m (enhanceLeaveWithAOWAndApprover m l).
Proof.
  unfold Spec.enhanced_by, enhanceLeaveWithAOWAndApprover.
  apply Forall_forall. intros e [e0 [-> _]]%list_elem_of_fmap. simpl.
  by rewrite determineApprovers_spec.
Qed.

Example approvers_examples :
  determineApprovers "Commercial, Construction" = ["LZ"; "JW"]%string /\
  determineApprovers " CONSTRUCTION " = ["LZ"; "JW"]%string /\
  determineApprovers "Reconstruction" = ["LZ"; "AC"]%string /\
  determineApprovers "" = ["LZ"; "AC"]%string.
Proof. by vm_compute. Qed.

End ApproverFacts.

(** * The handler of getAnnualLeave and its caches *)

Module HandlerFacts.
Import Js AnnualLeave ApproverFacts.

Ltac unfold_M :=
  unfold mbind, M_bind, mret, M_ret, await, get_cache, put_cache,
    all3, started, Promise_all3, bind, ret in *.

Lemma run_bind {A B} (m : M A) (f : A -> M B) c :
  run (bind_M m f) c
  = match run m c with
    | (Resolved a, c1, t1) =>
        let '(r, c2, t2) := run (f a) c1 in (r, c2, t1 ++ t2)
    | (Threw reason, c1, t1) => (Threw reason, c1, t1)
    end.
Proof.
  revert c. induction m as [[a|reason]|k IH|c' k IH|es k IH]; intros c; simpl.
  - by destruct (run (f a) c) as [[r c2] t2].
  - done.
  - apply IH.
  - apply IH.
  - rewrite IH. destruct (run k c) as [[[a|reason] c1] t1]; [|done].
    destruct (run (f a) c1) as [[r c2] t2]. by rewrite app_assoc.
Qed.

Lemma run_try_catch {A} (m : M A) (h : string -> M A) c :
  run (try_catch m h) c
  = match run m c with
    | (Resolved a, c1, t1) => (Resolved a, c1, t1)
    | (Threw reason, c1, t1) =>
        let '(r, c2, t2) := run (h reason) c1 in (r, c2, t1 ++ t2)
    end.
Proof.
  revert c. induction m as [[a|reason]|k IH|c' k IH|es k IH]; intros c; simpl.
  - done.
  - by destruct (run (h reason) c) as [[r c2] t2].
  - apply IH.
  - apply IH.
  - rewrite IH. destruct (run k c) as [[[a|reason] c1] t1]; [done|].
    destruct (run (h reason) c1) as [[r c2] t2]. by rewrite app_assoc.
Qed.

Lemma plain_records tza rows : Spec.plain (map (record_of_row tza) rows).
Proof. unfold Spec.plain. apply Forall_forall. by intros e [row [-> _]]%list_elem_of_fmap. Qed.

Section Handler.
Variable tza : Z.
Variable JSON_parse : string -> option JsVal.

(** The [try] block resolves with the response it has just cached, or
    throws and leaves the leave caches as they were. *)
Lemma fetch_and_respond_run initials w c :
  match run (fetch_and_respond tza initials w) c with
  | (Resolved resp, c', effects) =>
      exists m a f u,
        resp = response_ok a f u /\
        c' = {| cachedAnnualLeave := Some a; cachedFutureLeave := Some f;
                cachedUserDetails := Some u; cachedTeamAowMap := Some m |} /\
        Spec.enhanced_by m a /\ Spec.enhanced_by m f /\
        Spec.plain (leaveEntries u) /\
        (cachedTeamAowMap c = None \/ cachedTeamAowMap c = Some m) /\
        In KeyVaultGetSecret effects
  | (Threw _, c', effects) =>
      cachedAnnualLeave c' = cachedAnnualLeave c /\
      cachedFutureLeave c' = cachedFutureLeave c /\
      cachedUserDetails c' = cachedUserDetails c /\
      (cachedTeamAowMap c' = cachedTeamAowMap c \/ cachedTeamAowMap c = None) /\
      In KeyVaultGetSecret effects
  end.
Proof.
  unfold fetch_and_respond, queryTeamDataFromSQL, queryAnnualLeave,
    queryFutureLeave, queryUserAnnualLeave.
  unfold_M.
  destruct (getSecret w) as [secret|]; [|repeat split; simpl; by auto].
  destruct (fiscalYear tza (today_user w)) as [fiscalStart fiscalEnd].
  cbn [run bind_M].
  destruct (cachedTeamAowMap c) as [m|] eqn:Em;
    [|destruct (teamRows w) as [team|];
      [|simpl; rewrite ?Em; repeat split; simpl; by auto]];
    destruct (annualLeaveRows w (today_annual w)) as [annual|];
    destruct (futureLeaveRows w (today_future w)) as [future|];
    destruct (userLeaveRows w initials fiscalStart fiscalEnd) as [user|];
    simpl; rewrite ?Em; simpl; rewrite ?Em;
    try (repeat split; simpl; by auto 10);
    eexists _, _, _, _; (split; [reflexivity|]); (split; [reflexivity|]);
    repeat split; simpl; auto 10 using enhanceLeave_enhanced, plain_records.
Qed.

(** A request that carries truthy initials which a template literal can
    write is answered from the caches when all four are set, and by the
    [try] block otherwise. *)
Lemma handler_with_initials c req w i :
  Spec.request_initials JSON_parse req = Some i ->
  ToString_throws i = false ->
  getAnnualLeaveHandler tza JSON_parse c req w
  = match cachedAnnualLeave c, cachedFutureLeave c,
          cachedUserDetails c, cachedTeamAowMap c with
    | Some annual, Some future, Some details, Some _ =>
        (Returned (response_ok annual future details), c, [])
    | _, _, _, _ =>
        match run (fetch_and_respond tza i w) c with
        | (Resolved response, c', effects) => (Returned response, c', effects)
        | (Threw _, c', effects) => (Returned server_error, c', effects)
        end
    end.
Proof.
  unfold Spec.request_initials, getAnnualLeaveHandler, invocation.
  destruct (getRequestBody JSON_parse req) as [b|]; [|done].
  destruct b; cbn [get_prop]; try done.
  destruct (obj_get "initials" props) as [v|]; [|done].
  destruct (truthy (Some v)); [|done]. intros [= ->] ->.
  cbn [negb]. unfold_M. cbn [run bind_M]. unfold ret. cbn [run bind_M].
  assert (Hfetch :
    (let '(r, c', effects) :=
       run (try_catch (fetch_and_respond tza i w)
              (fun _ => Settle (Resolved server_error))) c in
     (outcome_of r, c', effects))
    = match run (fetch_and_respond tza i w) c with
      | (Resolved response, c', effects) => (Returned response, c', effects)
      | (Threw _, c', effects) => (Returned server_error, c', effects)
      end).
  { rewrite run_try_catch.
    destruct (run (fetch_and_respond tza i w) c) as [[[r|] c1] e1]; [done|].
    simpl. by rewrite app_nil_r. }
  destruct (cachedAnnualLeave c), (cachedFutureLeave c), (cachedUserDetails c),
    (cachedTeamAowMap c); first [exact Hfetch | done].
Qed.

(** Truthy initials that a template literal cannot write: the log line
    throws outside of both [try] blocks. *)
Lemma handler_unconvertible c req w i :
  Spec.request_initials JSON_parse req = Some i ->
  ToString_throws i = true ->
  getAnnualLeaveHandler tza JSON_parse c req w
  = (Rejected "TypeError: Cannot convert object to primitive value", c, []).
Proof.
  unfold Spec.request_initials, getAnnualLeaveHandler, invocation.
  destruct (getRequestBody JSON_parse req) as [b|]; [|done].
  destruct b; cbn [get_prop]; try done.
  destruct (obj_get "initials" props) as [v|]; [|done].
  destruct (truthy (Some v)); [|done]. by intros [= ->] ->.
Qed.

(** Any other request is refused with status 400 and changes nothing,
    unless its body is the JSON text [null]. *)
Lemma handler_without_initials c req w :
  Spec.request_initials JSON_parse req = None ->
  match getRequestBody JSON_parse req with
  | Threw _ =>
      getAnnualLeaveHandler tza JSON_parse c req w
      = (Returned (bad_request "Invalid request body. Ensure it's valid JSON."),
         c, [])
  | Resolved JNull =>
      exists exception,
        getAnnualLeaveHandler tza JSON_parse c req w = (Rejected exception, c, [])
  | Resolved _ =>
      getAnnualLeaveHandler tza JSON_parse c req w
      = (Returned (bad_request "Missing 'initials' in request body."), c, [])
  end.
Proof.
  unfold Spec.request_initials, getAnnualLeaveHandler, invocation.
  destruct (getRequestBody JSON_parse req) as [b|]; [|done].
  destruct b; cbn [get_prop]; try done; [by eexists|].
  destruct (obj_get "initials" props) as [v|]; [|done].
  by destruct (truthy (Some v)).
Qed.

(** An invocation without another one in between either ends without
    touching anything or is one of the two cases above. *)
Lemma handler_cases c req w :
  (exists o, getAnnualLeaveHandler tza JSON_parse c req w = (o, c, []) /\
             forall resp, o = Returned resp -> Http.status resp = 400) \/
  (exists i, Spec.request_initials JSON_parse req = Some i /\
             ToString_throws i = false).
Proof.
  destruct (Spec.request_initials JSON_parse req) as [i|] eqn:Ei.
  - destruct (ToString_throws i) eqn:Et; [|right; by exists i].
    left. eexists. split; [by apply handler_unconvertible with (i := i)|done].
  - left. pose proof (handler_without_initials c req w Ei) as H.
    destruct (getRequestBody JSON_parse req) as [b|];
      [destruct b; [destruct H as [ex H]|..]|];
      eexists; (split; [exact H|]); by intros resp [= <-].
Qed.

(** No invocation empties a cache, and one that finds all four set leaves
    them as they are. *)
Lemma handler_keeps_populated c req w :
  Spec.populated c -> (getAnnualLeaveHandler tza JSON_parse c req w).1.2 = c.
Proof.
  intros ([a Ha] & [f Hf] & [u Hu] & [m Hm]).
  destruct (handler_cases c req w) as [(o & -> & _)|(i & Ei & Et)]; [done|].
  by rewrite (handler_with_initials _ _ _ _ Ei Et), Ha, Hf, Hu, Hm.
Qed.

(** A response with status 200 is the object made of the three cached
    values, and all four caches are set afterwards. *)
Lemma handler_ok_response c req w resp c' effects :
  getAnnualLeaveHandler tza JSON_parse c req w = (Returned resp, c', effects) ->
  Http.status resp = 200 ->
  exists a f u m,
    resp = response_ok a f u /\
    c' = {| cachedAnnualLeave := Some a; cachedFutureLeave := Some f;
            cachedUserDetails := Some u; cachedTeamAowMap := Some m |}.
Proof.
  intros H Hs.
  destruct (handler_cases c req w) as [(o & E & H400)|(i & Ei & Et)].
  - rewrite E in H. injection H as -> <- <-.
    specialize (H400 resp eq_refl). congruence.
  - rewrite (handler_with_initials _ _ _ _ Ei Et) in H.
    pose proof (fetch_and_respond_run i w c) as Hrun.
    destruct c as [ca cf cu cm]; cbn [cachedAnnualLeave cachedFutureLeave
      cachedUserDetails cachedTeamAowMap] in *.
    destruct ca as [a0|], cf as [f0|], cu as [u0|], cm as [m0|];
      first
        [ injection H as <- <- <-; by exists a0, f0, u0, m0
        | destruct (run (fetch_and_respond tza i w) _) as [[[r|] c1] e1];
          simplify_eq; try discriminate Hs;
          destruct Hrun as (m & a & f & u & -> & -> & _);
          by exists a, f, u, m ].
Qed.

(** When every access succeeds the [try] block resolves. *)
Lemma fetch_and_respond_resolves i w c :
  Spec.all_resolve tza c i w ->
  exists resp c' effects,
    run (fetch_and_respond tza i w) c = (Resolved resp, c', effects).
Proof.
  intros ([s Hs] & Hteam & [a Ha] & [f Hf] & Hu).
  unfold fetch_and_respond, queryTeamDataFromSQL, queryAnnualLeave,
    queryFutureLeave, queryUserAnnualLeave.
  unfold_M. rewrite Hs, Ha, Hf.
  destruct (fiscalYear tza (today_user w)) as [fiscalStart fiscalEnd].
  destruct Hu as [u Hu]. simpl in Hu. rewrite Hu. cbn [run bind_M].
  destruct (cachedTeamAowMap c) as [m|] eqn:Em.
  - simpl. rewrite ?Em. by eexists _, _, _.
  - destruct Hteam as [[m Hm]|[team Hteam]]; [done|].
    rewrite Hteam. simpl. by eexists _, _, _.
Qed.

Lemma handler_succeeds c req w i :
  Spec.request_initials JSON_parse req = Some i ->
  ToString_throws i = false ->
  Spec.all_resolve tza c i w ->
  exists resp c' effects,
    getAnnualLeaveHandler tza JSON_parse c req w = (Returned resp, c', effects) /\
    Http.status resp = 200.
Proof.
  intros Ei Et Hall. rewrite (handler_with_initials _ _ _ _ Ei Et).
  destruct (fetch_and_respond_resolves i w c Hall) as (resp & c' & effects & E).
  pose proof (fetch_and_respond_run i w c) as Hrun. rewrite E in *.
  destruct Hrun as (m & a & f & u & -> & _).
  destruct (cachedAnnualLeave c), (cachedFutureLeave c), (cachedUserDetails c),
    (cachedTeamAowMap c); by eexists _, _, _.
Qed.

End Handler.

(** ** Invocations that overlap *)

Section Sound.
Variable G : Cache -> Cache -> Prop.
Variable Q : Result (Http.HttpResponseInit Payload) -> Cache -> Prop.
Hypothesis G_refl : forall c, G c c.
Hypothesis G_trans : forall c1 c2 c3, G c1 c2 -> G c2 c3 -> G c1 c3.

Lemma respects_segment m c :
  Spec.respects G Q m c ->
  match run_segment m c with
  | (Done r, c', _) => G c c' /\ Q r c'
  | (Suspended k, c', _) =>
      G c c' /\ forall c'', G c' c'' -> Spec.respects G Q k c''
  end.
Proof.
  revert c. induction m as [r|k IH|c1 k IH|es k IH]; intros c; simpl.
  - by split.
  - apply IH.
  - intros [H1 H2]. specialize (IH c1 H2).
    destruct (run_segment k c1) as [[[r|k'] c'] es]; destruct IH as [H3 H4];
      split; eauto.
  - by split.
Qed.

(** One piece of an invocation keeps what the suspended invocations rely
    on, and an invocation that ends does so in [Q]. *)
Lemma advance_sound p others req m :
  (forall c', G (caches p) c' -> Spec.respects G Q m c') ->
  Forall (fun t => forall c', G (caches p) c' ->
                     Spec.respects G Q (pending_rest t) c') others ->
  let p' := advance p others req m in
  G (caches p) (caches p') /\
  Spec.in_progress_respect G Q p' /\
  (ended p' = ended p \/
   exists r, ended p' = ended p ++ [(req, outcome_of r)] /\ Q r (caches p')).
Proof.
  intros Hm Hothers. cbv zeta. unfold advance.
  pose proof (respects_segment m (caches p) (Hm _ (G_refl _))) as Hseg.
  destruct (run_segment m (caches p)) as [[[r|k] c'] es];
    destruct Hseg as [HG Hk]; unfold Spec.in_progress_respect; simpl.
  - split; [done|]. split; [|right; by exists r].
    eapply Forall_impl; [exact Hothers|]. intros t Ht c'' Hc''. eauto.
  - split; [done|]. split; [|by left].
    apply Forall_app. split.
    + eapply Forall_impl; [exact Hothers|]. intros t Ht c'' Hc''. eauto.
    + by repeat constructor.
Qed.

Variable I : Cache -> Prop.
Hypothesis G_inv : forall c c', G c c' -> I c -> I c'.

Lemma step_sound tza JSON_parse p e :
  (forall req w, e = Invoke req w ->
     forall c, I c -> Spec.respects G Q (invocation tza JSON_parse req w) c) ->
  I (caches p) ->
  Spec.in_progress_respect G Q p ->
  let p' := step tza JSON_parse p e in
  G (caches p) (caches p') /\
  Spec.in_progress_respect G Q p' /\
  (ended p' = ended p \/
   exists req r, ended p' = ended p ++ [(req, outcome_of r)] /\ Q r (caches p')).
Proof.
  intros He Hc Hp. cbv zeta. destruct e as [req w|i]; simpl.
  - destruct (advance_sound p (in_progress p) req
                (invocation tza JSON_parse req w)) as (H1 & H2 & H3);
      [intros c' Hc'; apply (He req w eq_refl), (G_inv _ _ Hc' Hc)|exact Hp|].
    split; [done|]. split; [done|].
    destruct H3 as [H3|[r H3]]; [by left|right; by exists req, r].
  - destruct (in_progress p !! i) as [t|] eqn:Et; [|by auto].
    destruct (advance_sound p (delete i (in_progress p)) (pending_request t)
                (pending_rest t)) as (H1 & H2 & H3).
    + pose proof Hp as Hp'. unfold Spec.in_progress_respect in Hp'.
      rewrite Forall_forall in Hp'. apply Hp'.
      by apply list_elem_of_lookup_2 with (i := i).
    + by apply Forall_delete.
    + split; [done|]. split; [done|].
      destruct H3 as [H3|[r H3]]; [by left|right; by exists (pending_request t), r].
Qed.

End Sound.

Section Known.
Variable known : gmap string (option string) -> Prop.

Lemma may_become_refl c : Spec.may_become known c c.
Proof. by split. Qed.

Lemma may_become_trans c1 c2 c3 :
  Spec.may_become known c1 c2 -> Spec.may_become known c2 c3 ->
  Spec.may_become known c1 c3.
Proof. intros [H1 H2] [H3 H4]. split; auto. Qed.

Lemma may_become_ok c c' :
  Spec.may_become known c c' -> Spec.leave_caches_ok known c ->
  Spec.leave_caches_ok known c'.
Proof. intros [H _]. exact H. Qed.

(** A response other than 200, and a rejection, say nothing of the
    caches. *)
Lemma answers_server_error c :
  Spec.answers_from_caches known (Resolved server_error) c.
Proof. intros _ resp [= <-] Hs. discriminate Hs. Qed.

Lemma answers_bad_request text c :
  Spec.answers_from_caches known (Resolved (bad_request text)) c.
Proof. intros _ resp [= <-] Hs. discriminate Hs. Qed.

Lemma answers_threw reason c : Spec.answers_from_caches known (Threw reason) c.
Proof. by intros _ resp. Qed.

(** Setting the team map. *)
Lemma may_become_team c m :
  known m ->
  Spec.may_become known c
    {| cachedAnnualLeave := cachedAnnualLeave c;
       cachedFutureLeave := cachedFutureLeave c;
       cachedUserDetails := cachedUserDetails c;
       cachedTeamAowMap := Some m |}.
Proof.
  intros Hm. split; [|by eexists]. unfold Spec.leave_caches_ok. simpl.
  intros [_ H]. split; [by intros m' [= <-]|].
  destruct (cachedAnnualLeave c), (cachedFutureLeave c), (cachedUserDetails c);
    try done.
  destruct H as [_ H]. split; [by eexists|done].
Qed.

(** Setting the three leave caches, where there is a team map. *)
Lemma may_become_leave c m a f u :
  is_Some (cachedTeamAowMap c) -> known m ->
  Spec.enhanced_by m a -> Spec.enhanced_by m f -> Spec.plain (leaveEntries u) ->
  let c' := {| cachedAnnualLeave := Some a; cachedFutureLeave := Some f;
               cachedUserDetails := Some u;
               cachedTeamAowMap := cachedTeamAowMap c |} in
  Spec.may_become known c c' /\
  Spec.answers_from_caches known (Resolved (response_ok a f u)) c'.
Proof.
  intros Hm Hk Ha Hf Hu. cbv zeta. split; [split; [|done]|].
  - intros [Hc _]. unfold Spec.leave_caches_ok. simpl.
    split; [exact Hc|]. split; [done|]. by exists m.
  - intros _ resp [= <-] _. exists a, f, u, m. by repeat split.
Qed.

Section Invocation.
Variable tza : Z.
Variable JSON_parse : string -> option JsVal.

(** The [try] block with its [catch]. *)
Lemma fetch_respects i w c :
  Spec.builds known w -> Spec.leave_caches_ok known c ->
  Spec.respects (Spec.may_become known) (Spec.answers_from_caches known)
    (try_catch (fetch_and_respond tza i w) (fun _ => ret server_error)) c.
Proof.
  intros Hw Hc.
  unfold fetch_and_respond, queryTeamDataFromSQL, queryAnnualLeave,
    queryFutureLeave, queryUserAnnualLeave.
  unfold_M.
  destruct (fiscalYear tza (today_user w)) as [fiscalStart fiscalEnd].
  destruct (getSecret w) as [secret|];
    [|intros c1 _; apply answers_server_error].
  cbn [Spec.respects try_catch bind_M].
  intros c1 H1. pose proof (may_become_ok _ _ H1 Hc) as Hc1.
  destruct (cachedTeamAowMap c1) as [m|] eqn:Em.
  - assert (Hm : known m) by (by apply (proj1 Hc1)).
    destruct (annualLeaveRows w (today_annual w)) as [annual|];
      destruct (futureLeaveRows w (today_future w)) as [future|];
      destruct (userLeaveRows w i fiscalStart fiscalEnd) as [user|];
      cbn [Spec.respects try_catch bind_M settled Promise_all3 bind app];
      intros c3 [_ H3]; try apply answers_server_error.
    cbn [leaveEntries totals standard unpaid purchase rejected].
    apply (may_become_leave c3 m);
      [apply H3; by rewrite Em|done|apply enhanceLeave_enhanced..
      |apply plain_records].
  - destruct (teamRows w) as [team|] eqn:Et;
      cbn [Spec.respects try_catch bind_M];
      [|intros c2 _; apply answers_server_error].
    assert (Hm : known (fold_left team_on_row team ∅)) by (by apply Hw).
    intros c2 H2. split; [by apply may_become_team|].
    destruct (annualLeaveRows w (today_annual w)) as [annual|];
      destruct (futureLeaveRows w (today_future w)) as [future|];
      destruct (userLeaveRows w i fiscalStart fiscalEnd) as [user|];
      cbn [Spec.respects try_catch bind_M settled Promise_all3 bind app];
      intros c3 [_ H3]; try apply answers_server_error.
    cbn [leaveEntries totals standard unpaid purchase rejected].
    apply (may_become_leave c3 (fold_left team_on_row team ∅));
      [apply H3; by eexists|done|apply enhanceLeave_enhanced..
      |apply plain_records].
Qed.

Lemma invocation_respects req w c :
  Spec.builds known w -> Spec.leave_caches_ok known c ->
  Spec.respects (Spec.may_become known) (Spec.answers_from_caches known)
    (invocation tza JSON_parse req w) c.
Proof.
  intros Hw Hc. unfold invocation.
  destruct (getRequestBody JSON_parse req) as [body|];
    [|apply answers_bad_request].
  destruct body; cbn [get_prop];
    try apply answers_bad_request; try apply answers_threw.
  destruct (obj_get "initials" props) as [v|]; [|apply answers_bad_request].
  destruct (truthy (Some v)); [|apply answers_bad_request].
  cbn [negb]. destruct (ToString_throws v); [apply answers_threw|].
  unfold_M. cbn [Spec.respects bind_M].
  destruct (cachedAnnualLeave c) as [a|] eqn:Ea; [|by apply fetch_respects].
  destruct (cachedFutureLeave c) as [f|] eqn:Ef; [|by apply fetch_respects].
  destruct (cachedUserDetails c) as [u|] eqn:Eu; [|by apply fetch_respects].
  destruct (cachedTeamAowMap c) as [m|] eqn:Em; [|by apply fetch_respects].
  intros Hok resp [= <-] _. unfold Spec.leave_caches_ok in Hok.
  rewrite Ea, Ef, Eu in Hok.
  destruct Hok as [_ [Hm (m' & Hk & H1 & H2 & H3)]].
  exists a, f, u, m'. by repeat split.
Qed.

End Invocation.

Section Process.
Variable tza : Z.
Variable JSON_parse : string -> option JsVal.

Lemma process_start_ok : Spec.process_ok known process_start.
Proof. split; [by split|]. split; constructor. Qed.

Lemma step_ok p e :
  Spec.event_builds known e ->
  Spec.process_ok known p ->
  let p' := step tza JSON_parse p e in
  Spec.process_ok known p' /\
  Spec.may_become known (caches p) (caches p') /\
  (ended p' = ended p \/
   exists req r,
     ended p' = ended p ++ [(req, outcome_of r)] /\
     Spec.answers_from_caches known r (caches p')).
Proof.
  intros Hev (Hc & Hp & He). cbv zeta.
  destruct (step_sound (Spec.may_become known) (Spec.answers_from_caches known)
              may_become_refl may_become_trans (Spec.leave_caches_ok known)
              may_become_ok tza JSON_parse p e) as (HG & Hp' & Hended);
    [|done|done|].
  { intros req w -> c Hok. by apply invocation_respects. }
  pose proof (may_become_ok _ _ HG Hc) as Hc'.
  split; [|by split]. split; [done|]. split; [done|].
  destruct Hended as [->|(req & r & -> & Hr)]; [done|].
  apply Forall_app. split; [done|]. repeat constructor. cbn [snd].
  intros resp Hresp Hs. destruct r as [resp'|]; [|done].
  injection Hresp as ->.
  destruct (Hr Hc' resp eq_refl Hs)
    as (a & f & u & m & -> & _ & _ & _ & _ & H).
  by exists a, f, u, m.
Qed.

Lemma run_events_ok p events :
  Forall (Spec.event_builds known) events ->
  Spec.process_ok known p ->
  Spec.process_ok known (run_events tza JSON_parse p events) /\
  Spec.may_become known (caches p) (caches (run_events tza JSON_parse p events)).
Proof.
  revert p. induction events as [|e events IH]; intros p Hev Hp.
  { split; [done|apply may_become_refl]. }
  apply Forall_cons in Hev as [He Hev].
  destruct (step_ok p e He Hp) as (Hp1 & HG1 & _).
  destruct (IH (step tza JSON_parse p e) Hev Hp1) as [Hp2 HG2].
  split; [done|]. by apply may_become_trans with (c2 := caches (step tza JSON_parse p e)).
Qed.



End Process.

End Known.

(** Every event builds some team map. *)
Lemma event_builds_any e : Spec.event_builds Spec.any_map e.
Proof. destruct e as [req w|i]; [by intros rows _|done]. Qed.

Lemma events_build_any events : Forall (Spec.event_builds Spec.any_map) events.
Proof. apply Forall_forall. intros e _. apply event_builds_any. Qed.

(** Every event of a run builds a team map of the run. *)
Lemma events_build_built events :
  Forall (Spec.event_builds (Spec.built_by events)) events.
Proof.
  apply Forall_forall. intros [req w|i] Hin%list_elem_of_In; [|done].
  intros rows Hrows. by exists req, w, rows.
Qed.

(** An invocation that is resumed each time before anything else runs
    ends as [run] says: [getAnnualLeaveHandler] is such an invocation. *)
Lemma advance_alone tza JSON_parse req m : forall p,
  run_events tza JSON_parse (advance p [] req m)
    (repeat (Resume 0) (awaits m (caches p)))
  = let '(r, c', effects) := run m (caches p) in
    {| caches := c'; in_progress := [];
       ended := ended p ++ [(req, outcome_of r)];
       accesses := accesses p ++ effects |}.
Proof.
  induction m as [r|k IH|c1 k IH|es k IH]; intros p.
  - unfold advance. simpl. done.
  - apply (IH (caches p) p).
  - apply (IH {| caches := c1; in_progress := in_progress p;
                 ended := ended p; accesses := accesses p |}).
  - unfold advance at 1. cbn [run_segment awaits repeat run_events fold_left].
    cbn [app step in_progress lookup]. simpl.
    specialize (IH {| caches := caches p;
                      in_progress := [{| pending_request := req;
                                         pending_rest := k |}];
                      ended := ended p; accesses := accesses p ++ es |}).
    unfold run_events in IH. cbn [caches ended accesses] in IH.
    rewrite IH. destruct (run k (caches p)) as [[r c'] t].
    by rewrite <- app_assoc.
Qed.

Lemma invocation_alone tza JSON_parse p req w :
  in_progress p = [] ->
  run_events tza JSON_parse p
    (Invoke req w
     :: repeat (Resume 0) (awaits (invocation tza JSON_parse req w) (caches p)))
  = let '(o, c', effects) :=
      getAnnualLeaveHandler tza JSON_parse (caches p) req w in
    {| caches := c'; in_progress := []; ended := ended p ++ [(req, o)];
       accesses := accesses p ++ effects |}.
Proof.
  intros Hp. unfold run_events. cbn [fold_left step]. rewrite Hp.
  pose proof (advance_alone tza JSON_parse req
                (invocation tza JSON_parse req w) p) as H.
  unfold run_events in H. rewrite H. unfold getAnnualLeaveHandler.
  by destruct (run (invocation tza JSON_parse req w) (caches p)) as [[r c'] t].
Qed.




End HandlerFacts.
(** ** Objects used as dictionaries, and sorting *)

Module ObjFacts.
Import Js.

Section Obj.
Context {V : Type}.
Implicit Types (o : Obj V) (k : string) (v : V).

Lemma obj_get_set k k' v o :
  obj_get k (obj_set k' v o) = if String.eqb k' k then Some v else obj_get k o.
Proof.
  induction o as [|[k0 v0] o IH]; simpl.
  - by destruct (String.eqb k' k).
  - destruct (String.eqb k0 k') eqn:E0; simpl.
    + apply String.eqb_eq in E0 as ->. by destruct (String.eqb k' k).
    + rewrite IH. destruct (String.eqb k0 k) eqn:E1; [|done].
      apply String.eqb_eq in E1 as ->. rewrite String.eqb_sym in E0.
      by rewrite E0.
Qed.

Lemma obj_get_alter (f : V -> V) k k' o :
  obj_get k (obj_alter f k' o)
  = if String.eqb k' k then f <$> obj_get k o else obj_get k o.
Proof.
  induction o as [|[k0 v0] o IH]; simpl.
  - by destruct (String.eqb k' k).
  - destruct (String.eqb k0 k') eqn:E0; simpl.
    + apply String.eqb_eq in E0 as ->. by destruct (String.eqb k' k).
    + rewrite IH. destruct (String.eqb k0 k) eqn:E1; [|done].
      apply String.eqb_eq in E1 as ->. rewrite String.eqb_sym in E0.
      by rewrite E0.
Qed.

Lemma obj_keys_alter (f : V -> V) k o : map fst (obj_alter f k o) = map fst o.
Proof.
  induction o as [|[k0 v0] o IH]; simpl; [done|].
  destruct (String.eqb k0 k); simpl; by rewrite ?IH.
Qed.

(** Setting a property that is absent adds its key last. *)
Lemma obj_keys_set_new k v o :
  obj_get k o = None -> map fst (obj_set k v o) = map fst o ++ [k].
Proof.
  induction o as [|[k0 v0] o IH]; simpl; [done|].
  destruct (String.eqb k0 k); [done|]. intros H. simpl. by rewrite IH.
Qed.

Lemma obj_get_None_keys k o : obj_get k o = None -> ~ In k (map fst o).
Proof.
  induction o as [|[k0 v0] o IH]; simpl; [tauto|].
  destruct (String.eqb k0 k) eqn:E; [done|].
  intros H [->|Hin]; [by rewrite String.eqb_refl in E|by apply IH].
Qed.

Lemma obj_get_In k v o : NoDup (map fst o) -> In (k, v) o -> obj_get k o = Some v.
Proof.
  induction o as [|[k0 v0] o IH]; simpl; [done|].
  intros [Hk0 Hnd]%NoDup_cons [[= -> ->]|Hin].
  - by rewrite String.eqb_refl.
  - destruct (String.eqb k0 k) eqn:E; [|by apply IH].
    apply String.eqb_eq in E as ->. exfalso. apply Hk0.
    apply list_elem_of_In, in_map_iff. by exists (k, v).
Qed.

Lemma obj_get_keys k o : is_Some (obj_get k o) <-> In k (map fst o).
Proof.
  induction o as [|[k0 v0] o IH]; simpl; [split; [by intros [? ?]|done]|].
  destruct (String.eqb k0 k) eqn:E.
  - apply String.eqb_eq in E as ->. split; [by left|by eexists].
  - rewrite IH. split; [by right|]. intros [->|H]; [|done].
    by rewrite String.eqb_refl in E.
Qed.

Lemma index_insert_perm i (kv : string * V) l :
  index_insert i kv l ≡ₚ (i, kv) :: l.
Proof.
  induction l as [|[j kv'] l IH]; simpl; [done|].
  destruct (i <? j)%N; [done|]. rewrite IH. apply Permutation_swap.
Qed.

Lemma indexed_named_perm o : indexed o ++ named o ≡ₚ o.
Proof.
  unfold indexed, named. induction o as [|kv o IH]; simpl; [done|].
  destruct (array_index kv.1) as [i|] eqn:E.
  - rewrite bool_decide_eq_false_2 by done.
    rewrite index_insert_perm. simpl. by rewrite IH.
  - rewrite bool_decide_eq_true_2 by done.
    rewrite <- Permutation_middle. by rewrite IH.
Qed.

(** [Object.values] lists the value of every own property once. *)
Lemma Object_values_perm o : Object_values o ≡ₚ map snd o.
Proof. unfold Object_values. by rewrite indexed_named_perm. Qed.

End Obj.

Section Sorting.
Context {A : Type} (compareFn : A -> A -> Z).

Lemma sort_insert_perm x l : sort_insert compareFn x l ≡ₚ x :: l.
Proof.
  induction l as [|y l IH]; simpl; [done|].
  destruct (compareFn x y <=? 0); [done|]. rewrite IH. apply Permutation_swap.
Qed.

(** Sorting keeps the elements, each as many times as it occurs. *)
Lemma Array_sort_perm l : Array_sort compareFn l ≡ₚ l.
Proof.
  induction l as [|x l IH]; simpl; [done|].
  unfold Array_sort in *. simpl. by rewrite sort_insert_perm, IH.
Qed.

Hypothesis total : forall a b, compareFn a b <= 0 \/ compareFn b a <= 0.
Hypothesis trans :
  forall a b c, compareFn a b <= 0 -> compareFn b c <= 0 -> compareFn a c <= 0.

Lemma sort_insert_sorted x l :
  StronglySorted (fun a b => compareFn a b <= 0) l ->
  StronglySorted (fun a b => compareFn a b <= 0) (sort_insert compareFn x l).
Proof.
  induction l as [|y l IH]; simpl; intros Hs.
  - by repeat constructor.
  - apply StronglySorted_inv in Hs as [Hl Hy].
    destruct (Z.leb_spec (compareFn x y) 0) as [Hxy|Hxy].
    + constructor; [by constructor|]. constructor; [done|].
      eapply Forall_impl; [exact Hy|]. intros z Hz. by eapply trans.
    + constructor; [by apply IH|].
      rewrite sort_insert_perm. constructor; [|done].
      destruct (total x y); [lia|done].
Qed.

(** For a consistent comparator the sorted array is in ascending order:
    no element compares greater than a later one. *)
Lemma Array_sort_sorted l :
  StronglySorted (fun a b => compareFn a b <= 0) (Array_sort compareFn l).
Proof.
  induction l as [|x l IH]; simpl; [constructor|].
  by apply sort_insert_sorted.
Qed.

End Sorting.

End ObjFacts.

(** ** The list built by queryAttendance *)

Module QueryAttendanceFacts.
Import Js Attendance ObjFacts.

Lemma last_write_app w l1 l2 :
  Spec.last_write w (l1 ++ l2)
  = match Spec.last_write w l2 with
    | Some x => Some x
    | None => Spec.last_write w l1
    end.
Proof.
  unfold Spec.last_write. rewrite fold_left_app.
  generalize (fold_left (fun acc kv => if String.eqb kv.1 w then Some kv.2 else acc)
                l1 None).
  induction l2 as [|[k v] l2 IH] using rev_ind; intros acc; simpl; [done|].
  rewrite !fold_left_app. simpl. destruct (String.eqb k w); [done|]. apply IH.
Qed.

Lemma last_write_Some w l x : Spec.last_write w l = Some x -> In (w, x) l.
Proof.
  induction l as [|[k v] l IH] using rev_ind; [done|].
  rewrite last_write_app. unfold Spec.last_write at 1. simpl.
  destruct (String.eqb k w) eqn:E.
  - apply String.eqb_eq in E as ->. intros [= ->]. apply in_app_iff. right. by left.
  - intros H. apply in_app_iff. left. by apply IH.
Qed.

Lemma week_entry_app w l1 l2 :
  Spec.week_entry w (l1 ++ l2)
  = match Spec.week_entry w l2 with
    | Some x => Some x
    | None => Spec.week_entry w l1
    end.
Proof.
  unfold Spec.week_entry. destruct (String.eqb w "__proto__"); [done|].
  apply last_write_app.
Qed.

Lemma apply_writes_lookup writes g w :
  g !! "__proto__"%string = None ->
  Spec.apply_writes writes g !! w
  = match Spec.week_entry w writes with
    | Some x => Some x
    | None => g !! w
    end.
Proof.
  intros Hg. induction writes as [|[k v] writes IH] using rev_ind.
  { unfold Spec.week_entry. by destruct (String.eqb w "__proto__"). }
  unfold Spec.apply_writes in *. rewrite fold_left_app, week_entry_app. simpl.
  unfold Spec.week_entry at 1. unfold Spec.last_write. simpl.
  destruct (String.eqb k "__proto__") eqn:Ek.
  - apply String.eqb_eq in Ek as ->.
    destruct (String.eqb w "__proto__") eqn:Ew; [apply IH|].
    rewrite String.eqb_sym, Ew. apply IH.
  - destruct (String.eqb w "__proto__") eqn:Ew.
    + apply String.eqb_eq in Ew as ->.
      rewrite lookup_insert_ne; [apply IH|].
      intros ->. by rewrite String.eqb_refl in Ek.
    + destruct (String.eqb k w) eqn:E.
      * apply String.eqb_eq in E as ->. by rewrite lookup_insert_eq.
      * rewrite lookup_insert_ne; [apply IH|].
        intros ->. by rewrite String.eqb_refl in E.
Qed.

Lemma week_entry_proto writes : Spec.week_entry "__proto__" writes = None.
Proof. done. Qed.

Lemma writes_for_app k rows1 rows2 :
  Spec.writes_for k (rows1 ++ rows2)
  = Spec.writes_for k rows1 ++ Spec.writes_for k rows2.
Proof. unfold Spec.writes_for. apply flat_map_app. Qed.

Lemma row_safe_writes r :
  Spec.row_safe r = false ->
  inherited (or_empty (col_name r)) = true /\ Spec.row_writes r <> [].
Proof.
  unfold Spec.row_safe, Spec.row_writes.
  destruct (inherited (or_empty (col_name r))); [|done]. simpl.
  destruct (String.eqb (or_empty (col_current_week r)) "");
    destruct (String.eqb (or_empty (col_next_week r)) ""); done.
Qed.

Lemma row_safe_inherited r :
  Spec.row_safe r = true -> inherited (or_empty (col_name r)) = true ->
  Spec.row_writes r = [].
Proof.
  unfold Spec.row_safe, Spec.row_writes. intros H Hi. rewrite Hi in H. simpl in H.
  apply andb_true_iff in H as [-> ->]. done.
Qed.

(** The handler of a row with a name inherited from [Object.prototype],
    on a map without a property of this name, changes nothing when the
    row sets no week, and throws otherwise. *)
Lemma on_row_inherited m r :
  inherited (or_empty (col_name r)) = true ->
  obj_get (or_empty (col_name r)) m = None ->
  on_row m r = if Spec.row_safe r then Resolved m
               else Threw "TypeError: Cannot set properties of undefined".
Proof.
  intros Hi Hn. unfold on_row, Spec.row_safe, assign_week. cbv zeta.
  rewrite Hn, Hi. simpl.
  destruct (String.eqb (or_empty (col_current_week r)) "");
    destruct (String.eqb (or_empty (col_next_week r)) ""); simpl;
    rewrite ?Hn; done.
Qed.

(** With any other name the handler changes the entry of the name only:
    it creates it when it is missing, with the level of the row, and
    sets the weeks of the row. *)
Lemma on_row_named m r :
  inherited (or_empty (col_name r)) = false ->
  exists m',
    on_row m r = Resolved m' /\
    (forall k,
       obj_get k m'
       = if String.eqb (or_empty (col_name r)) k
         then Some {| name := name (Spec.person_before m r);
                      level := level (Spec.person_before m r);
                      weeks := Spec.apply_writes (Spec.row_writes r)
                                 (weeks (Spec.person_before m r)) |}
         else obj_get k m) /\
    map fst m'
    = map fst m ++ match obj_get (or_empty (col_name r)) m with
                   | Some _ => []
                   | None => [or_empty (col_name r)]
                   end.
Proof.
  intros Hi.
  unfold on_row, Spec.person_before, Spec.row_writes, Spec.apply_writes,
    assign_week. cbv zeta. rewrite Hi.
  set (n := or_empty (col_name r)).
  destruct (obj_get n m) as [p|] eqn:En;
    destruct (String.eqb (or_empty (col_current_week r)) "") eqn:Ec;
    destruct (String.eqb (or_empty (col_next_week r)) "") eqn:Ex; simpl;
    rewrite ?obj_get_alter, ?obj_get_set, ?String.eqb_refl, ?En; simpl;
    rewrite ?obj_get_alter, ?obj_get_set, ?String.eqb_refl, ?En; simpl;
    (eexists; split; [reflexivity|]; split;
     [intros k; rewrite ?obj_get_alter, ?obj_get_set, ?obj_get_alter, ?obj_get_set;
      destruct (String.eqb n k) eqn:E; try done;
      apply String.eqb_eq in E as <-; rewrite ?En; simpl; unfold set_week;
      repeat (match goal with
              | |- context [String.eqb ?a "__proto__"] =>
                  destruct (String.eqb a "__proto__")
              end); simpl; try done; by destruct p
     |rewrite ?obj_keys_alter; rewrite ?app_nil_r; try done;
      by apply obj_keys_set_new]).
Qed.

Lemma on_row_ok m rows r m' :
  Spec.attendance_map_ok m rows ->
  on_row m r = Resolved m' ->
  Spec.row_safe r = true /\ Spec.attendance_map_ok m' (rows ++ [r]).
Proof.
  intros (Hnd & Hget & Hnone) Hrow.
  assert (Hw : forall k, Spec.writes_for k (rows ++ [r])
                 = Spec.writes_for k rows
                   ++ (if String.eqb (or_empty (col_name r)) k
                       then Spec.row_writes r else [])).
  { intros k. rewrite writes_for_app. unfold Spec.writes_for at 2. simpl.
    by rewrite app_nil_r. }
  destruct (inherited (or_empty (col_name r))) eqn:Hi.
  - assert (Hn : obj_get (or_empty (col_name r)) m = None).
    { destruct (obj_get (or_empty (col_name r)) m) as [p|] eqn:En; [|done].
      destruct (Hget _ _ En) as [Hf _]. congruence. }
    rewrite (on_row_inherited _ _ Hi Hn) in Hrow.
    destruct (Spec.row_safe r) eqn:Hs; [|done]. injection Hrow as <-.
    pose proof (row_safe_inherited _ Hs Hi) as Hrw.
    split; [done|]. split; [done|]. split.
    + intros k p Hp. destruct (Hget _ _ Hp) as (H1 & H2 & H3).
      split; [done|]. split; [done|]. intros w. rewrite Hw, Hrw.
      destruct (String.eqb (or_empty (col_name r)) k); by rewrite app_nil_r.
    + intros k Hk. rewrite Hw, Hrw, (Hnone _ Hk).
      by destruct (String.eqb (or_empty (col_name r)) k).
  - destruct (on_row_named m r Hi) as (m1 & E1 & Hg1 & Hk1).
    rewrite E1 in Hrow. injection Hrow as <-.
    split; [unfold Spec.row_safe; by rewrite Hi|]. split; [|split].
    + rewrite Hk1.
      destruct (obj_get (or_empty (col_name r)) m) eqn:En;
        [by rewrite app_nil_r|].
      apply NoDup_app. split; [done|]. split; [|apply NoDup_singleton].
      intros k Hk ->%list_elem_of_singleton.
      by apply (obj_get_None_keys _ _ En), list_elem_of_In.
    + intros k p. rewrite Hg1, Hw.
      destruct (String.eqb (or_empty (col_name r)) k) eqn:E.
      * apply String.eqb_eq in E as <-. intros [= <-]. simpl.
        unfold Spec.person_before.
        destruct (obj_get (or_empty (col_name r)) m) as [p0|] eqn:En; simpl.
        -- destruct (Hget _ _ En) as (Hf & Hn & Hwk).
           split; [done|]. split; [done|]. intros w.
           rewrite apply_writes_lookup, week_entry_app, Hwk; [done|].
           by rewrite Hwk.
        -- split; [done|]. split; [done|]. intros w.
           rewrite apply_writes_lookup, week_entry_app, (Hnone _ En) by done.
           rewrite lookup_empty. unfold Spec.week_entry.
           destruct (String.eqb w "__proto__"); [done|].
           by destruct (Spec.last_write w (Spec.row_writes r)).
      * intros Hp. destruct (Hget _ _ Hp) as (Hf & Hn & Hwk).
        split; [done|]. split; [done|]. intros w. by rewrite app_nil_r.
    + intros k. rewrite Hg1, Hw.
      destruct (String.eqb (or_empty (col_name r)) k); [done|].
      intros Hk. by rewrite (Hnone _ Hk).
Qed.

Lemma on_rows_app rows r m :
  on_rows (rows ++ [r]) m = (m' ← on_rows rows m; on_row m' r).
Proof. unfold on_rows. by rewrite fold_left_app. Qed.

(** The rows are handled until the first one whose handler throws. *)
Lemma on_rows_cases rows :
  if forallb Spec.row_safe rows
  then exists m, on_rows rows [] = Resolved m /\ Spec.attendance_map_ok m rows
  else on_rows rows [] = Threw "TypeError: Cannot set properties of undefined".
Proof.
  induction rows as [|r rows IH] using rev_ind.
  { simpl. exists []. split; [done|]. repeat split; [constructor|done..]. }
  rewrite forallb_app, on_rows_app. simpl. rewrite andb_true_r.
  destruct (forallb Spec.row_safe rows); simpl; [|by rewrite IH].
  destruct IH as (m & -> & Hok). simpl.
  destruct (Spec.row_safe r) eqn:Hs.
  - destruct (inherited (or_empty (col_name r))) eqn:Hi.
    + assert (Hn : obj_get (or_empty (col_name r)) m = None).
      { destruct (obj_get (or_empty (col_name r)) m) as [p|] eqn:En; [|done].
        destruct Hok as (_ & Hget & _). destruct (Hget _ _ En) as [Hf _].
        congruence. }
      pose proof (on_row_inherited _ _ Hi Hn) as E. rewrite Hs in E.
      exists m. split; [done|]. by apply (on_row_ok m rows r m Hok E).
    + destruct (on_row_named m r Hi) as (m1 & E1 & _).
      exists m1. split; [done|]. by apply (on_row_ok m rows r m1 Hok E1).
  - destruct (row_safe_writes _ Hs) as [Hi _].
    assert (Hn : obj_get (or_empty (col_name r)) m = None).
    { destruct (obj_get (or_empty (col_name r)) m) as [p|] eqn:En; [|done].
      destruct Hok as (_ & Hget & _). destruct (Hget _ _ En) as [Hf _].
      congruence. }
    rewrite (on_row_inherited _ _ Hi Hn). by rewrite Hs.
Qed.

Lemma on_rows_ok rows m :
  on_rows rows [] = Resolved m ->
  forallb Spec.row_safe rows = true /\ Spec.attendance_map_ok m rows.
Proof.
  intros E. pose proof (on_rows_cases rows) as H.
  destruct (forallb Spec.row_safe rows); [|congruence].
  destruct H as (m' & E' & Hok). split; [done|]. congruence.
Qed.

Lemma attendance_map_names (m : Obj PersonAttendance) rows :
  Spec.attendance_map_ok m rows -> map name (Object_values m) ≡ₚ map fst m.
Proof.
  intros (Hnd & Hget & _). rewrite Object_values_perm, map_map.
  erewrite map_ext_in; [reflexivity|]. intros [k p] Hin. simpl.
  by destruct (Hget k p (obj_get_In _ _ _ Hnd Hin)) as (_ & ? & _).
Qed.

Section Sorted.
Variable localeCompare : string -> string -> Z.

Lemma attendance_of_rows_cases rows :
  attendance_of_rows localeCompare rows
  = match on_rows rows [] with
    | Resolved m => Resolved (on_requestCompleted localeCompare m)
    | Threw e => Threw e
    end.
Proof. unfold attendance_of_rows. by destruct (on_rows rows []). Qed.

Lemma attendance_of_rows_Resolved rows results :
  attendance_of_rows localeCompare rows = Resolved results ->
  exists m, on_rows rows [] = Resolved m /\
            results = on_requestCompleted localeCompare m /\
            Spec.attendance_map_ok m rows.
Proof.
  rewrite attendance_of_rows_cases.
  destruct (on_rows rows []) as [m|e] eqn:E; [|done]. intros [= <-].
  exists m. split; [done|]. split; [done|]. by apply on_rows_ok.
Qed.

Lemma on_requestCompleted_In (m : Obj PersonAttendance) rows p :
  Spec.attendance_map_ok m rows ->
  In p (on_requestCompleted localeCompare m) <-> obj_get (name p) m = Some p.
Proof.
  intros Hok. pose proof Hok as (Hnd & Hget & _).
  unfold on_requestCompleted. rewrite <- list_elem_of_In.
  rewrite Array_sort_perm, Object_values_perm, list_elem_of_In, in_map_iff.
  split.
  - intros ([k q] & <- & Hin). simpl.
    pose proof (obj_get_In _ _ _ Hnd Hin) as Hk.
    by destruct (Hget _ _ Hk) as (_ & -> & _).
  - intros Hp. exists (name p, p). split; [done|].
    clear -Hp. induction m as [|[k0 v0] m IH]; simpl in *; [done|].
    destruct (String.eqb k0 (name p)) eqn:E.
    + apply String.eqb_eq in E as ->. injection Hp as ->. by left.
    + right. by apply IH.
Qed.

Hypothesis total : forall a b, localeCompare a b <= 0 \/ localeCompare b a <= 0.
Hypothesis trans :
  forall a b c, localeCompare a b <= 0 -> localeCompare b c <= 0 ->
                localeCompare a c <= 0.

Lemma on_requestCompleted_sorted m :
  StronglySorted (fun a b => localeCompare (name a) (name b) <= 0)
    (on_requestCompleted localeCompare m).
Proof.
  unfold on_requestCompleted.
  apply (Array_sort_sorted (fun a b => localeCompare (name a) (name b))).
  - intros a b. apply total.
  - intros a b c. apply trans.
Qed.

End Sorted.

(** C9: for every sequence of rows and a consistent [localeCompare], the
    list that queryAttendance resolves with has no two elements with the
    same name and is in ascending order of the names; the weeks of an
    element hold, for each week range, the value of the last row of that
    name that set it (within a row the next week is set after the current
    week; [__proto__] is no week range and never has an entry), so a week
    range has an entry only if a row of that name carried it as a
    non-empty current or next week.  The list is produced exactly when
    no row that names a member of [Object.prototype] carries a non-empty
    week: the handler of such a row throws. *)
Theorem attendance_list_unique_sorted_last_write
    (localeCompare : string -> string -> Z) (rows : list AttendanceRow) :
  (forall a b, localeCompare a b <= 0 \/ localeCompare b a <= 0) ->
  (forall a b c, localeCompare a b <= 0 -> localeCompare b c <= 0 ->
                 localeCompare a c <= 0) ->
  (if forallb Spec.row_safe rows
   then exists results, attendance_of_rows localeCompare rows = Resolved results
   else attendance_of_rows localeCompare rows
        = Threw "TypeError: Cannot set properties of undefined") /\
  forall results,
    attendance_of_rows localeCompare rows = Resolved results ->
    NoDup (map name results) /\
    StronglySorted (fun a b => localeCompare (name a) (name b) <= 0) results /\
    (forall p w,
       In p results ->
       weeks p !! w = Spec.week_entry w (Spec.writes_for (name p) rows)) /\
    (forall p w wa,
       In p results -> weeks p !! w = Some wa ->
       w <> ""%string /\
       exists r, In r rows /\ or_empty (col_name r) = name p /\
                 (or_empty (col_current_week r) = w \/
                  or_empty (col_next_week r) = w)).
Proof.
  intros total trans. split.
  { rewrite attendance_of_rows_cases. pose proof (on_rows_cases rows) as H.
    destruct (forallb Spec.row_safe rows).
    - destruct H as (m & -> & _). by eexists.
    - by rewrite H. }
  intros results (m & Em & -> & Hok)%attendance_of_rows_Resolved.
  assert (Hlast : forall p w, In p (on_requestCompleted localeCompare m) ->
            weeks p !! w = Spec.week_entry w (Spec.writes_for (name p) rows)).
  { intros p w Hin. apply (on_requestCompleted_In _ _ rows _ Hok) in Hin.
    destruct Hok as (_ & Hget & _).
    by destruct (Hget _ _ Hin) as (_ & _ & Hw). }
  split; [|split; [|split]].
  - unfold on_requestCompleted. rewrite Array_sort_perm.
    rewrite (attendance_map_names _ rows Hok). by destruct Hok.
  - by apply on_requestCompleted_sorted.
  - exact Hlast.
  - intros p w wa Hin Hw. rewrite (Hlast p w Hin) in Hw.
    unfold Spec.week_entry in Hw.
    destruct (String.eqb w "__proto__"); [done|].
    apply last_write_Some in Hw. unfold Spec.writes_for in Hw.
    apply in_flat_map in Hw as (r & Hr & Hw).
    destruct (String.eqb (or_empty (col_name r)) (name p)) eqn:En; [|done].
    apply String.eqb_eq in En. unfold Spec.row_writes in Hw.
    apply in_app_iff in Hw as [Hw|Hw].
    + destruct (String.eqb (or_empty (col_current_week r)) "") eqn:E;
        simpl in Hw; [done|]. destruct Hw as [[= <- <-]|[]].
      split; [intros E'; by rewrite E', String.eqb_refl in E|].
      exists r. auto.
    + destruct (String.eqb (or_empty (col_next_week r)) "") eqn:E;
        simpl in Hw; [done|]. destruct Hw as [[= <- <-]|[]].
      split; [intros E'; by rewrite E', String.eqb_refl in E|].
      exists r. auto.
Qed.

(** A row for a person named "constructor" that carries a week: the
    handler throws and no list is produced.  A row whose week is
    "__proto__" adds no entry to the weeks of its person. *)
Example rows_named_after_the_prototype :
  attendance_of_rows Sample.compare_lengths
    [ {| col_name := Some "constructor"%string; col_Level := None;
         col_current_week := Some "Monday, 03/03/2025 - Sunday, 09/03/2025"%string;
         col_current_attendance := Some "Monday"%string;
         col_next_week := None; col_next_attendance := None;
         col_current_iso := Some 10; col_next_iso := None |} ]
  = Threw "TypeError: Cannot set properties of undefined" /\
  attendance_of_rows Sample.compare_lengths
    [ {| col_name := Some "Zoe"%string; col_Level := None;
         col_current_week := Some "__proto__"%string;
         col_current_attendance := Some "Monday"%string;
         col_next_week := None; col_next_attendance := None;
         col_current_iso := Some 10; col_next_iso := None |} ]
  = Resolved [ {| name := "Zoe"; level := ""; weeks := ∅ |} ].
Proof. split; vm_compute; reflexivity. Qed.

(** The list for the sample rows, sorted by the lengths of the names:
    Zoe, whose level is the one of her first row and whose current week
    was set again by her second row, and Adam. *)
Lemma attendance_list_sample :
  exists results,
    attendance_of_rows Sample.compare_lengths Sample.attendance_rows
    = Resolved results /\
    map name results = ["Zoe"; "Adam"]%string /\
    map level results = ["Partner"; ""]%string /\
    NoDup (map name results) /\
    StronglySorted (fun a b => Sample.compare_lengths (name a) (name b) <= 0)
      results.
Proof.
  pose proof (attendance_list_unique_sorted_last_write Sample.compare_lengths
                Sample.attendance_rows) as H.
  destruct H as [_ H].
  - intros a b. unfold Sample.compare_lengths. lia.
  - intros a b c. unfold Sample.compare_lengths. lia.
  - eexists. split; [vm_compute; reflexivity|].
    split; [vm_compute; reflexivity|]. split; [vm_compute; reflexivity|].
    match goal with
    | |- NoDup (map name ?l) /\ _ =>
        destruct (H l) as (H1 & H2 & _); [vm_compute; reflexivity|]
    end.
    exact (conj H1 H2).
Defined.

End QueryAttendanceFacts.
(** ** Responses and errors of the two handlers *)

Module ResponseFacts.
Import Js.

(** [getAttendanceHandler] answers 500 when the secret or the attendance
    query fails; when the handler of a row throws, the exception escapes
    and no response is returned; otherwise it answers 200 with the two
    lists when the team query succeeds, and 500 when it fails. *)
Lemma getAttendanceHandler_run tza localeCompare (w : Attendance.World) :
  Attendance.getAttendanceHandler tza localeCompare w
  = match Attendance.getSecret w with
    | Threw _ => Attendance.Returned Attendance.server_error
    | Resolved _ =>
        match Spec.attendance_answer tza w with
        | Threw _ => Attendance.Returned Attendance.server_error
        | Resolved rows =>
            match Attendance.attendance_of_rows localeCompare rows with
            | Threw exception => Attendance.Uncaught exception
            | Resolved attendees =>
                match Attendance.teamRows w with
                | Threw _ => Attendance.Returned Attendance.server_error
                | Resolved team =>
                    Attendance.Returned
                      {| Http.status := 200;
                         Http.body :=
                           Http.JsonBody
                             [("attendance"%string,
                               Attendance.PAttendance attendees);
                              ("team"%string, Attendance.PTeam team)] |}
                end
            end
        end
    end.
Proof.
  unfold Attendance.getAttendanceHandler, Spec.attendance_answer,
    Spec.handler_week_ranges, Attendance.queryAttendance,
    Attendance.queryTeamData. cbv zeta.
  destruct (Attendance.getSecret w); [|done].
  destruct (Attendance.attendanceRows w _ _ _) as [rows|]; [|done].
  by destruct (Attendance.attendance_of_rows localeCompare rows).
Qed.

(** C6: a response with status 200 of getAnnualLeave is the JSON object
    with the properties annual_leave, future_leave and user_details, in
    an invocation that runs alone as in one that overlaps others, and
    one of getAttendance is the JSON object with the properties
    attendance and team, in that order and with no other property.  Such
    responses are returned: by getAnnualLeave when the body carries
    truthy initials that can be written as a string, as every string
    can, and every access succeeds; by getAttendance when the secret and
    both queries are obtained and no row that names a member of
    [Object.prototype] carries a week. *)
Theorem responses_have_fixed_shape
    (tza : Z) (JSON_parse : string -> option JsVal)
    (localeCompare : string -> string -> Z)
    (c c' : AnnualLeave.Cache) (req : AnnualLeave.RequestBody)
    (w : AnnualLeave.World) (effects : list AnnualLeave.Effect)
    (aw : Attendance.World) :
  (forall resp,
     AnnualLeave.getAnnualLeaveHandler tza JSON_parse c req w
     = (AnnualLeave.Returned resp, c', effects) ->
     Http.status resp = 200 ->
     Http.body_keys (Http.body resp)
     = Some ["annual_leave"; "future_leave"; "user_details"]%string) /\
  (forall events req' resp,
     In (req', AnnualLeave.Returned resp)
       (AnnualLeave.ended
          (AnnualLeave.run_events tza JSON_parse AnnualLeave.process_start
             events)) ->
     Http.status resp = 200 ->
     Http.body_keys (Http.body resp)
     = Some ["annual_leave"; "future_leave"; "user_details"]%string) /\
  (forall i,
     Spec.request_initials JSON_parse req = Some i ->
     ToString_throws i = false ->
     Spec.all_resolve tza c i w ->
     exists resp c1 effects1,
       AnnualLeave.getAnnualLeaveHandler tza JSON_parse c req w
       = (AnnualLeave.Returned resp, c1, effects1) /\
       Http.status resp = 200) /\
  (forall s, ToString_throws (JStr s) = false) /\
  (forall resp,
     Attendance.getAttendanceHandler tza localeCompare aw
     = Attendance.Returned resp ->
     Http.status resp = 200 ->
     Http.body_keys (Http.body resp) = Some ["attendance"; "team"]%string) /\
  (forall rows,
     Spec.is_resolved (Attendance.getSecret aw) ->
     Spec.attendance_answer tza aw = Resolved rows ->
     forallb Spec.row_safe rows = true ->
     Spec.is_resolved (Attendance.teamRows aw) ->
     exists resp,
       Attendance.getAttendanceHandler tza localeCompare aw
       = Attendance.Returned resp /\
       Http.status resp = 200).
Proof.
  split; [|split; [|split; [|split; [|split]]]].
  - intros resp H Hs.
    destruct (HandlerFacts.handler_ok_response _ _ _ _ _ _ _ _ H Hs)
      as (a & f & u & m & -> & _). done.
  - intros events req' resp Hin Hs.
    destruct (HandlerFacts.run_events_ok Spec.any_map tza JSON_parse _ events
                (HandlerFacts.events_build_any events)
                (HandlerFacts.process_start_ok Spec.any_map))
      as [(_ & _ & Hended) _].
    rewrite Forall_forall in Hended.
    apply list_elem_of_In in Hin.
    destruct (Hended _ Hin resp eq_refl Hs) as (a & f & u & m & -> & _). done.
  - intros i. apply HandlerFacts.handler_succeeds.
  - done.
  - intros resp. rewrite getAttendanceHandler_run.
    destruct (Attendance.getSecret aw); [|by intros [= <-]].
    destruct (Spec.attendance_answer tza aw) as [rows|]; [|by intros [= <-]].
    destruct (Attendance.attendance_of_rows localeCompare rows); [|done].
    destruct (Attendance.teamRows aw); by intros [= <-].
  - intros rows [s Hs] Hr Hsafe [t Ht].
    rewrite getAttendanceHandler_run, Hs, Hr, Ht.
    rewrite QueryAttendanceFacts.attendance_of_rows_cases.
    pose proof (QueryAttendanceFacts.on_rows_cases rows) as H.
    rewrite Hsafe in H. destruct H as (m & -> & _). by eexists.
Qed.

(** The two responses for the sample data. *)
Lemma responses_sample :
  (exists resp c' effects,
     AnnualLeave.getAnnualLeaveHandler 0 Sample.parse AnnualLeave.initial_cache
       (Sample.request_of "AB") Sample.world
     = (AnnualLeave.Returned resp, c', effects) /\
     Http.status resp = 200 /\
     Http.body_keys (Http.body resp)
     = Some ["annual_leave"; "future_leave"; "user_details"]%string) /\
  (exists resp,
     Attendance.getAttendanceHandler 0 Sample.compare_lengths
       Sample.attendance_world = Attendance.Returned resp /\
     Http.status resp = 200 /\
     Http.body_keys (Http.body resp) = Some ["attendance"; "team"]%string).
Proof.
  pose proof (fun c' effects =>
                responses_have_fixed_shape 0 Sample.parse Sample.compare_lengths
                  AnnualLeave.initial_cache c' (Sample.request_of "AB")
                  Sample.world effects Sample.attendance_world) as H.
  split.
  - eexists _, _, _. split; [vm_compute; reflexivity|]. split; [done|].
    vm_compute; reflexivity.
  - eexists. split; [vm_compute; reflexivity|]. split; [done|].
    match goal with
    | |- Http.body_keys (Http.body ?r) = _ =>
        destruct (H AnnualLeave.initial_cache [])
          as (_ & _ & _ & _ & H5 & _);
        apply H5; [vm_compute; reflexivity|done]
    end.
Defined.

(** C3, the input it fails on: a body whose text is the JSON value
    [null] is parsed without error, reading its [initials] then throws
    outside of both [try] blocks, and the handler returns no response. *)
Theorem null_body_is_not_caught
    (tza : Z) (JSON_parse : string -> option JsVal)
    (c : AnnualLeave.Cache) (w : AnnualLeave.World) :
  JSON_parse "null" = Some JNull ->
  exists exception,
    AnnualLeave.getAnnualLeaveHandler tza JSON_parse c
      (AnnualLeave.BodyStream (Resolved ["null"%string])) w
    = (AnnualLeave.Rejected exception, c, []) /\
    AnnualLeave.getAnnualLeaveHandler tza JSON_parse c
      (AnnualLeave.BodyValue (JStr "null")) w
    = (AnnualLeave.Rejected exception, c, []).
Proof.
  intros H. eexists. unfold AnnualLeave.getAnnualLeaveHandler,
    AnnualLeave.invocation, AnnualLeave.getRequestBody. simpl. rewrite H. done.
Qed.

Lemma null_body_sample :
  exists exception,
    AnnualLeave.getAnnualLeaveHandler 0 Sample.parse AnnualLeave.initial_cache
      (AnnualLeave.BodyStream (Resolved ["null"%string])) Sample.world
    = (AnnualLeave.Rejected exception, AnnualLeave.initial_cache, []) /\
    AnnualLeave.getAnnualLeaveHandler 0 Sample.parse AnnualLeave.initial_cache
      (AnnualLeave.BodyValue (JStr "null")) Sample.world
    = (AnnualLeave.Rejected exception, AnnualLeave.initial_cache, []).
Proof.
  exact (null_body_is_not_caught 0 Sample.parse AnnualLeave.initial_cache
           Sample.world eq_refl).
Defined.

End ResponseFacts.

(** ** Routing of leave approvals *)

Module RoutingFacts.
Import Js AnnualLeave.

Lemma includes_In l x : includes l x = true <-> In x l.
Proof.
  unfold includes. rewrite existsb_exists. split.
  - intros (y & Hy & ->%String.eqb_eq). done.
  - intros H. exists x. by rewrite String.eqb_refl.
Qed.

Lemma enhanced_by_app m a f :
  Spec.enhanced_by m a -> Spec.enhanced_by m f ->
  Forall (fun e =>
            approvers e
            = Some (determineApprovers (or_empty (Map_get m (person e)))) /\
            AOW e = Some (or_null (Map_get m (person e))))
    (a ++ f).
Proof.
  unfold Spec.enhanced_by. intros Ha Hf. apply Forall_app. split.
  - eapply Forall_impl; [exact Ha|]. intros e [He Ho].
    by rewrite ApproverFacts.determineApprovers_spec.
  - eapply Forall_impl; [exact Hf|]. intros e [He Ho].
    by rewrite ApproverFacts.determineApprovers_spec.
Qed.

(** C4, as amended: [determineApprovers] returns LZ followed by JW when
    the comma-separated list, its items trimmed and lowercased, contains
    "construction", and LZ followed by AC otherwise.  In every response
    with status 200 that the process returns, whatever invocations
    overlap, each entry of annual_leave and of future_leave carries the
    approvers so computed from the AOW of its person in one team map, the
    empty string standing for a person without AOW, and this AOW or
    null; the team map is one that an invocation of the process built
    from the rows of the team table that it obtained.  Each entry of the
    leaveEntries of user_details carries no approvers and no AOW. *)
Theorem approvers_routed_by_aow
    (tza : Z) (JSON_parse : string -> option JsVal)
    (events : list Event) (req : RequestBody)
    (resp : Http.HttpResponseInit Payload) (aow : string) :
  In (req, Returned resp)
    (ended (run_events tza JSON_parse process_start events)) ->
  Http.status resp = 200 ->
  (In "construction"%string (Spec.aow_items aow) ->
   determineApprovers aow = ["LZ"; "JW"]%string) /\
  (~ In "construction"%string (Spec.aow_items aow) ->
   determineApprovers aow = ["LZ"; "AC"]%string) /\
  (exists m,
     Spec.built_by events m /\
     Forall (fun e =>
               approvers e
               = Some (determineApprovers (or_empty (Map_get m (person e)))) /\
               AOW e = Some (or_null (Map_get m (person e))))
       (Spec.listed_entries (Http.body resp))) /\
  Forall (fun e => approvers e = None /\ AOW e = None)
    (Spec.user_entries (Http.body resp)).
Proof.
  intros Hin Hs. split; [|split].
  - intros Hc%includes_In. rewrite ApproverFacts.determineApprovers_spec.
    unfold Spec.approvers_for. by rewrite Hc.
  - intros Hc. rewrite ApproverFacts.determineApprovers_spec.
    unfold Spec.approvers_for.
    destruct (includes (Spec.aow_items aow) "construction") eqn:E; [|done].
    by apply includes_In in E.
  - destruct (HandlerFacts.run_events_ok (Spec.built_by events) tza JSON_parse
                _ events (HandlerFacts.events_build_built events)
                (HandlerFacts.process_start_ok _)) as [(_ & _ & Hended) _].
    rewrite Forall_forall in Hended. apply list_elem_of_In in Hin.
    destruct (Hended _ Hin resp eq_refl Hs)
      as (a & f & u & m & -> & Hm & Ha & Hf & Hu).
    split.
    + exists m. split; [done|]. simpl. rewrite app_nil_r.
      by apply enhanced_by_app.
    + simpl. by rewrite app_nil_r.
Qed.

(** The response to AB on the sample data, when the invocation runs to
    its end. *)
Lemma approvers_sample :
  exists resp,
    ended (run_events 0 Sample.parse process_start
             [Invoke (Sample.request_of "AB") Sample.world;
              Resume 0; Resume 0; Resume 0])
    = [(Sample.request_of "AB", Returned resp)] /\
    Http.status resp = 200 /\
    (exists m,
       Spec.built_by [Invoke (Sample.request_of "AB") Sample.world;
                      Resume 0; Resume 0; Resume 0] m /\
       Forall (fun e =>
                 approvers e
                 = Some (determineApprovers (or_empty (Map_get m (person e)))) /\
                 AOW e = Some (or_null (Map_get m (person e))))
         (Spec.listed_entries (Http.body resp))) /\
    Forall (fun e => approvers e = None /\ AOW e = None)
      (Spec.user_entries (Http.body resp)).
Proof.
  assert (exists resp,
            ended (run_events 0 Sample.parse process_start
                     [Invoke (Sample.request_of "AB") Sample.world;
                      Resume 0; Resume 0; Resume 0])
            = [(Sample.request_of "AB", Returned resp)] /\
            Http.status resp = 200)
    as (resp & E & Hs)
    by (eexists; split; [vm_compute; reflexivity|reflexivity]).
  exists resp. split; [exact E|]. split; [exact Hs|].
  destruct (approvers_routed_by_aow 0 Sample.parse
              [Invoke (Sample.request_of "AB") Sample.world;
               Resume 0; Resume 0; Resume 0]
              (Sample.request_of "AB") resp "") as (_ & _ & H3 & H4).
  - rewrite E. by left.
  - exact Hs.
  - exact (conj H3 H4).
Defined.

(** C4 as stated fails for the entries of user_details: in the response
    for AB on the sample data they carry no approvers, so not every leave
    entry of the response does. *)
Lemma user_details_entries_lack_approvers :
  exists resp c' effects,
    getAnnualLeaveHandler 0 Sample.parse initial_cache (Sample.request_of "AB")
      Sample.world = (Returned resp, c', effects) /\
    Http.status resp = 200 /\
    (exists e, In e (Spec.all_entries (Http.body resp)) /\ approvers e = None) /\
    ~ (exists m,
         Forall (fun e => approvers e
                          = Some (determineApprovers (or_empty (Map_get m (person e)))))
           (Spec.all_entries (Http.body resp))).
Proof.
  eexists _, _, _. split; [vm_compute; reflexivity|]. split; [reflexivity|].
  match goal with
  | |- (exists e, In e ?l /\ _) /\ _ =>
      assert (Hin : exists e, In e l /\ approvers e = None)
        by (eexists; split; [right; right; left; reflexivity|reflexivity])
  end.
  split; [exact Hin|].
  destruct Hin as (e & Hin & He). intros [m HF].
  rewrite Forall_forall in HF. apply list_elem_of_In, HF in Hin.
  rewrite He in Hin. discriminate Hin.
Qed.

End RoutingFacts.

(** ** OutstandingBalancesList *)

Module BalancesFacts.
Import Js Balances.

Lemma append_assoc (a b c : string) : (a +:+ b) +:+ c = a +:+ (b +:+ c).
Proof.
  induction a as [|x a IH]; [done|].
  change (String x ((a +:+ b) +:+ c) = String x (a +:+ (b +:+ c))).
  by f_equal.
Qed.

Lemma gt0_spec x : gt0 x = true <-> (0 < x)%Q.
Proof.
  unfold gt0. rewrite Qlt_alt. destruct (0 ?= x)%Q; split; done.
Qed.

Lemma filter_nil_iff {A} (p : A -> bool) (l : list A) :
  List.filter p l = [] <-> forall x, In x l -> p x = false.
Proof.
  induction l as [|y l IH]; simpl; [done|].
  destruct (p y) eqn:E; split.
  - done.
  - intros H. specialize (H y (or_introl eq_refl)). congruence.
  - intros H x [<-|Hx]; [done|]. by apply IH.
  - intros H. apply IH. intros x Hx. apply H. by right.
Qed.

(** C10: the list renders the text "No outstanding balances found."
    exactly when no client of the input has a total outstanding balance
    above zero, and otherwise one card for each client with a balance
    above zero, in the order of the input, and for no other client.  For a
    bill with a valid due date and [n] the whole number of days, rounded
    down, from the due date to today: the due status is "n day(s)
    overdue" when [n] is positive, "Due in n day(s)" with the absolute
    value of [n] when it is negative, and "Due today" when it is zero. *)
Theorem outstanding_balances_rendering
    (today : Z) (matters : list Matter)
    (balances : list OutstandingClientBalance) (bill : Bill) (dueDate : Z) :
  (OutstandingBalancesList today matters balances
   = RText "No outstanding balances found."
   <-> forall b, In b balances -> ~ Spec.owes b) /\
  ((exists b, In b balances /\ Spec.owes b) ->
   exists cards,
     OutstandingBalancesList today matters balances = RList cards /\
     cards = map (render_card today matters)
               (List.filter (fun b => gt0 (total_outstanding_balance b)) balances) /\
     (forall card, In card cards <->
        exists b, In b balances /\ Spec.owes b /\
                  card = render_card today matters b)) /\
  (due_at bill = Some dueDate ->
   let n := (today - dueDate) / 86400000 in
   (0 < n -> computeDueStatus today bill = Spec.n_days n +:+ " overdue") /\
   (n < 0 -> computeDueStatus today bill = "Due in " +:+ Spec.n_days (- n)) /\
   (n = 0 -> computeDueStatus today bill = "Due today"%string)).
Proof.
  split; [|split].
  - unfold OutstandingBalancesList. cbv zeta.
    destruct (List.filter _ balances) as [|c cs] eqn:E; simpl.
    + split; [|done]. intros _ b Hb Howes.
      apply filter_nil_iff with (x := b) in E; [|done].
      apply gt0_spec in Howes. congruence.
    + split; [done|]. intros H. exfalso.
      assert (Hc : In c (List.filter
                (fun item => gt0 (total_outstanding_balance item)) balances))
        by (rewrite E; by left).
      apply filter_In in Hc as [Hc Hpos]. apply (H c Hc). by apply gt0_spec.
  - intros (b & Hb & Howes). unfold OutstandingBalancesList. cbv zeta.
    destruct (List.filter _ balances) as [|c cs] eqn:E.
    + apply filter_nil_iff with (x := b) in E; [|done].
      apply gt0_spec in Howes. congruence.
    + eexists. split; [reflexivity|]. split; [done|].
      intros card. rewrite in_map_iff. rewrite <- E. split.
      * intros (b' & <- & [Hin Hpos%gt0_spec]%filter_In). by exists b'.
      * intros (b' & Hin & Hpos%gt0_spec & ->). exists b'. split; [done|].
        by apply filter_In.
  - intros Hdue. cbv zeta. unfold computeDueStatus. rewrite Hdue. cbv zeta.
    change (1000 * 3600 * 24) with 86400000.
    set (n := (today - dueDate) / 86400000). unfold Spec.n_days.
    split; [|split]; intros Hn.
    + destruct (Z.ltb_spec 0 n); [|lia].
      destruct (Z.ltb_spec 1 n), (decide (n = 1)); try lia;
        by rewrite append_assoc.
    + destruct (Z.ltb_spec 0 n); [lia|]. destruct (Z.ltb_spec n 0); [|lia].
      replace (Z.abs n) with (- n) by lia.
      destruct (Z.ltb_spec 1 (- n)), (decide (- n = 1)); try lia; done.
    + rewrite Hn. done.
Qed.

(** Two clients, of which one owes; its bill was due ten days ago. *)
Example outstanding_balances_sample :
  let bill := {| bill_id := 7; number := "B-7"; total := 100; paid := 40;
                 due := 60; due_at := Some (20000 * 86400000);
                 issued_at := None; paid_at := None |} in
  let client (i : Z) (amount : Q) :=
    {| id := i; contact_name := None; total_outstanding_balance := amount;
       associated_matter_ids := []; outstanding_bills := [bill] |} in
  let today := 20010 * 86400000 + 5000 in
  map card_key
    match OutstandingBalancesList today [] [client 1 0%Q; client 2 60%Q] with
    | RList cards => cards
    | RText _ => []
    end = [2] /\
  OutstandingBalancesList today [] [client 1 0%Q; client 3 (-5)%Q]
  = RText "No outstanding balances found." /\
  computeDueStatus today bill = "10 days overdue"%string /\
  computeDueStatus (20000 * 86400000 - 1) bill = "Due in 1 day"%string /\
  computeDueStatus (20000 * 86400000 + 1) bill = "Due today"%string.
Proof. cbv zeta. repeat split; vm_compute; reflexivity. Qed.

End BalancesFacts.

(** ** Errors, outside accesses and cache states of getAnnualLeave *)

Module ErrorFacts.
Import Js AnnualLeave HandlerFacts.

Ltac run_fetch :=
  unfold fetch_and_respond, queryTeamDataFromSQL, queryAnnualLeave,
    queryFutureLeave, queryUserAnnualLeave; unfold_M.

(** The [try] block throws exactly when some access fails. *)
Lemma fetch_and_respond_throws tza i w c :
  ~ Spec.all_resolve tza c i w ->
  exists reason c' effects,
    run (fetch_and_respond tza i w) c = (Threw reason, c', effects).
Proof.
  intros Hno.
  destruct (run (fetch_and_respond tza i w) c) as [[[resp|reason] c'] effects] eqn:E;
    [|by eexists _, _, _].
  exfalso. apply Hno. clear Hno. revert E. run_fetch.
  unfold Spec.all_resolve, Spec.is_resolved.
  destruct (getSecret w) as [secret|]; [|done].
  destruct (fiscalYear tza (today_user w)) as [fiscalStart fiscalEnd].
  cbn [run bind_M fst snd].
  destruct (cachedTeamAowMap c) as [m|] eqn:Em;
    [|destruct (teamRows w) as [team|]; [|done]];
    destruct (annualLeaveRows w (today_annual w)) as [annual|];
    destruct (futureLeaveRows w (today_future w)) as [future|];
    destruct (userLeaveRows w i fiscalStart fiscalEnd) as [user|];
    simpl; rewrite ?Em; simpl; rewrite ?Em; try done; intros _;
    repeat split; eauto.
Qed.

(** X1: the errors that getAnnualLeave and getAttendance map to a
    response, and those they do not.  In an invocation of getAnnualLeave
    that no other one overlaps: a body that cannot be read or parsed is
    answered 400 "Invalid request body"; a parsed body other than null
    without truthy initials, and a request without body, are answered
    400 "Missing 'initials'"; in both cases the caches are not touched
    and nothing outside is accessed.  With truthy initials that can be
    written as a string and caches not all set, a failing access is
    answered 500; truthy initials that cannot be written as a string
    make the log line throw, and no response is returned.  getAttendance
    answers 500 when the secret or the attendance query fails, and when
    the team query fails after rows that were all handled; when the
    handler of a row throws, the exception is not caught. *)
Theorem errors_are_mapped
    (tza : Z) (JSON_parse : string -> option JsVal)
    (localeCompare : string -> string -> Z)
    (c : Cache) (req : RequestBody) (w : World) (aw : Attendance.World) :
  (forall reason,
     getRequestBody JSON_parse req = Threw reason ->
     getAnnualLeaveHandler tza JSON_parse c req w
     = (Returned {| Http.status := 400;
                    Http.body := Http.TextBody
                      "Invalid request body. Ensure it's valid JSON." |}, c, [])) /\
  (forall body,
     getRequestBody JSON_parse req = Resolved body -> body <> JNull ->
     truthy (get_prop body "initials") = false ->
     getAnnualLeaveHandler tza JSON_parse c req w
     = (Returned {| Http.status := 400;
                    Http.body := Http.TextBody
                      "Missing 'initials' in request body." |}, c, [])) /\
  getAnnualLeaveHandler tza JSON_parse c BodyAbsent w
  = (Returned {| Http.status := 400;
                 Http.body := Http.TextBody
                   "Missing 'initials' in request body." |}, c, []) /\
  (forall i,
     Spec.request_initials JSON_parse req = Some i ->
     ToString_throws i = false ->
     ~ Spec.populated c -> ~ Spec.all_resolve tza c i w ->
     exists c' effects,
       getAnnualLeaveHandler tza JSON_parse c req w
       = (Returned {| Http.status := 500;
                      Http.body := Http.TextBody
                        "An error occurred while processing your request." |},
          c', effects)) /\
  (forall i,
     Spec.request_initials JSON_parse req = Some i ->
     ToString_throws i = true ->
     getAnnualLeaveHandler tza JSON_parse c req w
     = (Rejected "TypeError: Cannot convert object to primitive value", c, [])) /\
  (~ (Spec.is_resolved (Attendance.getSecret aw) /\
      Spec.is_resolved (Spec.attendance_answer tza aw)) ->
   Attendance.getAttendanceHandler tza localeCompare aw
   = Attendance.Returned
       {| Http.status := 500;
          Http.body := Http.TextBody "Error retrieving attendance data." |}) /\
  (forall rows,
     Spec.is_resolved (Attendance.getSecret aw) ->
     Spec.attendance_answer tza aw = Resolved rows ->
     (forallb Spec.row_safe rows = true ->
      ~ Spec.is_resolved (Attendance.teamRows aw) ->
      Attendance.getAttendanceHandler tza localeCompare aw
      = Attendance.Returned
          {| Http.status := 500;
             Http.body := Http.TextBody "Error retrieving attendance data." |}) /\
     (forallb Spec.row_safe rows = false ->
      Attendance.getAttendanceHandler tza localeCompare aw
      = Attendance.Uncaught "TypeError: Cannot set properties of undefined")).
Proof.
  split; [|split; [|split; [|split; [|split; [|split]]]]].
  - intros reason H. unfold getAnnualLeaveHandler, invocation. by rewrite H.
  - intros body H Hnull Hfalsy. unfold getAnnualLeaveHandler, invocation.
    rewrite H. destruct body; try done; simpl in *.
    destruct (obj_get "initials" props) as [v|]; [|done].
    cbn [truthy] in Hfalsy. unfold bad_request.
    destruct (truthy (Some v)) eqn:E; [|done].
    cbn [truthy] in E. congruence.
  - done.
  - intros i Ei Et Hpop Hno. rewrite (handler_with_initials _ _ _ _ _ _ Ei Et).
    destruct (fetch_and_respond_throws tza i w c Hno) as (reason & c' & eff & E).
    rewrite E.
    destruct (cachedAnnualLeave c) as [a|] eqn:Ea,
        (cachedFutureLeave c) as [f|] eqn:Ef,
        (cachedUserDetails c) as [u|] eqn:Eu,
        (cachedTeamAowMap c) as [m|] eqn:Em; try by eexists _, _.
    exfalso. apply Hpop. unfold Spec.populated. rewrite Ea, Ef, Eu, Em.
    repeat split; by eexists.
  - intros i Ei Et. by apply handler_unconvertible with (i := i).
  - intros Hno. rewrite ResponseFacts.getAttendanceHandler_run.
    destruct (Attendance.getSecret aw); [|done].
    destruct (Spec.attendance_answer tza aw); [|done].
    exfalso. apply Hno. split; by eexists.
  - intros rows [s Hs] Hr.
    rewrite ResponseFacts.getAttendanceHandler_run, Hs, Hr.
    rewrite QueryAttendanceFacts.attendance_of_rows_cases.
    pose proof (QueryAttendanceFacts.on_rows_cases rows) as H. split.
    + intros Hsafe Hteam. rewrite Hsafe in H. destruct H as (m & -> & _).
      destruct (Attendance.teamRows aw); [|done].
      exfalso. apply Hteam. by eexists.
    + intros Hsafe. rewrite Hsafe in H. by rewrite H.
Qed.

(** The accesses of the [try] block, in order. *)
Lemma fetch_and_respond_effects tza i w c :
  let effects := (run (fetch_and_respond tza i w) c).2 in
  match getSecret w, cachedTeamAowMap c, teamRows w with
  | Threw _, _, _ => effects = [KeyVaultGetSecret]
  | Resolved _, Some _, _ =>
      effects = [KeyVaultGetSecret; SqlAnnualLeave; SqlFutureLeave;
                 SqlUserAnnualLeave]
  | Resolved _, None, Threw _ => effects = [KeyVaultGetSecret; SqlTeam]
  | Resolved _, None, Resolved _ =>
      effects = [KeyVaultGetSecret; SqlTeam; SqlAnnualLeave; SqlFutureLeave;
                 SqlUserAnnualLeave]
  end.
Proof.
  cbv zeta. run_fetch.
  destruct (getSecret w) as [secret|]; [|done].
  destruct (fiscalYear tza (today_user w)) as [fiscalStart fiscalEnd].
  cbn [run bind_M fst snd].
  destruct (cachedTeamAowMap c) as [m|] eqn:Em;
    [|destruct (teamRows w) as [team|]; [|done]];
    destruct (annualLeaveRows w (today_annual w)) as [annual|];
    destruct (futureLeaveRows w (today_future w)) as [future|];
    destruct (userLeaveRows w i fiscalStart fiscalEnd) as [user|];
    simpl; rewrite ?Em; simpl; rewrite ?Em; done.
Qed.

(** X2: what an invocation of getAnnualLeave that no other one overlaps
    accesses outside.  Nothing, when the body carries no truthy
    initials, when the initials cannot be written as a string, or when
    all caches are set.  Otherwise it reads the Key Vault secret first
    and once; if that fails nothing else is accessed; the team table is
    queried only when the team map is not cached, and if that query
    fails no leave query is made; the three leave queries are issued
    together, once each, whether or not one of them fails. *)
Theorem outside_accesses
    (tza : Z) (JSON_parse : string -> option JsVal)
    (c : Cache) (req : RequestBody) (w : World) :
  let effects := (getAnnualLeaveHandler tza JSON_parse c req w).2 in
  (Spec.request_initials JSON_parse req = None -> effects = []) /\
  (forall i, Spec.request_initials JSON_parse req = Some i ->
             ToString_throws i = true -> effects = []) /\
  (Spec.populated c -> effects = []) /\
  (forall i,
     Spec.request_initials JSON_parse req = Some i ->
     ToString_throws i = false -> ~ Spec.populated c ->
     match getSecret w, cachedTeamAowMap c, teamRows w with
     | Threw _, _, _ => effects = [KeyVaultGetSecret]
     | Resolved _, Some _, _ =>
         effects = [KeyVaultGetSecret; SqlAnnualLeave; SqlFutureLeave;
                    SqlUserAnnualLeave]
     | Resolved _, None, Threw _ => effects = [KeyVaultGetSecret; SqlTeam]
     | Resolved _, None, Resolved _ =>
         effects = [KeyVaultGetSecret; SqlTeam; SqlAnnualLeave; SqlFutureLeave;
                    SqlUserAnnualLeave]
     end).
Proof.
  cbv zeta. split; [|split; [|split]].
  - intros Ei. pose proof (handler_without_initials tza JSON_parse c req w Ei) as H.
    destruct (getRequestBody JSON_parse req) as [b|];
      [destruct b; [destruct H as [ex H]|..]|]; by rewrite H.
  - intros i Ei Et. by rewrite (handler_unconvertible _ _ _ _ _ _ Ei Et).
  - intros ([a Ha] & [f Hf] & [u Hu] & [m Hm]).
    destruct (handler_cases tza JSON_parse c req w)
      as [(o & -> & _)|(i & Ei & Et)]; [done|].
    by rewrite (handler_with_initials _ _ _ _ _ _ Ei Et), Ha, Hf, Hu, Hm.
  - intros i Ei Et Hpop. rewrite (handler_with_initials _ _ _ _ _ _ Ei Et).
    pose proof (fetch_and_respond_effects tza i w c) as He. cbv zeta in He.
    assert (Hfetch :
      (match run (fetch_and_respond tza i w) c with
       | (Resolved response, c', effects) => (Returned response, c', effects)
       | (Threw _, c', effects) => (Returned server_error, c', effects)
       end).2 = (run (fetch_and_respond tza i w) c).2).
    { by destruct (run (fetch_and_respond tza i w) c) as [[[r|] c1] e1]. }
    destruct (cachedAnnualLeave c) as [a|] eqn:Ea,
        (cachedFutureLeave c) as [f|] eqn:Ef,
        (cachedUserDetails c) as [u|] eqn:Eu;
      try (rewrite Hfetch; exact He).
    destruct (cachedTeamAowMap c) as [m|] eqn:Em;
      [|rewrite Hfetch; exact He].
    exfalso. apply Hpop. unfold Spec.populated. rewrite Ea, Ef, Eu, Em.
    repeat split; by eexists.
Qed.

(** The team map that the team query gives. *)
Lemma fetch_and_respond_team tza i w c secret team :
  getSecret w = Resolved secret -> teamRows w = Resolved team ->
  cachedTeamAowMap c = None ->
  cachedTeamAowMap (run (fetch_and_respond tza i w) c).1.2
  = Some (fold_left team_on_row team ∅).
Proof.
  intros Hs Ht Em. run_fetch. rewrite Hs, Ht.
  destruct (fiscalYear tza (today_user w)) as [fiscalStart fiscalEnd].
  cbn [run bind_M fst snd]. rewrite Em.
  destruct (annualLeaveRows w (today_annual w)) as [annual|];
    destruct (futureLeaveRows w (today_future w)) as [future|];
    destruct (userLeaveRows w i fiscalStart fiscalEnd) as [user|];
    simpl; rewrite ?Em; simpl; done.
Qed.

(** X3: the states of the caches.  At any time since the start of the
    process, whatever invocations overlap, either all four caches are
    set or none of the three leave caches is; a cached team map is one
    that an invocation built from the rows of the team table that it
    obtained, and once a team map is cached there is one at any later
    time.  An invocation that no other one overlaps keeps the team map
    it finds; when it finds none and its initials can be written as a
    string, it caches the team map once it has obtained the secret and
    the team rows, even if it then fails. *)
Theorem cache_states
    (tza : Z) (JSON_parse : string -> option JsVal)
    (events more : list Event) (c : Cache) (req : RequestBody) (w : World) :
  let p := run_events tza JSON_parse process_start events in
  let c' := (getAnnualLeaveHandler tza JSON_parse c req w).1.2 in
  (Spec.populated (caches p) \/
   (cachedAnnualLeave (caches p) = None /\ cachedFutureLeave (caches p) = None /\
    cachedUserDetails (caches p) = None)) /\
  (forall m, cachedTeamAowMap (caches p) = Some m -> Spec.built_by events m) /\
  (is_Some (cachedTeamAowMap (caches p)) ->
   is_Some (cachedTeamAowMap (caches (run_events tza JSON_parse p more)))) /\
  (is_Some (cachedTeamAowMap c) -> cachedTeamAowMap c' = cachedTeamAowMap c) /\
  (forall i secret team,
     Spec.request_initials JSON_parse req = Some i ->
     ToString_throws i = false ->
     cachedTeamAowMap c = None ->
     getSecret w = Resolved secret -> teamRows w = Resolved team ->
     cachedTeamAowMap c' = Some (fold_left team_on_row team ∅)).
Proof.
  cbv zeta.
  destruct (run_events_ok (Spec.built_by events) tza JSON_parse _ events
              (events_build_built events) (process_start_ok _))
    as [([Hk Hc] & _) _].
  destruct (run_events_ok Spec.any_map tza JSON_parse _ events
              (events_build_any events) (process_start_ok _)) as [Hp _].
  set (p := run_events tza JSON_parse process_start events) in *.
  split; [|split; [|split; [|split]]].
  - unfold Spec.populated.
    destruct (cachedAnnualLeave (caches p)) as [a|],
      (cachedFutureLeave (caches p)) as [f|],
      (cachedUserDetails (caches p)) as [u|]; try done; [|by right].
    left. destruct Hc as [Hm _]. repeat split; by eauto.
  - exact Hk.
  - by apply (run_events_ok Spec.any_map tza JSON_parse p more
                (events_build_any more) Hp).
  - intros [m Hm].
    destruct (handler_cases tza JSON_parse c req w)
      as [(o & -> & _)|(i & Ei & Et)]; [done|].
    rewrite (handler_with_initials _ _ _ _ _ _ Ei Et), Hm.
    pose proof (fetch_and_respond_run tza i w c) as Hrun.
    destruct (run (fetch_and_respond tza i w) c) as [[[r|] c1] e1];
      destruct (cachedAnnualLeave c) as [a|], (cachedFutureLeave c) as [f|],
        (cachedUserDetails c) as [u|]; simpl; try done;
      try (destruct Hrun as (m' & a' & f' & u' & -> & -> & _ & _ & _ & [?|E] & _);
           simpl; congruence);
      destruct Hrun as (_ & _ & _ & [E|E] & _); congruence.
  - intros i secret team Ei Et Em Hs Ht.
    rewrite (handler_with_initials _ _ _ _ _ _ Ei Et), Em.
    pose proof (fetch_and_respond_team tza i w c secret team Hs Ht Em) as H.
    destruct (cachedAnnualLeave c), (cachedFutureLeave c), (cachedUserDetails c);
      by destruct (run (fetch_and_respond tza i w) c) as [[[r|] c1] e1].
Qed.

End ErrorFacts.
(** ** The team map and the dates of the leave records *)

Module LeaveDataFacts.
Import JsDate Js AnnualLeave JsDateFacts.

Lemma or_null_Some x k :
  k <> ""%string -> (or_null x = Some k <-> or_empty x = k).
Proof.
  intros Hk. destruct x as [s|]; simpl.
  - destruct (String.eqb s "") eqn:E.
    + apply String.eqb_eq in E as ->. split; [done|]. by intros <-.
    + split; [by intros [= ->]|by intros ->].
  - split; [done|]. by intros <-.
Qed.

Lemma or_null_not_empty x : or_null x <> Some ""%string.
Proof.
  destruct x as [s|]; simpl; [|done].
  destruct (String.eqb s "") eqn:E; [done|].
  intros [= ->]. by rewrite String.eqb_refl in E.
Qed.

Lemma team_map_empty_key (rows : list TeamData) :
  fold_left team_on_row rows ∅ !! ""%string = None.
Proof.
  induction rows as [|row rows IH] using rev_ind; [done|].
  rewrite fold_left_app. simpl. unfold team_on_row at 1.
  destruct (or_null (col_Initials row)) as [i|] eqn:Ei; [|done].
  rewrite lookup_insert_ne; [done|].
  intros ->. by apply or_null_not_empty in Ei.
Qed.

Lemma team_map_lookup (rows : list TeamData) (k : string) :
  k <> ""%string ->
  Map_get (fold_left team_on_row rows ∅) k = Spec.team_aow k rows.
Proof.
  intros Hk. unfold Map_get, Spec.team_aow.
  induction rows as [|row rows IH] using rev_ind; [done|].
  rewrite fold_left_app, List.filter_app, map_app. simpl. unfold team_on_row at 1.
  destruct (or_null (col_Initials row)) as [i|] eqn:Ei.
  - destruct (String.eqb (or_empty (col_Initials row)) k) eqn:E.
    + apply String.eqb_eq in E. apply (or_null_Some _ _ Hk) in E.
      rewrite E in Ei. injection Ei as <-.
      rewrite lookup_insert_eq. simpl. by rewrite last_snoc.
    + rewrite lookup_insert_ne.
      * simpl. by rewrite app_nil_r.
      * intros ->. apply (or_null_Some _ _ Hk) in Ei.
        by rewrite Ei, String.eqb_refl in E.
  - destruct (String.eqb (or_empty (col_Initials row)) k) eqn:E.
    + apply String.eqb_eq in E. apply (or_null_Some _ _ Hk) in E. congruence.
    + simpl. by rewrite app_nil_r.
Qed.

(** X4: the team map gives, for initials, the AOW of the last row of the
    team table with these initials, an empty AOW counting as null; rows
    without initials are left out, so the empty string is no key. *)
Theorem team_map_holds_last_aow (rows : list TeamData) (k : string) :
  (k <> ""%string ->
   Map_get (fold_left team_on_row rows ∅) k = Spec.team_aow k rows) /\
  fold_left team_on_row rows ∅ !! ""%string = None /\
  (forall aow, Map_get (fold_left team_on_row rows ∅) k = Some aow ->
     aow <> ""%string /\
     exists row, In row rows /\ col_Initials row = Some k /\
                 col_AOW row = Some aow).
Proof.
  split; [apply team_map_lookup|]. split; [apply team_map_empty_key|].
  intros aow Haow.
  assert (Hk : k <> ""%string).
  { intros ->. revert Haow. unfold Map_get. by rewrite team_map_empty_key. }
  rewrite (team_map_lookup rows k Hk) in Haow. unfold Spec.team_aow in Haow.
  destruct (last _) as [o|] eqn:El; [|done]. simpl in Haow. subst o.
  apply last_Some_elem_of, list_elem_of_In, in_map_iff in El
    as (row & Hrow & [Hin Hi]%filter_In).
  apply String.eqb_eq in Hi.
  split; [intros ->; by apply or_null_not_empty in Hrow|].
  exists row. split; [done|].
  destruct (col_Initials row) as [i|]; simpl in Hi; [|congruence].
  subst i. split; [done|].
  destruct (col_AOW row) as [a|]; simpl in Hrow; [|done].
  destruct (String.eqb a ""); congruence.
Qed.

Lemma slice_pad2 n : 0 <= n <= 99 -> slice_last2 ("0" +:+ pretty n) = Spec.two_digits n.
Proof. apply AttendanceFacts.pad2_two_digits. Qed.

Lemma formatDate_eq tza d : formatDate tza d = Spec.yyyy_mm_dd tza d.
Proof.
  unfold formatDate, Spec.yyyy_mm_dd. cbv zeta.
  pose proof (AttendanceFacts.DateFromTime_range (LocalTime tza d)).
  pose proof (MonthFromTime_range (LocalTime tza d)).
  rewrite !slice_pad2; [done|unfold getDate; lia|unfold getMonth; lia].
Qed.

Lemma append_length (a b : string) :
  String.length (a +:+ b) = (String.length a + String.length b)%nat.
Proof.
  induction a as [|x a IH]; [done|].
  change (S (String.length (a +:+ b)) = S (String.length a + String.length b)).
  by rewrite IH.
Qed.

(** Two strings with suffixes of the same length are equal only if the
    prefixes and the suffixes are. *)
Lemma append_inj_suffix (a1 a2 s1 s2 : string) :
  String.length s1 = String.length s2 ->
  a1 +:+ s1 = a2 +:+ s2 -> a1 = a2 /\ s1 = s2.
Proof.
  intros Hlen. revert a2. induction a1 as [|x a1 IH]; intros [|y a2] H.
  - done.
  - change (s1 = String y (a2 +:+ s2)) in H. rewrite H in Hlen.
    simpl in Hlen. rewrite append_length in Hlen. lia.
  - change (String x (a1 +:+ s1) = s2) in H. rewrite <- H in Hlen.
    simpl in Hlen. rewrite append_length in Hlen. lia.
  - change (String x (a1 +:+ s1) = String y (a2 +:+ s2)) in H.
    injection H as -> H. by destruct (IH _ H) as [-> ->].
Qed.

Lemma digit_inj a b : 0 <= a <= 9 -> 0 <= b <= 9 -> Spec.digit a = Spec.digit b -> a = b.
Proof.
  unfold Spec.digit. intros Ha Hb H.
  apply (f_equal N_of_ascii) in H.
  rewrite !N_ascii_embedding in H by lia. lia.
Qed.

Lemma two_digits_inj a b :
  0 <= a <= 99 -> 0 <= b <= 99 -> Spec.two_digits a = Spec.two_digits b -> a = b.
Proof.
  unfold Spec.two_digits. intros Ha Hb [= H1 H2].
  apply digit_inj in H1; [|zdiv..]. apply digit_inj in H2; [|zdiv..]. zdiv.
Qed.

(** Year, month and day of the month are those of the day number. *)
Lemma civil_of_Day t1 t2 :
  Day t1 = Day t2 ->
  YearFromTime t1 = YearFromTime t2 /\ MonthFromTime t1 = MonthFromTime t2 /\
  DateFromTime t1 = DateFromTime t2.
Proof.
  intros H.
  assert (Hy : YearFromTime t1 = YearFromTime t2)
    by (unfold YearFromTime; by rewrite H).
  assert (Hm : MonthFromTime t1 = MonthFromTime t2)
    by (unfold MonthFromTime, DayWithinYear, InLeapYear; by rewrite H, Hy).
  split; [done|]. split; [done|].
  unfold DateFromTime, DayWithinYear, InLeapYear. by rewrite H, Hy, Hm.
Qed.

Lemma Day_of_civil t1 t2 :
  YearFromTime t1 = YearFromTime t2 -> MonthFromTime t1 = MonthFromTime t2 ->
  DateFromTime t1 = DateFromTime t2 -> Day t1 = Day t2.
Proof.
  intros Hy Hm Hd.
  pose proof (MakeDay_DateFromTime t1 0) as H1.
  pose proof (MakeDay_DateFromTime t2 0) as H2.
  rewrite Hy, Hm, Hd, H2 in H1. lia.
Qed.

(** X5: [formatDate] writes a date as yyyy-mm-dd, month and day with two
    digits, and the text names the local calendar day: two dates have the
    same text exactly when they are on the same local day. *)
Theorem formatDate_names_the_day (tza d1 d2 : Z) :
  formatDate tza d1 = Spec.yyyy_mm_dd tza d1 /\
  (formatDate tza d1 = formatDate tza d2 <-> localDay tza d1 = localDay tza d2).
Proof.
  split; [apply formatDate_eq|]. rewrite !formatDate_eq.
  unfold Spec.yyyy_mm_dd, getFullYear, getMonth, getDate, localDay. split.
  - intros H.
    pose proof (AttendanceFacts.DateFromTime_range (LocalTime tza d1)).
    pose proof (AttendanceFacts.DateFromTime_range (LocalTime tza d2)).
    pose proof (MonthFromTime_range (LocalTime tza d1)).
    pose proof (MonthFromTime_range (LocalTime tza d2)).
    apply append_inj_suffix in H as [Hy H]; [|done].
    apply (inj pretty) in Hy.
    unfold Spec.two_digits in H.
    change (String "-" (String (Spec.digit ((MonthFromTime (LocalTime tza d1) + 1) / 10))
              (String (Spec.digit ((MonthFromTime (LocalTime tza d1) + 1) mod 10))
                 (String "-"
                    (String (Spec.digit (DateFromTime (LocalTime tza d1) / 10))
                       (String (Spec.digit (DateFromTime (LocalTime tza d1) mod 10))
                          "")))))
            = String "-" (String (Spec.digit ((MonthFromTime (LocalTime tza d2) + 1) / 10))
              (String (Spec.digit ((MonthFromTime (LocalTime tza d2) + 1) mod 10))
                 (String "-"
                    (String (Spec.digit (DateFromTime (LocalTime tza d2) / 10))
                       (String (Spec.digit (DateFromTime (LocalTime tza d2) mod 10))
                          "")))))) in H.
    injection H as Hm1 Hm2 Hd1 Hd2.
    apply digit_inj in Hm1; [|zdiv..]. apply digit_inj in Hm2; [|zdiv..].
    apply digit_inj in Hd1; [|zdiv..]. apply digit_inj in Hd2; [|zdiv..].
    apply Day_of_civil; [done|zdiv|zdiv].
  - intros H. by destruct (civil_of_Day _ _ H) as (-> & -> & ->).
Qed.

End LeaveDataFacts.

(** ** More on getAttendance: the week ranges together, the next working
    day, levels and names *)

Module AttendanceMoreFacts.
Import JsDate Js Attendance AttendanceHelpers JsDateFacts AttendanceFacts
  ObjFacts QueryAttendanceFacts.

(** X6: the three week ranges of an invocation follow one another without
    gap or overlap, and the current one contains the invocation: the
    previous week ends one millisecond before the current week starts, the
    current week ends one millisecond before the next one starts, and
    today lies between the start and the end of the current week. *)
Theorem week_ranges_are_contiguous (tza today : Z) :
  let cs := getStartOfWeek tza today in
  let ps := getPreviousWeekStart tza cs in
  let ns := getNextWeekStart tza cs in
  cs <= today <= getEndOfWeek tza cs /\
  getEndOfWeek tza ps + 1 = cs /\
  getEndOfWeek tza cs + 1 = ns /\
  getEndOfWeek tza ns + 1 = getNextWeekStart tza ns.
Proof.
  cbv zeta. unfold getPreviousWeekStart.
  replace (getDate tza (getStartOfWeek tza today) - 7)
    with (getDate tza (getStartOfWeek tza today) + -7) by lia.
  rewrite (setDate_getDate tza (getStartOfWeek tza today) (-7)).
  rewrite (getEndOfWeek_eq tza (getStartOfWeek tza today + -7 * msPerDay)),
    (getEndOfWeek_eq tza (getStartOfWeek tza today)),
    (getEndOfWeek_eq tza (getNextWeekStart tza (getStartOfWeek tza today))),
    (getNextWeekStart_eq tza (getNextWeekStart tza (getStartOfWeek tza today))),
    (getNextWeekStart_eq tza (getStartOfWeek tza today)),
    (getStartOfWeek_eq tza today).
  unfold getDay, WeekDay, localDay, LocalTime, Day, msPerDay.
  set (l := today + tza). replace today with (l - tza) by (unfold l; lia).
  generalize l. clear l. intros l.
  repeat split; zdiv.
Qed.

Lemma getDay_shift tza t k :
  getDay tza (t + k * msPerDay) = (getDay tza t + k) mod 7.
Proof. unfold getDay, WeekDay, LocalTime, Day, msPerDay. zdiv. Qed.

Lemma getDay_range tza t : 0 <= getDay tza t <= 6.
Proof. unfold getDay, WeekDay. zdiv. Qed.

(** X7: [getNextWorkingDay]: the loop ends within two iterations; the result
    is midnight of a day from Monday to Friday, the day after [date] or,
    when that is a Saturday or a Sunday, the Monday that follows. *)
Theorem getNextWorkingDay_skips_weekend (tza date : Z) (fuel : nat) :
  exists next,
    getNextWorkingDay tza (2 + fuel) date = Some next /\
    1 <= getDay tza next <= 5 /\
    getHours tza next = 0 /\ getMinutes tza next = 0 /\
    getSeconds tza next = 0 /\ getMilliseconds tza next = 0 /\
    localDay tza next
    = localDay tza date + (if getDay tza date =? 5 then 3
                           else if getDay tza date =? 6 then 2 else 1).
Proof.
  unfold getNextWorkingDay. cbv zeta.
  rewrite (setDate_getDate tza date 1).
  pose proof (getDay_range tza date) as Hr.
  assert (Hskip : skip_weekend tza (2 + fuel) (date + 1 * msPerDay)
    = Some (date + (if getDay tza date =? 5 then 3
                    else if getDay tza date =? 6 then 2 else 1) * msPerDay)).
  { cbn [skip_weekend Nat.add].
    rewrite !(setDate_getDate tza _ 1).
    replace (date + 1 * msPerDay + 1 * msPerDay) with (date + 2 * msPerDay) by lia.
    replace (date + 2 * msPerDay + 1 * msPerDay) with (date + 3 * msPerDay) by lia.
    rewrite !getDay_shift.
    assert (Hc : getDay tza date = 0 \/ getDay tza date = 1 \/ getDay tza date = 2
                 \/ getDay tza date = 3 \/ getDay tza date = 4
                 \/ getDay tza date = 5 \/ getDay tza date = 6) by lia.
    destruct Hc as [E|[E|[E|[E|[E|[E|E]]]]]]; rewrite E; simpl; try done.
    destruct fuel; cbn [skip_weekend]; by rewrite getDay_shift, E. }
  rewrite Hskip. simpl. eexists. split; [reflexivity|].
  set (k := if getDay tza date =? 5 then 3 else if getDay tza date =? 6 then 2 else 1).
  assert (Hk : (getDay tza date + k) mod 7 <> 0 /\ (getDay tza date + k) mod 7 <> 6
               /\ 1 <= k <= 3).
  { unfold k. destruct (Z.eqb_spec (getDay tza date) 5) as [->|];
      [by vm_compute|].
    destruct (Z.eqb_spec (getDay tza date) 6) as [->|]; [by vm_compute|].
    zdiv. }
  revert Hk. generalize k. clear Hskip k. intros k Hk.
  unfold setHours, getDay, getHours, getMinutes, getSeconds, getMilliseconds,
    WeekDay, HourFromTime, MinFromTime, SecFromTime, msFromTime, localDay,
    UTC, MakeDate, MakeTime, LocalTime, Day, msPerDay, msPerHour, msPerMinute,
    msPerSecond in *. cbv zeta.
  set (l := date + tza) in *. replace date with (l - tza) by (unfold l; lia).
  revert Hk. generalize l. clear l Hr. intros l Hk.
  repeat split; zdiv.
Qed.

Lemma find_app {A} (p : A -> bool) (l1 l2 : list A) :
  List.find p (l1 ++ l2)
  = match List.find p l1 with
    | Some x => Some x
    | None => List.find p l2
    end.
Proof. induction l1 as [|x l1 IH]; simpl; [done|]. by destruct (p x). Qed.

Lemma on_rows_snoc rows r m :
  on_rows (rows ++ [r]) [] = Resolved m ->
  exists m0, on_rows rows [] = Resolved m0 /\ on_row m0 r = Resolved m /\
             Spec.attendance_map_ok m0 rows.
Proof.
  rewrite on_rows_app. destruct (on_rows rows []) as [m0|e] eqn:E; [|done].
  simpl. intros H. exists m0. split; [done|]. split; [done|].
  by apply on_rows_ok.
Qed.

(** The level of an entry is the level of the first row of its name, and
    a name without an entry is inherited from [Object.prototype] or the
    name of no row. *)
Lemma on_rows_level rows : forall m k,
  on_rows rows [] = Resolved m ->
  match obj_get k m with
  | Some p =>
      exists r, Spec.first_row k rows = Some r /\ level p = or_empty (col_Level r)
  | None => inherited k = true \/ Spec.first_row k rows = None
  end.
Proof.
  induction rows as [|r rows IH] using rev_ind.
  { intros m k [= <-]. by right. }
  intros m k (m0 & E0 & Er & Hok)%on_rows_snoc.
  specialize (IH m0 k E0).
  unfold Spec.first_row in *. rewrite find_app. simpl.
  destruct (inherited (or_empty (col_name r))) eqn:Hi.
  - assert (Hn : obj_get (or_empty (col_name r)) m0 = None).
    { destruct (obj_get (or_empty (col_name r)) m0) as [p|] eqn:En; [|done].
      destruct Hok as (_ & Hget & _). destruct (Hget _ _ En) as [Hf _].
      congruence. }
    rewrite (on_row_inherited _ _ Hi Hn) in Er.
    destruct (Spec.row_safe r); [|done]. injection Er as <-.
    destruct (obj_get k m0) as [p|].
    + destruct IH as (r0 & -> & Hl). by exists r0.
    + destruct IH as [Hk | ->]; [by left|].
      destruct (String.eqb (or_empty (col_name r)) k) eqn:E; [|by right].
      apply String.eqb_eq in E as <-. by left.
  - destruct (on_row_named m0 r Hi) as (m1 & E1 & Hg1 & _).
    rewrite E1 in Er. injection Er as <-. rewrite Hg1.
    destruct (String.eqb (or_empty (col_name r)) k) eqn:E.
    + apply String.eqb_eq in E as <-. unfold Spec.person_before. simpl.
      destruct (obj_get (or_empty (col_name r)) m0) as [p|].
      * destruct IH as (r0 & -> & Hl). by exists r0.
      * destruct IH as [Hk | ->]; [congruence|]. by exists r.
    + destruct (obj_get k m0) as [p|].
      * destruct IH as (r0 & -> & Hl). by exists r0.
      * destruct IH as [Hk | ->]; [by left|by right].
Qed.

(** X8: when queryAttendance resolves, its list has exactly one element
    for each distinct name among the rows that is not the name of a
    member of [Object.prototype], and none for another name; the level
    of an element is the level of the first row with its name: later
    rows of the name do not change it. *)
Theorem attendance_list_names_and_levels
    (localeCompare : string -> string -> Z) (rows : list AttendanceRow)
    (results : list PersonAttendance) :
  attendance_of_rows localeCompare rows = Resolved results ->
  (forall r, In r rows -> inherited (or_empty (col_name r)) = false ->
     exists p, In p results /\ name p = or_empty (col_name r)) /\
  (forall p, In p results ->
     inherited (name p) = false /\
     exists r, Spec.first_row (name p) rows = Some r /\
               level p = or_empty (col_Level r)) /\
  NoDup (map name results) /\
  length results = length (remove_dups (Spec.entry_names rows)).
Proof.
  intros (m & Em & -> & Hok)%attendance_of_rows_Resolved.
  pose proof Hok as (Hnd & Hget & _).
  assert (Hnames : forall k, In k (map fst m) <-> In k (Spec.entry_names rows)).
  { intros k. pose proof (on_rows_level rows m k Em) as Hl.
    unfold Spec.first_row in Hl. unfold Spec.entry_names.
    rewrite <- obj_get_keys, filter_In, in_map_iff. split.
    - intros [p Hp]. rewrite Hp in Hl. destruct Hl as (r & Hr & _).
      apply find_some in Hr as [Hr <-%String.eqb_eq].
      destruct (Hget _ _ Hp) as [-> _]. split; [by exists r|done].
    - intros [(r & <- & Hr) Hi%negb_true_iff].
      destruct (obj_get (or_empty (col_name r)) m) as [p|] eqn:Ep; [done|].
      exfalso. destruct Hl as [Hl|Hl]; [congruence|].
      eapply find_none in Hl; [|exact Hr]. simpl in Hl.
      by rewrite String.eqb_refl in Hl. }
  assert (Hperm : map name (on_requestCompleted localeCompare m) ≡ₚ map fst m).
  { unfold on_requestCompleted. rewrite Array_sort_perm.
    by apply (attendance_map_names _ rows). }
  split; [|split; [|split]].
  - intros r Hr Hi.
    assert (Hk : In (or_empty (col_name r)) (map fst m)).
    { apply Hnames. unfold Spec.entry_names. apply filter_In.
      split; [by apply (in_map (fun r => or_empty (col_name r)))|].
      by rewrite Hi. }
    apply obj_get_keys in Hk as [p Hp]. exists p.
    destruct (Hget _ _ Hp) as (_ & Hn & _). split; [|done].
    apply (on_requestCompleted_In _ _ rows _ Hok). by rewrite Hn.
  - intros p Hp. apply (on_requestCompleted_In _ _ rows _ Hok) in Hp.
    destruct (Hget _ _ Hp) as (Hi & _). split; [done|].
    pose proof (on_rows_level rows m (name p) Em) as Hl. by rewrite Hp in Hl.
  - by rewrite Hperm.
  - rewrite <- (length_map name), Hperm.
    apply Permutation_length, NoDup_Permutation;
      [done|apply NoDup_remove_dups|].
    intros k. rewrite elem_of_remove_dups, !list_elem_of_In. apply Hnames.
Qed.

(** The sample rows give two elements, Zoe with the level of her first
    row and Adam without a level. *)
Lemma attendance_names_sample :
  exists results,
    attendance_of_rows Sample.compare_lengths Sample.attendance_rows
    = Resolved results /\
    length results = 2%nat /\
    NoDup (map name results) /\
    forall p, In p results ->
      exists r, Spec.first_row (name p) Sample.attendance_rows = Some r /\
                level p = or_empty (col_Level r).
Proof.
  eexists. split; [vm_compute; reflexivity|]. split; [vm_compute; reflexivity|].
  match goal with
  | |- NoDup (map name ?l) /\ _ =>
      destruct (attendance_list_names_and_levels Sample.compare_lengths
                  Sample.attendance_rows l) as (_ & H2 & H3 & _);
        [vm_compute; reflexivity|]
  end.
  split; [exact H3|]. intros p Hp. by destruct (H2 p Hp).
Defined.

End AttendanceMoreFacts.
(** ** attendanceIncludesDay *)

Module IncludesDayFacts.
Import Js AttendanceHelpers ApproverFacts.

Lemma lower_ascii_idemp c : lower_ascii (lower_ascii c) = lower_ascii c.
Proof. by destruct c as [[] [] [] [] [] [] [] []]; vm_compute. Qed.

Lemma toLowerCase_idemp s : toLowerCase (toLowerCase s) = toLowerCase s.
Proof.
  induction s as [|c s IH]; [done|]. simpl. by rewrite lower_ascii_idemp, IH.
Qed.

Lemma toLowerCase_length s : String.length (toLowerCase s) = String.length s.
Proof. induction s as [|c s IH]; [done|]. simpl. by rewrite IH. Qed.

Lemma toLowerCase_free_of_comma s :
  Spec.free_of "," (toLowerCase s) <-> Spec.free_of "," s.
Proof.
  unfold Spec.free_of. induction s as [|c s IH]; [done|]. simpl.
  pose proof (lower_ascii_comma c) as Hc.
  split; intros H [E|Hin]; apply H.
  - left. subst c. by vm_compute.
  - right. tauto.
  - left. destruct (Ascii.eqb_spec (lower_ascii c) ","); [|done].
    symmetry in Hc. by apply Ascii.eqb_eq in Hc.
  - right. tauto.
Qed.

(** The items of a split do not contain the separator. *)
Lemma split_free_of sep s : Forall (Spec.free_of sep) (split sep s).
Proof.
  unfold Spec.free_of. induction s as [|c s IH]; simpl.
  - constructor; [tauto|constructor].
  - destruct (Ascii.eqb_spec c sep) as [->|Hne].
    + constructor; [simpl; tauto|done].
    + destruct (split sep s) as [|item items];
        [repeat constructor; simpl; intros [E|[]]; by apply Hne|].
      apply Forall_cons in IH as [Hitem Hitems].
      constructor; [|done]. simpl. intros [E|Hin]; [by apply Hne|tauto].
Qed.

Lemma trimStart_chars c s :
  In c (list_ascii_of_string (trimStart s)) -> In c (list_ascii_of_string s).
Proof.
  induction s as [|x s IH]; [done|]. simpl.
  destruct (isWhiteSpace x); [right; by apply IH|done].
Qed.

Lemma trimEnd_chars c s :
  In c (list_ascii_of_string (trimEnd s)) -> In c (list_ascii_of_string s).
Proof.
  induction s as [|x s IH]; [done|]. simpl.
  destruct (trimEnd s) as [|y r].
  - destruct (isWhiteSpace x); simpl; tauto.
  - simpl in *. tauto.
Qed.

Lemma trim_free_of c s : Spec.free_of c s -> Spec.free_of c (trim s).
Proof.
  unfold Spec.free_of, trim. intros H Hin.
  by apply H, trimStart_chars, trimEnd_chars.
Qed.

Lemma trimStart_length s :
  (String.length (trimStart s) <= String.length s)%nat /\
  (String.length (trimStart s) = String.length s -> trimStart s = s).
Proof.
  induction s as [|x s [IH1 IH2]]; [done|]. simpl.
  destruct (isWhiteSpace x); simpl; [|done]. split; lia.
Qed.

Lemma trimEnd_length s :
  (String.length (trimEnd s) <= String.length s)%nat /\
  (String.length (trimEnd s) = String.length s -> trimEnd s = s).
Proof.
  induction s as [|x s [IH1 IH2]]; [done|]. simpl.
  destruct (trimEnd s) as [|y r] eqn:E.
  - destruct (isWhiteSpace x); simpl in *; split; try lia.
    intros H. f_equal. apply IH2. lia.
  - simpl in *. split; [lia|]. intros H. f_equal. apply IH2. lia.
Qed.

(** A string that [trim] does not shorten is trimmed already. *)
Lemma trim_length_eq s : String.length (trim s) = String.length s -> trim s = s.
Proof.
  unfold trim. intros H.
  destruct (trimEnd_length (trimStart s)) as [H1 H2].
  destruct (trimStart_length s) as [H3 H4].
  rewrite H2 by lia. apply H4. lia.
Qed.

Lemma trimEnd_idemp s : trimEnd (trimEnd s) = trimEnd s.
Proof.
  induction s as [|x s IH]; [done|]. simpl.
  destruct (trimEnd s) as [|y r] eqn:E.
  - destruct (isWhiteSpace x) eqn:Ex; simpl; [done|]. by rewrite Ex.
  - simpl in *. by rewrite IH.
Qed.

Lemma trimStart_trimEnd s :
  trimStart s = s -> trimStart (trimEnd s) = trimEnd s.
Proof.
  destruct s as [|x s]; [done|]. simpl.
  destruct (isWhiteSpace x) eqn:Ex.
  - intros H. destruct (trimStart_length s) as [Hle _].
    apply (f_equal String.length) in H. simpl in H. lia.
  - intros _. destruct (trimEnd s); simpl; by rewrite Ex.
Qed.

Lemma trimStart_idemp s : trimStart (trimStart s) = trimStart s.
Proof.
  induction s as [|x s IH]; [done|]. simpl.
  destruct (isWhiteSpace x) eqn:Ex; [done|]. simpl. by rewrite Ex.
Qed.

Lemma trim_idemp s : trim (trim s) = trim s.
Proof.
  unfold trim. rewrite (trimStart_trimEnd (trimStart s)) by apply trimStart_idemp.
  apply trimEnd_idemp.
Qed.

(** X9: [attendanceIncludesDay] does not depend on the case of the letters
    of its two arguments; it is false for an empty attendance, and it is
    true only for a day that is one of the comma-separated items of the
    attendance, trimmed and lowercased, so never for a day that contains a
    comma or starts or ends with white space. *)
Theorem attendanceIncludesDay_ignores_case (attendance attendance' day day' : string) :
  attendanceIncludesDay "" day = false /\
  (toLowerCase attendance = toLowerCase attendance' ->
   toLowerCase day = toLowerCase day' ->
   attendanceIncludesDay attendance day = attendanceIncludesDay attendance' day') /\
  (attendanceIncludesDay attendance day = true ->
   In (toLowerCase day) (Spec.aow_items attendance) /\
   Spec.free_of "," day /\ trim day = day).
Proof.
  split; [done|]. split.
  - intros Ha Hd. unfold attendanceIncludesDay. cbv zeta.
    assert (He : String.eqb attendance "" = String.eqb attendance' "").
    { destruct attendance, attendance'; simpl in *; try done. }
    rewrite He, Hd.
    change (map (fun d => toLowerCase (trim d)) (split "," ?a))
      with (Spec.aow_items a).
    by rewrite <- !aowList_items, Ha.
  - unfold attendanceIncludesDay. cbv zeta.
    destruct (String.eqb attendance ""); [done|].
    change (map (fun d => toLowerCase (trim d)) (split "," attendance))
      with (Spec.aow_items attendance).
    intros Hin%RoutingFacts.includes_In. split; [done|].
    unfold Spec.aow_items in Hin.
    apply in_map_iff in Hin as (item & Hitem & Hin).
    pose proof (split_free_of "," attendance) as Hfree.
    rewrite Forall_forall in Hfree.
    apply list_elem_of_In, Hfree in Hin. split.
    + apply toLowerCase_free_of_comma. rewrite <- Hitem.
      by apply toLowerCase_free_of_comma, trim_free_of.
    + apply trim_length_eq.
      rewrite <- (toLowerCase_length (trim day)), <- trim_toLowerCase, <- Hitem.
      by rewrite trim_toLowerCase, trim_idemp, !toLowerCase_length,
        <- (toLowerCase_length day), <- Hitem, toLowerCase_length.
Qed.

Example attendanceIncludesDay_examples :
  attendanceIncludesDay "Monday, Tuesday ,friday" "FRIDAY" = true /\
  attendanceIncludesDay "Monday, Tuesday ,friday" "tuesday" = true /\
  attendanceIncludesDay "Monday, Tuesday ,friday" "Tuesday " = false /\
  attendanceIncludesDay "Monday, Tuesday ,friday" "Mon" = false /\
  attendanceIncludesDay "" "" = false /\
  attendanceIncludesDay "," "" = true.
Proof. by vm_compute. Qed.

End IncludesDayFacts.

(** * parseConnectionString *)

Module ConnectionStringFacts.
Import Js ConnectionString.

Lemma free_of_String c x s :
  x <> c -> Spec.free_of c s -> Spec.free_of c (String x s).
Proof. unfold Spec.free_of. simpl. intros Hx Hs [E|Hin]; [by apply Hx|tauto]. Qed.

Lemma free_of_inv c x s :
  Spec.free_of c (String x s) -> x <> c /\ Spec.free_of c s.
Proof. unfold Spec.free_of. simpl. intros H. split; intros E; apply H; tauto. Qed.

Lemma free_of_empty c : Spec.free_of c "".
Proof. unfold Spec.free_of. simpl. tauto. Qed.

Lemma split_free sep s : Spec.free_of sep s -> split sep s = [s].
Proof.
  induction s as [|c s IH]; [done|]. intros [Hc Hs]%free_of_inv. simpl.
  destruct (Ascii.eqb_spec c sep); [done|]. by rewrite (IH Hs).
Qed.

Lemma split_append sep a b :
  Spec.free_of sep a -> split sep (a +:+ String sep b) = a :: split sep b.
Proof.
  induction a as [|c a IH]; intros Ha.
  - change (split sep (String sep b) = "" :: split sep b). simpl.
    by rewrite Ascii.eqb_refl.
  - apply free_of_inv in Ha as [Hc Ha].
    change (split sep (String c (a +:+ String sep b)) = String c a :: split sep b).
    simpl. destruct (Ascii.eqb_spec c sep); [done|]. by rewrite (IH Ha).
Qed.

Lemma split_before sep s :
  exists items, split sep s = Spec.before sep s :: items.
Proof.
  induction s as [|c s [items IH]]; simpl; [by eexists|].
  destruct (Ascii.eqb c sep); [by eexists|]. rewrite IH. by eexists.
Qed.

Lemma before_free_of sep s : Spec.before sep s = s <-> Spec.free_of sep s.
Proof.
  induction s as [|c s IH]; simpl; [split; [intros _; apply free_of_empty|done]|].
  destruct (Ascii.eqb_spec c sep) as [->|Hne].
  - split; [done|]. by intros [? _]%free_of_inv.
  - split.
    + intros E. apply free_of_String; [done|]. apply IH. congruence.
    + intros [_ Hs]%free_of_inv. f_equal. by apply IH.
Qed.

(** A part [key=value]: the value is cut at its first [=]. *)
Lemma split_key_value key value :
  Spec.free_of "=" key ->
  exists items,
    split "=" (key +:+ String "=" value) = key :: Spec.before "=" value :: items.
Proof.
  intros Hkey. rewrite (split_append _ _ _ Hkey).
  destruct (split_before "=" value) as [items ->]. by eexists.
Qed.

Lemma parse_part_key_value config key value :
  Spec.free_of "=" key ->
  parse_part config (key +:+ String "=" value) =
  match or_null (Some (Spec.before "=" value)) with
  | Some value => if String.eqb key "" then config else assign config key value
  | None => config
  end.
Proof.
  intros Hkey. destruct (split_key_value key value Hkey) as [items E].
  unfold parse_part. by rewrite E.
Qed.

(** A part without [=] is skipped. *)
Lemma parse_part_skip config part :
  Spec.free_of "=" part -> parse_part config part = config.
Proof. intros H. unfold parse_part. by rewrite (split_free _ _ H). Qed.

Lemma fold_parse_part_skip parts config :
  Forall (Spec.free_of "=") parts -> fold_left parse_part parts config = config.
Proof.
  induction 1 as [|part parts Hpart _ IH]; [done|]. simpl.
  by rewrite (parse_part_skip _ _ Hpart).
Qed.

Lemma split_suffix_free c sep s :
  Spec.free_of c s -> Forall (Spec.free_of c) (split sep s).
Proof.
  induction s as [|x s IH]; intros Hs; simpl.
  - repeat constructor. apply free_of_empty.
  - apply free_of_inv in Hs as [Hx Hs]. specialize (IH Hs).
    destruct (Ascii.eqb x sep).
    + constructor; [apply free_of_empty|done].
    + destruct (split sep s) as [|item items].
      * repeat constructor. apply free_of_String; [done|apply free_of_empty].
      * apply Forall_cons in IH as [Hitem Hitems].
        constructor; [|done]. by apply free_of_String.
Qed.

Lemma connection_string_parts sqlServer db pw :
  connection_string sqlServer db pw =
  ("Server" +:+ String "=" sqlServer) +:+ String ";"
    (("Database" +:+ String "=" db) +:+ String ";"
      (("User ID" +:+ String "=" "helix-database-server") +:+ String ";"
        (("Password" +:+ String "=" pw) +:+ String ";"
          (("Encrypt" +:+ String "=" "true") +:+ String ";"
            (("TrustServerCertificate" +:+ String "=" "false") +:+ String ";" ""))))).
Proof.
  unfold connection_string.
  rewrite (BalancesFacts.append_assoc "Server" (String "=" sqlServer)).
  rewrite (BalancesFacts.append_assoc "Database" (String "=" db)).
  rewrite (BalancesFacts.append_assoc "Password" (String "=" pw)).
  reflexivity.
Qed.

Ltac free_of_literal :=
  repeat (apply free_of_String; [discriminate|]);
  first [apply free_of_empty | assumption].

(** X10: the configuration that both handlers get from their connection
    string, for a server and a database name that are not empty and hold
    neither [;] nor [=], and a password without [;]: the server, the
    database, the user helix-database-server, encryption on, the server
    certificate not trusted, no timeout; the password is the secret cut
    at its first [=], so that it is the secret itself exactly when the
    secret holds no [=]. *)
Theorem connection_string_parsed (sqlServer db pw : string) :
  sqlServer <> "" -> db <> "" ->
  Spec.free_of ";" sqlServer -> Spec.free_of "=" sqlServer ->
  Spec.free_of ";" db -> Spec.free_of "=" db ->
  Spec.free_of ";" pw ->
  parseConnectionString (connection_string sqlServer db pw) =
    {| server := Some sqlServer;
       options := Some {| database := Some db;
                          encrypt := Some true;
                          trustServerCertificate := Some false;
                          connectTimeout := None |};
       authentication :=
         Some {| auth_type := "default";
                 auth_options := {| userName := "helix-database-server";
                                    password := Spec.before "=" pw |} |} |}
  /\ (Spec.before "=" pw = pw <-> Spec.free_of "=" pw).
Proof.
  intros Hs Hd Hs1 Hs2 Hd1 Hd2 Hp. split; [|apply before_free_of].
  unfold parseConnectionString. cbv zeta.
  rewrite connection_string_parts.
  rewrite split_append; [|change (Spec.free_of ";" (String "S" (String "e" (String "r" (String "v" (String "e" (String "r" (String "=" sqlServer))))))));
                           free_of_literal].
  rewrite split_append; [|change (Spec.free_of ";" (String "D" (String "a" (String "t" (String "a" (String "b" (String "a" (String "s" (String "e" (String "=" db))))))))));
                           free_of_literal].
  rewrite split_append; [|free_of_literal].
  rewrite split_append; [|change (Spec.free_of ";" (String "P" (String "a" (String "s" (String "s" (String "w" (String "o" (String "r" (String "d" (String "=" pw))))))))));
                           free_of_literal].
  rewrite split_append; [|free_of_literal].
  rewrite split_append; [|free_of_literal].
  change (split ";" "") with [""].
  cbn [fold_left].
  assert (Hnn : forall s, s <> "" -> or_null (Some s) = Some s).
  { intros s Hne. simpl. by destruct (String.eqb_spec s ""). }
  apply before_free_of in Hs2, Hd2.
  rewrite (parse_part_key_value empty_config "Server" sqlServer)
    by free_of_literal.
  rewrite Hs2, (Hnn _ Hs). cbn [String.eqb Ascii.eqb Bool.eqb].
  set (c1 := assign empty_config "Server" sqlServer).
  rewrite (parse_part_key_value c1 "Database" db) by free_of_literal.
  rewrite Hd2, (Hnn _ Hd). cbn [String.eqb Ascii.eqb Bool.eqb].
  set (c2 := assign c1 "Database" db).
  rewrite (parse_part_key_value c2 "User ID" "helix-database-server")
    by free_of_literal.
  change (or_null (Some (Spec.before "=" "helix-database-server")))
    with (Some "helix-database-server").
  cbn [String.eqb Ascii.eqb Bool.eqb].
  set (c3 := assign c2 "User ID" "helix-database-server").
  rewrite (parse_part_key_value c3 "Password" pw) by free_of_literal.
  set (c4 := match or_null (Some (Spec.before "=" pw)) with
             | Some value => if String.eqb "Password" "" then c3
                             else assign c3 "Password" value
             | None => c3
             end).
  rewrite (parse_part_key_value c4 "Encrypt" "true") by free_of_literal.
  change (or_null (Some (Spec.before "=" "true"))) with (Some "true").
  cbn [String.eqb Ascii.eqb Bool.eqb].
  set (c5 := assign c4 "Encrypt" "true").
  rewrite (parse_part_key_value c5 "TrustServerCertificate" "false")
    by free_of_literal.
  change (or_null (Some (Spec.before "=" "false"))) with (Some "false").
  cbn [String.eqb Ascii.eqb Bool.eqb].
  rewrite (parse_part_skip _ "") by apply free_of_empty.
  subst c5 c4 c3 c2 c1.
  destruct (String.eqb_spec (Spec.before "=" pw) "") as [E|Hne].
  - rewrite E. reflexivity.
  - rewrite (Hnn _ Hne). reflexivity.
Qed.

(** The handlers' connection string, with a secret that holds [=]. *)
Lemma connection_string_sample :
  parseConnectionString
    (connection_string "helix-database-server.database.windows.net"
       "helix-core-data" "pa=ss") =
    {| server := Some "helix-database-server.database.windows.net";
       options := Some {| database := Some "helix-core-data";
                          encrypt := Some true;
                          trustServerCertificate := Some false;
                          connectTimeout := None |};
       authentication :=
         Some {| auth_type := "default";
                 auth_options := {| userName := "helix-database-server";
                                    password := "pa" |} |} |}.
Proof.
  refine (proj1 (connection_string_parsed
                   "helix-database-server.database.windows.net"
                   "helix-core-data" "pa=ss" _ _ _ _ _ _ _));
    first [discriminate | free_of_literal].
Defined.

(** X11: a connection string without any [=] gives the empty
    configuration, and a part without [=] or with an empty value changes
    nothing. *)
Theorem parts_without_value_are_skipped (s key : string) (config : Config) :
  (Spec.free_of "=" s -> parseConnectionString s = empty_config) /\
  (Spec.free_of "=" key -> parse_part config key = config) /\
  (Spec.free_of "=" key ->
   parse_part config (key +:+ "=") = config /\
   forall rest, parse_part config (key +:+ "==" +:+ rest) = config).
Proof.
  split; [|split].
  - intros H. unfold parseConnectionString. cbv zeta.
    apply fold_parse_part_skip. by apply split_suffix_free.
  - apply parse_part_skip.
  - intros Hkey. split.
    + destruct (split_key_value key "" Hkey) as [items E].
      unfold parse_part. by rewrite E.
    + intros rest.
      destruct (split_key_value key (String "=" rest) Hkey) as [items E].
      unfold parse_part.
      change (key +:+ "==" +:+ rest) with (key +:+ String "=" (String "=" rest)) in *.
      by rewrite E.
Qed.

End ConnectionStringFacts.

(** * Home.tsx: who is asked to approve a leave request *)

Module HomeFacts.
Import Js Home.


Lemma ensureLZ_includes l : includes (ensureLZInApprovers l) "LZ" = true.
Proof.
  unfold ensureLZInApprovers. cbv zeta.
  destruct (includes (default [] l) "LZ") eqn:E; [done|].
  apply RoutingFacts.includes_In, in_or_app. right. by left.
Qed.



(** X13: [ensureLZInApprovers] gives a list with LZ; it keeps a list
    that has LZ as it is, so that applying it twice changes nothing, adds
    LZ at the end of any other list, and gives LZ alone when the entry
    has no approvers. *)
Theorem ensureLZInApprovers_adds_LZ_once (approvers : option (list string)) :
  In "LZ"%string (ensureLZInApprovers approvers) /\
  ensureLZInApprovers (Some (ensureLZInApprovers approvers))
  = ensureLZInApprovers approvers /\
  (forall l, approvers = Some l ->
     (In "LZ"%string l -> ensureLZInApprovers approvers = l) /\
     (~ In "LZ"%string l -> ensureLZInApprovers approvers = l ++ ["LZ"%string])) /\
  ensureLZInApprovers None = ["LZ"%string].
Proof.
  split; [|split; [|split]].
  - apply RoutingFacts.includes_In, ensureLZ_includes.
  - pose proof (ensureLZ_includes approvers) as H.
    generalize dependent (ensureLZInApprovers approvers). intros l H.
    unfold ensureLZInApprovers. cbv zeta. simpl. by rewrite H.
  - intros l ->. unfold ensureLZInApprovers. cbv zeta. simpl.
    split; intros H.
    + apply RoutingFacts.includes_In in H. by rewrite H.
    + destruct (includes l "LZ") eqn:E; [|done].
      by apply RoutingFacts.includes_In in E.
  - done.
Qed.

End HomeFacts.

(** * The due status at the bounds of a day *)

Module DueStatusFacts.
Import Balances.

(** X14: the due status counts whole periods of 24 hours from the due
    time, not calendar days.  It is "Due today" from the due time until 24
    hours later, "Due in 1 day" for any bill due within the coming 24
    hours, "1 day overdue" between 24 and 48 hours after the due time;
    and a bill whose due date is not a valid date is "Due today". *)
Theorem due_status_counts_periods_of_24_hours
    (today : Z) (bill : Bill) (dueDate : Z) :
  (due_at bill = Some dueDate ->
   (dueDate <= today < dueDate + 86400000 ->
    computeDueStatus today bill = "Due today"%string) /\
   (today < dueDate <= today + 86400000 ->
    computeDueStatus today bill = "Due in 1 day"%string) /\
   (dueDate + 86400000 <= today < dueDate + 2 * 86400000 ->
    computeDueStatus today bill = "1 day overdue"%string)) /\
  (due_at bill = None -> computeDueStatus today bill = "Due today"%string).
Proof.
  unfold computeDueStatus. split; [|by intros ->].
  intros ->. cbv zeta. change (1000 * 3600 * 24) with 86400000.
  split; [|split]; intros H.
  - assert ((today - dueDate) / 86400000 = 0) as -> by JsDateFacts.zdiv. done.
  - assert ((today - dueDate) / 86400000 = -1) as -> by JsDateFacts.zdiv.
    by vm_compute.
  - assert ((today - dueDate) / 86400000 = 1) as -> by JsDateFacts.zdiv.
    by vm_compute.
Qed.

End DueStatusFacts.

(** * Home.tsx: who is on leave today *)

Module OnLeaveFacts.
Import JsDate Js Home JsDateFacts.

Lemma padStart0_two n : 0 <= n <= 99 -> padStart0 2 (pretty n) = Spec.two_digits n.
Proof.
  intros Hn.
  assert (Hall : Forall (fun k => padStart0 2 (pretty k) = Spec.two_digits k)
                   (seqZ 0 100)).
  { apply (bool_decide_unpack _). by vm_compute. }
  rewrite Forall_forall in Hall. apply Hall, elem_of_seqZ. lia.
Qed.

Lemma pretty_N_char_digit k :
  0 <= k <= 9 -> pretty_N_char (Z.to_N k) = Spec.digit k.
Proof.
  intros Hk.
  assert (H : k = 0 \/ k = 1 \/ k = 2 \/ k = 3 \/ k = 4 \/ k = 5 \/ k = 6
              \/ k = 7 \/ k = 8 \/ k = 9) by lia.
  by destruct H as [->|[->|[->|[->|[->|[->|[->|[->|[->| ->]]]]]]]]].
Qed.

Ltac ndiv := zify; Z.div_mod_to_equations; lia.

Lemma pretty_four y : 1000 <= y <= 9999 -> pretty y = Spec.four_digits y.
Proof.
  intros Hy.
  assert (E : pretty y = pretty_N_go (Z.to_N y) "").
  { destruct y as [|p|p]; try lia. reflexivity. }
  rewrite E. clear E. unfold Spec.four_digits.
  assert (Ea : Z.to_N (y / 10) = N.div (Z.to_N y) 10) by ndiv.
  assert (Eb : Z.to_N (y / 100) = N.div (Z.to_N (y / 10)) 10) by ndiv.
  assert (Ec : Z.to_N (y / 1000) = N.div (Z.to_N (y / 100)) 10) by ndiv.
  assert (Ed : 0%N = N.div (Z.to_N (y / 1000)) 10) by ndiv.
  rewrite (pretty_N_go_step (Z.to_N y)) by lia. rewrite <- Ea.
  rewrite (pretty_N_go_step (Z.to_N (y / 10))) by zdiv. rewrite <- Eb.
  rewrite (pretty_N_go_step (Z.to_N (y / 100))) by zdiv. rewrite <- Ec.
  rewrite (pretty_N_go_step (Z.to_N (y / 1000))) by zdiv. rewrite <- Ed.
  rewrite pretty_N_go_0. clear Ea Eb Ec Ed.
  assert (0 <= y / 1000 <= 9) by zdiv.
  rewrite (N.mod_small (Z.to_N (y / 1000)) 10) by lia.
  rewrite <- !(Z2N.inj_mod _ 10) by zdiv.
  rewrite !pretty_N_char_digit by zdiv. done.
Qed.

Lemma YearFromTime_mono t1 t2 : Day t1 <= Day t2 -> YearFromTime t1 <= YearFromTime t2.
Proof.
  intros H. pose proof (YearFromTime_days t1) as [H1 _].
  pose proof (YearFromTime_days t2) as [_ H2].
  destruct (Z_le_gt_dec (YearFromTime t1) (YearFromTime t2)) as [|Hgt]; [done|].
  pose proof (DayFromYear_le (YearFromTime t2 + 1) (YearFromTime t1) ltac:(lia)).
  lia.
Qed.

Lemma civil_lt t1 t2 :
  Day t1 < Day t2 ->
  YearFromTime t1 * 10000 + (MonthFromTime t1 + 1) * 100 + DateFromTime t1
  < YearFromTime t2 * 10000 + (MonthFromTime t2 + 1) * 100 + DateFromTime t2.
Proof.
  intros H.
  pose proof (YearFromTime_mono t1 t2 ltac:(lia)) as Hy.
  pose proof (MonthFromTime_range t1). pose proof (MonthFromTime_range t2).
  pose proof (AttendanceFacts.DateFromTime_range t1).
  pose proof (AttendanceFacts.DateFromTime_range t2).
  destruct (Z.eq_dec (YearFromTime t1) (YearFromTime t2)) as [E|Hne]; [|lia].
  rewrite E. 
  assert (Hd : DayWithinYear t1 < DayWithinYear t2)
    by (unfold DayWithinYear; rewrite E; lia).
  assert (Hl : InLeapYear t1 = InLeapYear t2)
    by (unfold InLeapYear; by rewrite E).
  pose proof (DayWithinYear_range t1) as R1.
  pose proof (DayWithinYear_range t2) as R2.
  clear H H0 H1 H2 H3.
  unfold DateFromTime, MonthFromTime. cbv zeta. rewrite Hl in *.
  generalize dependent (DayWithinYear t1). intros d1 Hd R1.
  generalize dependent (DayWithinYear t2). intros d2 Hd R2.
  pose proof (InLeapYear_range t2) as Hleap.
  generalize dependent (InLeapYear t2). intros leap. intros.
  generalize (YearFromTime t2). intros y.
  repeat match goal with
         | |- context [?a <? ?b] => destruct (Z.ltb_spec a b)
         end; cbv iota; lia.
Qed.

Lemma civil_ltb t1 t2 :
  (YearFromTime t1 * 10000 + (MonthFromTime t1 + 1) * 100 + DateFromTime t1
   <? YearFromTime t2 * 10000 + (MonthFromTime t2 + 1) * 100 + DateFromTime t2)
  = (Day t1 <? Day t2).
Proof.
  destruct (Z.lt_trichotomy (Day t1) (Day t2)) as [H|[H|H]].
  - pose proof (civil_lt _ _ H). lia.
  - destruct (LeaveDataFacts.civil_of_Day _ _ H) as (-> & -> & ->). lia.
  - pose proof (civil_lt _ _ H). lia.
Qed.

Lemma digit_code k : 0 <= k <= 9 -> N_of_ascii (Spec.digit k) = (48 + Z.to_N k)%N.
Proof.
  intros Hk.
  assert (H : k = 0 \/ k = 1 \/ k = 2 \/ k = 3 \/ k = 4 \/ k = 5 \/ k = 6
              \/ k = 7 \/ k = 8 \/ k = 9) by lia.
  by destruct H as [->|[->|[->|[->|[->|[->|[->|[->|[->| ->]]]]]]]]].
Qed.

Lemma string_lt_digit a b s t :
  0 <= a <= 9 -> 0 <= b <= 9 ->
  string_lt (String (Spec.digit a) s) (String (Spec.digit b) t)
  = if a <? b then true else if b <? a then false else string_lt s t.
Proof.
  intros Ha Hb. cbn [string_lt]. rewrite !digit_code by done.
  destruct (Z.ltb_spec a b), (Z.ltb_spec b a),
    (N.ltb_spec (48 + Z.to_N a) (48 + Z.to_N b)),
    (N.ltb_spec (48 + Z.to_N b) (48 + Z.to_N a)); try lia; done.
Qed.

Lemma string_lt_same c s t : string_lt (String c s) (String c t) = string_lt s t.
Proof. cbn [string_lt]. by rewrite N.ltb_irrefl. Qed.

(** The order of two dates written yyyy-mm-dd is the order of the days. *)
Lemma string_lt_utc_date t1 t2 :
  0 <= YearFromTime t1 <= 9999 -> 0 <= YearFromTime t2 <= 9999 ->
  string_lt (Spec.utc_date t1) (Spec.utc_date t2) = (Day t1 <? Day t2).
Proof.
  intros Hy1 Hy2. rewrite <- civil_ltb.
  pose proof (MonthFromTime_range t1). pose proof (MonthFromTime_range t2).
  pose proof (AttendanceFacts.DateFromTime_range t1).
  pose proof (AttendanceFacts.DateFromTime_range t2).
  unfold Spec.utc_date, Spec.four_digits, Spec.two_digits.
  generalize dependent (YearFromTime t1). intros y1 Hy1.
  generalize dependent (YearFromTime t2). intros y2 Hy2.
  generalize dependent (MonthFromTime t1). intros m1 Hm1.
  generalize dependent (MonthFromTime t2). intros m2 Hm2.
  generalize dependent (DateFromTime t1). intros d1 Hd1.
  generalize dependent (DateFromTime t2). intros d2 Hd2.
  change (string_lt
    (String (Spec.digit (y1 / 1000)) (String (Spec.digit (y1 / 100 mod 10))
      (String (Spec.digit (y1 / 10 mod 10)) (String (Spec.digit (y1 mod 10))
        (String "-" (String (Spec.digit ((m1 + 1) / 10))
          (String (Spec.digit ((m1 + 1) mod 10))
            (String "-" (String (Spec.digit (d1 / 10))
              (String (Spec.digit (d1 mod 10)) ""))))))))))
    (String (Spec.digit (y2 / 1000)) (String (Spec.digit (y2 / 100 mod 10))
      (String (Spec.digit (y2 / 10 mod 10)) (String (Spec.digit (y2 mod 10))
        (String "-" (String (Spec.digit ((m2 + 1) / 10))
          (String (Spec.digit ((m2 + 1) mod 10))
            (String "-" (String (Spec.digit (d2 / 10))
              (String (Spec.digit (d2 mod 10)) ""))))))))))
    = (y1 * 10000 + (m1 + 1) * 100 + d1 <? y2 * 10000 + (m2 + 1) * 100 + d2)).
  rewrite !string_lt_digit, string_lt_same, !string_lt_digit, string_lt_same,
    !string_lt_digit by zdiv.
  cbn [string_lt].
  assert (E1 : y1 = 1000 * (y1 / 1000) + 100 * (y1 / 100 mod 10)
                    + 10 * (y1 / 10 mod 10) + y1 mod 10) by zdiv.
  assert (E2 : y2 = 1000 * (y2 / 1000) + 100 * (y2 / 100 mod 10)
                    + 10 * (y2 / 10 mod 10) + y2 mod 10) by zdiv.
  assert (E3 : m1 + 1 = 10 * ((m1 + 1) / 10) + (m1 + 1) mod 10) by zdiv.
  assert (E4 : m2 + 1 = 10 * ((m2 + 1) / 10) + (m2 + 1) mod 10) by zdiv.
  assert (E5 : d1 = 10 * (d1 / 10) + d1 mod 10) by zdiv.
  assert (E6 : d2 = 10 * (d2 / 10) + d2 mod 10) by zdiv.
  assert (R1 : 0 <= y1 / 100 mod 10 <= 9 /\ 0 <= y1 / 10 mod 10 <= 9
               /\ 0 <= y1 mod 10 <= 9 /\ 0 <= (m1 + 1) mod 10 <= 9
               /\ 0 <= d1 mod 10 <= 9) by zdiv.
  assert (R2 : 0 <= y2 / 100 mod 10 <= 9 /\ 0 <= y2 / 10 mod 10 <= 9
               /\ 0 <= y2 mod 10 <= 9 /\ 0 <= (m2 + 1) mod 10 <= 9
               /\ 0 <= d2 mod 10 <= 9) by zdiv.
  generalize dependent (y1 / 1000). generalize dependent (y1 / 100 mod 10).
  generalize dependent (y1 / 10 mod 10). generalize dependent (y1 mod 10).
  generalize dependent (y2 / 1000). generalize dependent (y2 / 100 mod 10).
  generalize dependent (y2 / 10 mod 10). generalize dependent (y2 mod 10).
  generalize dependent ((m1 + 1) / 10). generalize dependent ((m1 + 1) mod 10).
  generalize dependent ((m2 + 1) / 10). generalize dependent ((m2 + 1) mod 10).
  generalize dependent (d1 / 10). generalize dependent (d1 mod 10).
  generalize dependent (d2 / 10). generalize dependent (d2 mod 10).
  intros.
  repeat match goal with
         | |- context [?a <? ?b] => destruct (Z.ltb_spec a b)
         end; first [done | lia].
Qed.

Lemma digit_not_T k : 0 <= k <= 9 -> Spec.digit k <> "T"%char.
Proof.
  intros Hk.
  assert (H : k = 0 \/ k = 1 \/ k = 2 \/ k = 3 \/ k = 4 \/ k = 5 \/ k = 6
              \/ k = 7 \/ k = 8 \/ k = 9) by lia.
  by destruct H as [->|[->|[->|[->|[->|[->|[->|[->|[->| ->]]]]]]]]].
Qed.

Lemma padStart0_four y : 1000 <= y <= 9999 -> padStart0 4 (pretty y) = Spec.four_digits y.
Proof. intros Hy. by rewrite (pretty_four y Hy). Qed.

Lemma free_of_T_utc_date t :
  0 <= YearFromTime t <= 9999 -> Spec.free_of "T" (Spec.utc_date t).
Proof.
  intros Hy.
  pose proof (MonthFromTime_range t).
  pose proof (AttendanceFacts.DateFromTime_range t).
  unfold Spec.utc_date, Spec.four_digits, Spec.two_digits.
  repeat first
    [ apply ConnectionStringFacts.free_of_empty
    | apply ConnectionStringFacts.free_of_String;
        [first [discriminate | apply digit_not_T; zdiv]|] ].
Qed.

Lemma todayStr_eq now :
  1000 <= YearFromTime now <= 9999 -> todayStr now = Spec.utc_date now.
Proof.
  intros Hy.
  pose proof (MonthFromTime_range now).
  pose proof (AttendanceFacts.DateFromTime_range now).
  assert (exists rest, toISOString now = Spec.utc_date now +:+ String "T" rest)
    as [rest E].
  { unfold toISOString. cbv zeta.
    replace ((0 <=? YearFromTime now) && (YearFromTime now <=? 9999)) with true
      by (symmetry; apply andb_true_iff; lia).
    rewrite (padStart0_four _ Hy), !(padStart0_two (MonthFromTime now + 1)),
      !(padStart0_two (DateFromTime now)) by lia.
    eexists. unfold Spec.utc_date.
    rewrite !BalancesFacts.append_assoc. reflexivity. }
  unfold todayStr. rewrite E.
  rewrite ConnectionStringFacts.split_append; [done|].
  apply free_of_T_utc_date. lia.
Qed.

Lemma formatDate_utc_date tza d :
  Spec.four_digit_year tza d = true ->
  AnnualLeave.formatDate tza d = Spec.utc_date (LocalTime tza d).
Proof.
  intros [H1 H2]%andb_true_iff.
  rewrite LeaveDataFacts.formatDate_eq. unfold Spec.yyyy_mm_dd, Spec.utc_date.
  unfold getFullYear, getMonth, getDate in *.
  by rewrite pretty_four by lia.
Qed.

Lemma filter_map_commute {A B} (f : A -> B) (p : B -> bool) (q : A -> bool) l :
  (forall x, In x l -> p (f x) = q x) ->
  List.filter p (map f l) = map f (List.filter q l).
Proof.
  induction l as [|x l IH]; intros H; [done|]. simpl.
  rewrite (H x) by (by left). rewrite IH by (intros; apply H; by right).
  by destruct (q x).
Qed.

Lemma existsb_map_commute {A B} (f : A -> B) (p : B -> bool) (q : A -> bool) l :
  (forall x, In x l -> p (f x) = q x) ->
  existsb p (map f l) = existsb q l.
Proof.
  induction l as [|x l IH]; intros H; [done|]. simpl.
  rewrite (H x) by (by left). by rewrite IH by (intros; apply H; by right).
Qed.

(** X15: who is on leave today.  The client compares the dates of the
    leave entries, as getAnnualLeave wrote them, with today's date of
    [toISOString], as strings.  For years with four digits this compares
    calendar days: an entry is shown as on leave, and its person counts
    as out, exactly when it is booked and the UTC day of now lies between
    the local day of the server of its start and that of its end. *)
Theorem on_leave_today_by_calendar_day
    (tza now : Z) (m : gmap string (option string))
    (entries : list AnnualLeave.LeaveRow) (initials : string) :
  1000 <= YearFromTime now <= 9999 ->
  forallb (fun entry =>
             Spec.four_digit_year tza (AnnualLeave.col_start_date entry)
             && Spec.four_digit_year tza (AnnualLeave.col_end_date entry))
    entries = true ->
  let served rows :=
    map mapLeave
      (AnnualLeave.enhanceLeaveWithAOWAndApprover m
         (map (AnnualLeave.record_of_row tza) rows)) in
  onLeaveToday now (served entries)
  = served (List.filter (Spec.booked_on tza now) entries) /\
  isPersonOutToday now (served entries) initials
  = existsb (fun entry =>
               Spec.booked_on tza now entry
               && String.eqb
                    (toLowerCase (trim (or_empty (AnnualLeave.col_person entry))))
                    (toLowerCase (trim initials)))
      entries.
Proof.
  intros Hnow Hall. cbv zeta.
  rewrite forallb_forall in Hall.
  assert (Hcmp : forall entry, In entry entries ->
    string_le (AnnualLeave.formatDate tza (AnnualLeave.col_start_date entry))
      (todayStr now)
    = (localDay tza (AnnualLeave.col_start_date entry) <=? Day now) /\
    string_ge (AnnualLeave.formatDate tza (AnnualLeave.col_end_date entry))
      (todayStr now)
    = (Day now <=? localDay tza (AnnualLeave.col_end_date entry)) /\
    string_ge (todayStr now)
      (AnnualLeave.formatDate tza (AnnualLeave.col_start_date entry))
    = (localDay tza (AnnualLeave.col_start_date entry) <=? Day now) /\
    string_le (todayStr now)
      (AnnualLeave.formatDate tza (AnnualLeave.col_end_date entry))
    = (Day now <=? localDay tza (AnnualLeave.col_end_date entry))).
  { intros entry [Hs He]%Hall%andb_true_iff.
    rewrite (todayStr_eq now Hnow), (formatDate_utc_date _ _ Hs),
      (formatDate_utc_date _ _ He).
    apply andb_true_iff in Hs as [Hs1 Hs2], He as [He1 He2].
    unfold getFullYear in *. unfold string_le, string_ge, localDay.
    rewrite !string_lt_utc_date by lia.
    repeat split; lia. }
  unfold AnnualLeave.enhanceLeaveWithAOWAndApprover.
  rewrite !map_map. split.
  - unfold onLeaveToday. cbv zeta. apply filter_map_commute.
    intros entry Hin. destruct (Hcmp entry Hin) as (E1 & E2 & _).
    cbn. rewrite E1, E2. unfold Spec.booked_on.
    by destruct (String.eqb _ "booked").
  - unfold isPersonOutToday. cbv zeta. apply existsb_map_commute.
    intros entry Hin. destruct (Hcmp entry Hin) as (_ & _ & E1 & E2).
    cbn. rewrite E1, E2. unfold Spec.booked_on.
    destruct (String.eqb (or_empty (AnnualLeave.col_status entry)) "booked");
      [|done].
    cbn. destruct (String.eqb _ (toLowerCase (trim initials)));
      cbn; by rewrite ?andb_true_r, ?andb_false_r.
Qed.

(** Two booked entries on 5 March 2025: the first one contains the day. *)
Lemma on_leave_today_sample :
  let served rows :=
    map mapLeave
      (AnnualLeave.enhanceLeaveWithAOWAndApprover ∅
         (map (AnnualLeave.record_of_row 0) rows)) in
  let entries :=
    [ Sample.leave_row 6 "CD" 20152 "booked" 1 (Some "standard"%string) None;
      Sample.leave_row 7 "AB" 20200 "booked" 2 (Some "standard"%string) None ] in
  onLeaveToday 1741178096789 (served entries)
  = served (List.filter (Spec.booked_on 0 1741178096789) entries) /\
  List.filter (Spec.booked_on 0 1741178096789) entries
  = [ Sample.leave_row 6 "CD" 20152 "booked" 1 (Some "standard"%string) None ].
Proof.
  cbv zeta. split; [|vm_compute; reflexivity].
  refine (proj1 (on_leave_today_by_calendar_day 0 1741178096789 ∅
                   [ Sample.leave_row 6 "CD" 20152 "booked" 1
                       (Some "standard"%string) None;
                     Sample.leave_row 7 "AB" 20200 "booked" 2
                       (Some "standard"%string) None ] "CD" _ _)).
  - split; apply Z.leb_le; vm_compute; reflexivity.
  - vm_compute; reflexivity.
Defined.

End OnLeaveFacts.

